(** * Subagent registry: a shallow embedding of [src/agents/subagent-registry.ts]

    The registry keeps one record object per child run, mutates it in place
    from several asynchronous paths (lifecycle listener, wait prober, retry
    scheduler, verification pipeline, announce finalisation) and triggers a
    best-effort save of the whole map after every mutation.

    Modelling conventions.
    - Record objects live in a store ([heap]) and are referred to by
      location; the registry [subagentRuns] maps a run id to a location, and
      a suspended continuation keeps the location it captured.  Replacing a
      registry entry therefore does not redirect closures created earlier.
    - A step is one JavaScript turn: the synchronous code of a callback
      together with the promise reactions it makes runnable.  An [await] on an
      external party (gateway RPC, timer, verification hook, announce flow)
      ends the turn and leaves a [Task] behind.
    - [Date.now()], [loadConfig()] and the timeout resolver are inputs of a
      turn ([Env]).
    - Counters and timestamps are integers; the three back-off parameters are
      rationals computed exactly (IEEE rounding, NaN and infinities are
      outside the model).  An optional property is an [option]; truthiness
      tests are written out.
    - Log calls have no effect on the state and are left out. *)

From Stdlib Require Import ZArith QArith Qminmax Qpower String Ascii List Lia.
From stdpp Require Import base option list gmap strings pretty.

Local Open Scope string_scope.
Local Open Scope Z_scope.

(** ** JavaScript idioms *)

(** [a ?? d] *)
Definition nullish {A : Type} (o : option A) (d : A) : A :=
  match o with Some a => a | None => d end.

Infix "??" := nullish (at level 45, left associativity).

(** Truthiness of an optional number: present and not zero. *)
Definition truthyNum (o : option Z) : bool :=
  match o with Some n => negb (n =? 0) | None => false end.

(** Truthiness of an optional boolean. *)
Definition truthyBool (o : option bool) : bool :=
  match o with Some b => b | None => false end.

(** Truthiness of a string: not empty. *)
Definition truthyStr (s : string) : bool :=
  match s with EmptyString => false | String _ _ => true end.

Definition lowerAscii (c : ascii) : ascii :=
  let n := nat_of_ascii c in
  if (Nat.leb 65 n && Nat.leb n 90)%bool then ascii_of_nat (n + 32) else c.

(** [s.toLowerCase()] on the ASCII range. *)
Fixpoint toLowerCase (s : string) : string :=
  match s with
  | EmptyString => EmptyString
  | String c s' => String (lowerAscii c) (toLowerCase s')
  end.

(** [s.startsWith(p)] *)
Definition startsWith (s p : string) : bool := String.prefix p s.

(** [s.includes(sub)] *)
Fixpoint includes (s sub : string) : bool :=
  match s with
  | EmptyString => String.prefix sub EmptyString
  | String _ s' => (String.prefix sub s || includes s' sub)%bool
  end.

(** [s.slice(0, n)] *)
Definition slice0 (n : nat) (s : string) : string := String.substring 0 n s.

(** White space and line terminators of the ASCII range: TAB, LF, VT, FF,
    CR and the space.  The ones beyond it (NBSP, BOM, the Unicode spaces)
    are outside the byte strings of the model. *)
Definition isWhiteSpace (c : ascii) : bool :=
  let n := nat_of_ascii c in
  (Nat.leb 9 n && Nat.leb n 13 || Nat.eqb n 32)%bool.

Fixpoint trimStart (s : string) : string :=
  match s with
  | EmptyString => EmptyString
  | String c s' => if isWhiteSpace c then trimStart s' else s
  end.

Fixpoint trimEnd (s : string) : string :=
  match s with
  | EmptyString => EmptyString
  | String c s' =>
      match trimEnd s' with
      | EmptyString => if isWhiteSpace c then EmptyString else String c EmptyString
      | t => String c t
      end
  end.

(** [s.trim()] *)
Definition trim (s : string) : string := trimEnd (trimStart s).

Definition newline : string := String (ascii_of_nat 10) EmptyString.

(** [lines.join("\n")] *)
Fixpoint joinLines (lines : list string) : string :=
  match lines with
  | [] => EmptyString
  | [l] => l
  | l :: rest => l +:+ newline +:+ joinLines rest
  end.

(** ** Data model *)

Inductive OutcomeStatus := StatusOk | StatusError.

(** [SubagentRunOutcome] *)
Record SubagentRunOutcome := {
  status : OutcomeStatus;
  error : option string
}.

Inductive CleanupPolicy := CleanupDelete | CleanupKeep.

Inductive VerificationVerdict := VerdictPassed | VerdictFailed | VerdictSkipped.

(** Opaque tag; the helper module that defines it is not part of the
    sources at hand. *)
Abbreviation DeliveryContext := string (only parsing).

(** Modelled from the spec: [normalizeDeliveryContext] of
    [utils/delivery-context.js] is missing; the spec only says that the
    stored origin is the normalised tag, so the argument is taken as already
    normalised. *)
Definition normalizeDeliveryContext (c : option DeliveryContext)
  : option DeliveryContext := c.

(** [SubagentOrchestrationConfig]: every key is optional. *)
Module Partial.
Record t := mk {
  retryOnFailure : option bool;
  maxRetries : option Z;
  backoffMultiplier : option Q;
  initialDelayMs : option Q;
  maxDelayMs : option Q;
  verifyCompletion : option bool;
  verificationPrompt : option string;
  verificationTimeoutSeconds : option Z;
  retryOnVerificationFailure : option bool;
  verificationHook : option string
}.

Definition empty : t := mk None None None None None None None None None None.
End Partial.

(** [Required<SubagentOrchestrationConfig>] *)
Module Resolved.
Record t := mk {
  retryOnFailure : bool;
  maxRetries : Z;
  backoffMultiplier : Q;
  initialDelayMs : Q;
  maxDelayMs : Q;
  verifyCompletion : bool;
  verificationPrompt : string;
  verificationTimeoutSeconds : Z;
  retryOnVerificationFailure : bool;
  verificationHook : string
}.
End Resolved.

Definition DEFAULT_ORCHESTRATION : Resolved.t :=
  Resolved.mk false 3 (2 # 1) (1000 # 1) (60000 # 1) false "" 30 true "".

(** The slice of [loadConfig()] that the registry reads:
    [agents.defaults.subagents.{archiveAfterMinutes, orchestration}]. *)
Module Config.
Record t := mk {
  archiveAfterMinutes : option Z;
  orchestration : option Partial.t
}.
End Config.

Record SubagentRunRecord := mkRecord {
  runId : string;
  childSessionKey : string;
  requesterSessionKey : string;
  requesterOrigin : option DeliveryContext;
  requesterDisplayKey : string;
  task : string;
  cleanup : CleanupPolicy;
  label : option string;
  createdAt : Z;
  startedAt : option Z;
  endedAt : option Z;
  outcome : option SubagentRunOutcome;
  archiveAtMs : option Z;
  cleanupCompletedAt : option Z;
  cleanupHandled : option bool;
  retryCount : option Z;
  maxRetries : option Z;
  nextRetryAt : option Q;
  isRetry : option bool;
  originalRunId : option string;
  verificationAttempted : option bool;
  verificationResult : option VerificationVerdict;
  orchestrationConfig : option Partial.t
}.

(** Field assignments [entry.f = v]. *)
Definition set_startedAt (v : option Z) (e : SubagentRunRecord) :=
  mkRecord (runId e) (childSessionKey e) (requesterSessionKey e)
    (requesterOrigin e) (requesterDisplayKey e) (task e) (cleanup e) (label e)
    (createdAt e) v (endedAt e) (outcome e) (archiveAtMs e)
    (cleanupCompletedAt e) (cleanupHandled e) (retryCount e) (maxRetries e)
    (nextRetryAt e) (isRetry e) (originalRunId e) (verificationAttempted e)
    (verificationResult e) (orchestrationConfig e).

Definition set_endedAt (v : option Z) (e : SubagentRunRecord) :=
  mkRecord (runId e) (childSessionKey e) (requesterSessionKey e)
    (requesterOrigin e) (requesterDisplayKey e) (task e) (cleanup e) (label e)
    (createdAt e) (startedAt e) v (outcome e) (archiveAtMs e)
    (cleanupCompletedAt e) (cleanupHandled e) (retryCount e) (maxRetries e)
    (nextRetryAt e) (isRetry e) (originalRunId e) (verificationAttempted e)
    (verificationResult e) (orchestrationConfig e).

Definition set_outcome (v : option SubagentRunOutcome) (e : SubagentRunRecord) :=
  mkRecord (runId e) (childSessionKey e) (requesterSessionKey e)
    (requesterOrigin e) (requesterDisplayKey e) (task e) (cleanup e) (label e)
    (createdAt e) (startedAt e) (endedAt e) v (archiveAtMs e)
    (cleanupCompletedAt e) (cleanupHandled e) (retryCount e) (maxRetries e)
    (nextRetryAt e) (isRetry e) (originalRunId e) (verificationAttempted e)
    (verificationResult e) (orchestrationConfig e).

Definition set_cleanupCompletedAt (v : option Z) (e : SubagentRunRecord) :=
  mkRecord (runId e) (childSessionKey e) (requesterSessionKey e)
    (requesterOrigin e) (requesterDisplayKey e) (task e) (cleanup e) (label e)
    (createdAt e) (startedAt e) (endedAt e) (outcome e) (archiveAtMs e)
    v (cleanupHandled e) (retryCount e) (maxRetries e)
    (nextRetryAt e) (isRetry e) (originalRunId e) (verificationAttempted e)
    (verificationResult e) (orchestrationConfig e).

Definition set_cleanupHandled (v : option bool) (e : SubagentRunRecord) :=
  mkRecord (runId e) (childSessionKey e) (requesterSessionKey e)
    (requesterOrigin e) (requesterDisplayKey e) (task e) (cleanup e) (label e)
    (createdAt e) (startedAt e) (endedAt e) (outcome e) (archiveAtMs e)
    (cleanupCompletedAt e) v (retryCount e) (maxRetries e)
    (nextRetryAt e) (isRetry e) (originalRunId e) (verificationAttempted e)
    (verificationResult e) (orchestrationConfig e).

Definition set_retryCount (v : option Z) (e : SubagentRunRecord) :=
  mkRecord (runId e) (childSessionKey e) (requesterSessionKey e)
    (requesterOrigin e) (requesterDisplayKey e) (task e) (cleanup e) (label e)
    (createdAt e) (startedAt e) (endedAt e) (outcome e) (archiveAtMs e)
    (cleanupCompletedAt e) (cleanupHandled e) v (maxRetries e)
    (nextRetryAt e) (isRetry e) (originalRunId e) (verificationAttempted e)
    (verificationResult e) (orchestrationConfig e).

Definition set_nextRetryAt (v : option Q) (e : SubagentRunRecord) :=
  mkRecord (runId e) (childSessionKey e) (requesterSessionKey e)
    (requesterOrigin e) (requesterDisplayKey e) (task e) (cleanup e) (label e)
    (createdAt e) (startedAt e) (endedAt e) (outcome e) (archiveAtMs e)
    (cleanupCompletedAt e) (cleanupHandled e) (retryCount e) (maxRetries e)
    v (isRetry e) (originalRunId e) (verificationAttempted e)
    (verificationResult e) (orchestrationConfig e).

Definition set_isRetry (v : option bool) (e : SubagentRunRecord) :=
  mkRecord (runId e) (childSessionKey e) (requesterSessionKey e)
    (requesterOrigin e) (requesterDisplayKey e) (task e) (cleanup e) (label e)
    (createdAt e) (startedAt e) (endedAt e) (outcome e) (archiveAtMs e)
    (cleanupCompletedAt e) (cleanupHandled e) (retryCount e) (maxRetries e)
    (nextRetryAt e) v (originalRunId e) (verificationAttempted e)
    (verificationResult e) (orchestrationConfig e).

Definition set_verificationAttempted (v : option bool) (e : SubagentRunRecord) :=
  mkRecord (runId e) (childSessionKey e) (requesterSessionKey e)
    (requesterOrigin e) (requesterDisplayKey e) (task e) (cleanup e) (label e)
    (createdAt e) (startedAt e) (endedAt e) (outcome e) (archiveAtMs e)
    (cleanupCompletedAt e) (cleanupHandled e) (retryCount e) (maxRetries e)
    (nextRetryAt e) (isRetry e) (originalRunId e) v
    (verificationResult e) (orchestrationConfig e).

Definition set_verificationResult (v : option VerificationVerdict)
    (e : SubagentRunRecord) :=
  mkRecord (runId e) (childSessionKey e) (requesterSessionKey e)
    (requesterOrigin e) (requesterDisplayKey e) (task e) (cleanup e) (label e)
    (createdAt e) (startedAt e) (endedAt e) (outcome e) (archiveAtMs e)
    (cleanupCompletedAt e) (cleanupHandled e) (retryCount e) (maxRetries e)
    (nextRetryAt e) (isRetry e) (originalRunId e) (verificationAttempted e)
    v (orchestrationConfig e).

(** [entry.outcome?.status === "error"] and [=== "ok"] *)
Definition outcomeIsError (e : SubagentRunRecord) : bool :=
  match outcome e with
  | Some o => match status o with StatusError => true | StatusOk => false end
  | None => false
  end.

Definition outcomeIsOk (e : SubagentRunRecord) : bool :=
  match outcome e with
  | Some o => match status o with StatusOk => true | StatusError => false end
  | None => false
  end.

(** ** Pure helpers of the registry *)

(** [resolveArchiveAfterMs]: minutes default to 60; a value [<= 0] disables
    archival. *)
Definition resolveArchiveAfterMs (cfg : Config.t) : option Z :=
  let minutes := Config.archiveAfterMinutes cfg ?? 60 in
  if minutes <=? 0 then None else Some (Z.max 1 minutes * 60000).

(** [resolveOrchestrationConfig]: override > user config > defaults. *)
Definition resolveOrchestrationConfig (cfg : Config.t)
    (overrideConfig : option Partial.t) : Resolved.t :=
  let userConfig := Config.orchestration cfg in
  let pick {A} (f : Partial.t -> option A) (d : A) : A :=
    (overrideConfig ≫= f) ?? ((userConfig ≫= f) ?? d) in
  Resolved.mk
    (pick Partial.retryOnFailure (Resolved.retryOnFailure DEFAULT_ORCHESTRATION))
    (pick Partial.maxRetries (Resolved.maxRetries DEFAULT_ORCHESTRATION))
    (pick Partial.backoffMultiplier (Resolved.backoffMultiplier DEFAULT_ORCHESTRATION))
    (pick Partial.initialDelayMs (Resolved.initialDelayMs DEFAULT_ORCHESTRATION))
    (pick Partial.maxDelayMs (Resolved.maxDelayMs DEFAULT_ORCHESTRATION))
    (pick Partial.verifyCompletion (Resolved.verifyCompletion DEFAULT_ORCHESTRATION))
    (pick Partial.verificationPrompt (Resolved.verificationPrompt DEFAULT_ORCHESTRATION))
    (pick Partial.verificationTimeoutSeconds
       (Resolved.verificationTimeoutSeconds DEFAULT_ORCHESTRATION))
    (pick Partial.retryOnVerificationFailure
       (Resolved.retryOnVerificationFailure DEFAULT_ORCHESTRATION))
    (pick Partial.verificationHook (Resolved.verificationHook DEFAULT_ORCHESTRATION)).

(** [{ ...resolved, ...override }]: a key of the override wins when it is
    there. *)
Definition spreadConfig (base : Resolved.t) (over : Partial.t) : Partial.t :=
  Partial.mk
    (Some (Partial.retryOnFailure over ?? Resolved.retryOnFailure base))
    (Some (Partial.maxRetries over ?? Resolved.maxRetries base))
    (Some (Partial.backoffMultiplier over ?? Resolved.backoffMultiplier base))
    (Some (Partial.initialDelayMs over ?? Resolved.initialDelayMs base))
    (Some (Partial.maxDelayMs over ?? Resolved.maxDelayMs base))
    (Some (Partial.verifyCompletion over ?? Resolved.verifyCompletion base))
    (Some (Partial.verificationPrompt over ?? Resolved.verificationPrompt base))
    (Some (Partial.verificationTimeoutSeconds over
           ?? Resolved.verificationTimeoutSeconds base))
    (Some (Partial.retryOnVerificationFailure over
           ?? Resolved.retryOnVerificationFailure base))
    (Some (Partial.verificationHook over ?? Resolved.verificationHook base)).

(** [calculateRetryDelay]: [Math.min(initialDelayMs * backoffMultiplier ** retryCount, maxDelayMs)] *)
Definition calculateRetryDelay (retryCount : Z) (config : Resolved.t) : Q :=
  let delay :=
    (Resolved.initialDelayMs config * Resolved.backoffMultiplier config ^ retryCount)%Q in
  Qmin delay (Resolved.maxDelayMs config).

(** [shouldRetryTask] *)
Definition shouldRetryTask (entry : SubagentRunRecord) (config : Resolved.t) : bool :=
  if negb (Resolved.retryOnFailure config) then false
  else
    let retryCount := retryCount entry ?? 0 in
    if Resolved.maxRetries config <=? retryCount then false
    else if negb (outcomeIsError entry) then false
    else true.

(** [buildRetryPrompt] *)
Definition buildRetryPrompt (entry : SubagentRunRecord) (retryCount : Z) : string :=
  let errorMessage := (outcome entry ≫= error) ?? "Unknown error" in
  let originalTask := task entry in
  joinLines [
    "[RETRY ATTEMPT " +:+ pretty retryCount +:+ "/"
      +:+ pretty (maxRetries entry ?? 3) +:+ "]";
    "";
    "The previous attempt to complete this task FAILED with the following error:";
    "---";
    errorMessage;
    "---";
    "";
    "IMPORTANT: Please analyze what went wrong and take a DIFFERENT approach this time.";
    "Do NOT repeat the same actions that caused the failure.";
    "If the error suggests a specific issue (missing file, permission denied, API error, etc.),";
    "address that issue before proceeding with the main task.";
    "";
    "Original task:";
    "---";
    originalTask;
    "---";
    "";
    "Please complete the task successfully, avoiding the previous error."
  ].

(** ** Messages from and to the outside *)

(** The payload handed to [runSubagentAnnounceFlow]. *)
Module Announce.
Record t := mk {
  childSessionKey : string;
  childRunId : string;
  requesterSessionKey : string;
  requesterOrigin : option DeliveryContext;
  requesterDisplayKey : string;
  task : string;
  timeoutMs : Z;
  cleanup : CleanupPolicy;
  waitForCompletion : bool;
  startedAt : option Z;
  endedAt : option Z;
  label : option string;
  outcome : option SubagentRunOutcome;
  retryCount : option Z;
  verificationResult : option VerificationVerdict
}.
End Announce.

(** An event of the agent-event bus; a payload property of the wrong type
    reads as absent. *)
Module Evt.
Record Data := mkData {
  phase : option string;
  startedAt : option Z;
  endedAt : option Z;
  error : option string
}.
Record t := mk {
  stream : string;
  runId : string;
  data : option Data
}.
End Evt.

(** The reply of the gateway's [agent.wait]. *)
Module Wait.
Record t := mk {
  status : option string;
  startedAt : option Z;
  endedAt : option Z;
  error : option string
}.
End Wait.

(** The parameters of the gateway's [agent.start]. *)
Module Start.
Record t := mk {
  key : string;
  prompt : string;
  runId : string
}.
End Start.

(** The argument of [registerSubagentRun]. *)
Module Params.
Record t := mk {
  runId : string;
  childSessionKey : string;
  requesterSessionKey : string;
  requesterOrigin : option DeliveryContext;
  requesterDisplayKey : string;
  task : string;
  cleanup : CleanupPolicy;
  label : option string;
  runTimeoutSeconds : option Z;
  orchestrationConfig : option Partial.t
}.
End Params.

Record VerificationResult := {
  passed : bool;
  reason : option string
}.

(** A [VerificationHookFn] is user code; the registry only stores and calls
    it, so a hook is an opaque identity and its answer an input. *)
Abbreviation HookId := nat (only parsing).

(** The location of a record object in the store. *)
Abbreviation loc := nat (only parsing).

(** Suspended continuations, each with the variables its closure captured. *)
Inductive Task :=
| TWait (runId : string) (timeoutMs : Z)
    (* [waitForSubagentCompletion] at [await callGateway("agent.wait")] *)
| TAnnounce (runId : string) (entry : loc) (params : Announce.t)
    (* [runSubagentAnnounceFlow(...).then(finalizeSubagentCleanup ...)] *)
| TRetryDelay (entry : loc) (retryCount : Z) (delay : Q) (pendingKey : string)
    (* [scheduleTaskRetry] at [await setTimeout(delay)] *)
| TRetryStart (entry : loc) (start : Start.t) (pendingKey : string)
    (* [scheduleTaskRetry] at [await callGateway("agent.start")] *)
| TVerifyHook (entry : loc) (config : Resolved.t) (hook : HookId) (evtRunId : string)
    (* [verifyTaskCompletion] at [await Promise.race([hook(...), timeout])] *)
| TVerifyAgent (entry : loc) (config : Resolved.t) (prompt : string) (evtRunId : string).
    (* [verifyWithAgent] at [await callGateway("agent.query")] *)

(** How an awaited external party answers. *)
Inductive Settled :=
| WaitResolved (reply : option Wait.t)
| WaitRejected
| AnnounceResolved (didAnnounce : bool)
| AnnounceRejected
| TimerFired
| StartResolved
| StartRejected
| HookResolved (r : VerificationResult)
| HookRejected (msg : string)
| QueryResolved (reply : option string)
| QueryRejected (msg : string).

(** What a turn reads from its surroundings. *)
Record Env := {
  now : Z;
  loadConfig : Config.t;
  resolveAgentTimeoutMs : Config.t -> option Z -> Z
}.

(** ** State *)

Abbreviation Snapshot := (gmap string SubagentRunRecord) (only parsing).

(** The registry file and the faults the disk will answer the coming saves
    with ([true]: the save throws). *)
Record Store := {
  file : option Snapshot;
  faults : list bool
}.

Record State := mkState {
  heap : list SubagentRunRecord;
  subagentRuns : gmap string loc;
  sweeper : bool;
  listenerStarted : bool;
  restoreAttempted : bool;
  resumedRuns : gset string;
  pendingRetries : gset string;
  pendingVerifications : gset string;
  verificationHooks : gmap string HookId;
  tasks : list Task;
  store : Store
}.

Definition with_heap (v : list SubagentRunRecord) (st : State) : State :=
  mkState v (subagentRuns st) (sweeper st) (listenerStarted st)
    (restoreAttempted st) (resumedRuns st) (pendingRetries st)
    (pendingVerifications st) (verificationHooks st) (tasks st) (store st).

Definition with_subagentRuns (v : gmap string loc) (st : State) : State :=
  mkState (heap st) v (sweeper st) (listenerStarted st)
    (restoreAttempted st) (resumedRuns st) (pendingRetries st)
    (pendingVerifications st) (verificationHooks st) (tasks st) (store st).

Definition with_sweeper (v : bool) (st : State) : State :=
  mkState (heap st) (subagentRuns st) v (listenerStarted st)
    (restoreAttempted st) (resumedRuns st) (pendingRetries st)
    (pendingVerifications st) (verificationHooks st) (tasks st) (store st).

Definition with_listenerStarted (v : bool) (st : State) : State :=
  mkState (heap st) (subagentRuns st) (sweeper st) v
    (restoreAttempted st) (resumedRuns st) (pendingRetries st)
    (pendingVerifications st) (verificationHooks st) (tasks st) (store st).

Definition with_restoreAttempted (v : bool) (st : State) : State :=
  mkState (heap st) (subagentRuns st) (sweeper st) (listenerStarted st)
    v (resumedRuns st) (pendingRetries st)
    (pendingVerifications st) (verificationHooks st) (tasks st) (store st).

Definition with_resumedRuns (v : gset string) (st : State) : State :=
  mkState (heap st) (subagentRuns st) (sweeper st) (listenerStarted st)
    (restoreAttempted st) v (pendingRetries st)
    (pendingVerifications st) (verificationHooks st) (tasks st) (store st).

Definition with_pendingRetries (v : gset string) (st : State) : State :=
  mkState (heap st) (subagentRuns st) (sweeper st) (listenerStarted st)
    (restoreAttempted st) (resumedRuns st) v
    (pendingVerifications st) (verificationHooks st) (tasks st) (store st).

Definition with_pendingVerifications (v : gset string) (st : State) : State :=
  mkState (heap st) (subagentRuns st) (sweeper st) (listenerStarted st)
    (restoreAttempted st) (resumedRuns st) (pendingRetries st)
    v (verificationHooks st) (tasks st) (store st).

Definition with_verificationHooks (v : gmap string HookId) (st : State) : State :=
  mkState (heap st) (subagentRuns st) (sweeper st) (listenerStarted st)
    (restoreAttempted st) (resumedRuns st) (pendingRetries st)
    (pendingVerifications st) v (tasks st) (store st).

Definition with_tasks (v : list Task) (st : State) : State :=
  mkState (heap st) (subagentRuns st) (sweeper st) (listenerStarted st)
    (restoreAttempted st) (resumedRuns st) (pendingRetries st)
    (pendingVerifications st) (verificationHooks st) v (store st).

Definition with_store (v : Store) (st : State) : State :=
  mkState (heap st) (subagentRuns st) (sweeper st) (listenerStarted st)
    (restoreAttempted st) (resumedRuns st) (pendingRetries st)
    (pendingVerifications st) (verificationHooks st) (tasks st) v.

(** The module as loaded, before anything is registered. *)
Definition initialState (diskFaults : list bool) : State :=
  mkState [] ∅ false false false ∅ ∅ ∅ ∅ [] {| file := None; faults := diskFaults |}.

(** [subagentRuns.get(runId)]: the record object and where it lives. *)
Definition getRun (st : State) (runId : string) : option (loc * SubagentRunRecord) :=
  match subagentRuns st !! runId with
  | Some l => match heap st !! l with Some e => Some (l, e) | None => None end
  | None => None
  end.

(** The record registered under a run id. *)
Definition recordOf (st : State) (runId : string) : option SubagentRunRecord :=
  snd <$> getRun st runId.

(** What a save would write: the registry with every entry dereferenced. *)
Definition snapshot (st : State) : Snapshot :=
  omap (fun l : loc => heap st !! l) (subagentRuns st).

(** ** Computations: state plus exceptions

    A computation runs on a state and either returns or throws; the state
    reached so far survives a throw, as assignments do in JavaScript. *)

Inductive Completion (A : Type) :=
| Normal (a : A)
| Thrown (msg : string).

Arguments Normal {A} a.
Arguments Thrown {A} msg.

Definition M (A : Type) : Type := State -> Completion A * State.

Definition ret {A : Type} (a : A) : M A := fun st => (Normal a, st).

Definition bind {A B : Type} (m : M A) (k : A -> M B) : M B :=
  fun st =>
    match m st with
    | (Normal a, st') => k a st'
    | (Thrown msg, st') => (Thrown msg, st')
    end.

Definition throw {A : Type} (msg : string) : M A := fun st => (Thrown msg, st).

(** [try { m } catch (err) { h(err) }] *)
Definition try_catch {A : Type} (m : M A) (h : string -> M A) : M A :=
  fun st =>
    match m st with
    | (Normal a, st') => (Normal a, st')
    | (Thrown msg, st') => h msg st'
    end.

Definition gets {A : Type} (f : State -> A) : M A := fun st => (Normal (f st), st).

Definition modify (f : State -> State) : M unit := fun st => (Normal tt, f st).

Declare Scope M_scope.
Delimit Scope M_scope with M.

Notation "'let*' x ':=' m 'in' k" := (bind m (fun x => k))
  (at level 10, x pattern, m at level 100, k at level 200) : M_scope.
Notation "m ;; k" := (bind m (fun _ => k))
  (at level 100, k at level 200, right associativity) : M_scope.

Local Open Scope M_scope.

(** The state a computation ends in, and its completion. *)
Definition exec {A : Type} (m : M A) (st : State) : State := snd (m st).
Definition completion {A : Type} (m : M A) (st : State) : Completion A := fst (m st).

Definition when (b : bool) (m : M unit) : M unit := if b then m else ret tt.

(** [entry.f = v] on the object at [l]. *)
Definition mutate (l : loc) (f : SubagentRunRecord -> SubagentRunRecord) : M unit :=
  modify (fun st => with_heap (alter f l (heap st)) st).

(** A new record object. *)
Definition alloc (e : SubagentRunRecord) : M loc :=
  fun st => (Normal (length (heap st)), with_heap (heap st ++ [e]) st).

(** Suspend at an [await] on an external party. *)
Definition spawn (t : Task) : M unit :=
  modify (fun st => with_tasks (tasks st ++ [t]) st).

(** Read the object behind a captured reference.  A reference always points
    to an allocated object; [d] is what the model does otherwise. *)
Definition withEntryOr {A : Type} (d : M A) (l : loc)
    (k : SubagentRunRecord -> M A) : M A :=
  fun st =>
    match heap st !! l with
    | Some entry => k entry st
    | None => d st
    end.

Definition withEntry (l : loc) (k : SubagentRunRecord -> M unit) : M unit :=
  withEntryOr (ret tt) l k.

(** ** Persistence *)

(** Modelled from the spec: [saveSubagentRegistryToDisk] of
    [subagent-registry.store.js] is missing; the spec says that it serialises
    the entire current in-memory map and replaces the file, and that it can
    fail.  A failure is a throw, taken from the fault schedule. *)
Definition saveSubagentRegistryToDisk : M unit :=
  fun st =>
    match faults (store st) with
    | true :: rest =>
        (Thrown "save failed",
         with_store {| file := file (store st); faults := rest |} st)
    | false :: rest =>
        (Normal tt, with_store {| file := Some (snapshot st); faults := rest |} st)
    | [] =>
        (Normal tt, with_store {| file := Some (snapshot st); faults := [] |} st)
    end.

(** [persistSubagentRuns]: [try { save } catch { /* ignore */ }] *)
Definition persistSubagentRuns : M unit :=
  try_catch saveSubagentRegistryToDisk (fun _ => ret tt).

(** ** Cleanup guard, announce and finalisation *)

(** [beginSubagentCleanup] *)
Definition beginSubagentCleanup (runId : string) : M bool :=
  let* found := gets (fun st => getRun st runId) in
  match found with
  | None => ret false
  | Some (l, entry) =>
      if truthyNum (cleanupCompletedAt entry) then ret false
      else if truthyBool (cleanupHandled entry) then ret false
      else
        mutate l (set_cleanupHandled (Some true));;
        persistSubagentRuns;;
        ret true
  end.

(** [finalizeSubagentCleanup] *)
Definition finalizeSubagentCleanup (env : Env) (runId : string)
    (cleanup : CleanupPolicy) (didAnnounce : bool) : M unit :=
  let* found := gets (fun st => getRun st runId) in
  match found with
  | None => ret tt
  | Some (l, _) =>
      match cleanup with
      | CleanupDelete =>
          modify (fun st => with_subagentRuns (delete runId (subagentRuns st)) st);;
          persistSubagentRuns
      | CleanupKeep =>
          if negb didAnnounce then
            (* Allow retry on the next wake if the announce failed. *)
            mutate l (set_cleanupHandled (Some false));;
            persistSubagentRuns
          else
            mutate l (set_cleanupCompletedAt (Some (now env)));;
            persistSubagentRuns
      end
  end.

(** The object literal that the four call sites of
    [runSubagentAnnounceFlow] build from [entry]. *)
Definition announceParams (entry : SubagentRunRecord) : Announce.t :=
  Announce.mk (childSessionKey entry) (runId entry) (requesterSessionKey entry)
    (normalizeDeliveryContext (requesterOrigin entry)) (requesterDisplayKey entry)
    (task entry) 30000 (cleanup entry) false (startedAt entry) (endedAt entry)
    (label entry) (outcome entry) (retryCount entry) (verificationResult entry).

(** [void runSubagentAnnounceFlow({...}).then(didAnnounce =>
    finalizeSubagentCleanup(runId, entry.cleanup, didAnnounce))] *)
Definition startAnnounce (runId : string) (l : loc) : M unit :=
  withEntry l (fun entry => spawn (TAnnounce runId l (announceParams entry))).

(** The reaction to the announce flow's promise; [entry.cleanup] is read
    from the captured object when the promise resolves. *)
Definition announceSettled (env : Env) (runId : string) (l : loc)
    (didAnnounce : bool) : M unit :=
  withEntry l (fun entry =>
    finalizeSubagentCleanup env runId (cleanup entry) didAnnounce).

(** [proceedWithCleanup] *)
Definition proceedWithCleanup (runId : string) (l : loc) : M unit :=
  let* ok := beginSubagentCleanup runId in
  if negb ok then ret tt else startAnnounce runId l.

(** ** Wait prober *)

Definition resolveSubagentWaitTimeoutMs (env : Env) (cfg : Config.t)
    (runTimeoutSeconds : option Z) : Z :=
  resolveAgentTimeoutMs env cfg runTimeoutSeconds.

(** [waitForSubagentCompletion], up to its [await]:
    [Math.max(1, Math.floor(waitTimeoutMs))] and the RPC. *)
Definition waitForSubagentCompletion (runId : string) (waitTimeoutMs : Z) : M unit :=
  let timeoutMs := Z.max 1 waitTimeoutMs in
  spawn (TWait runId timeoutMs).

Definition statusIs (s : string) (wait : option Wait.t) : bool :=
  match wait ≫= Wait.status with
  | Some s' => String.eqb s' s
  | None => false
  end.

(** [waitForSubagentCompletion], from the reply on. *)
Definition waitForSubagentCompletion_reply (env : Env) (runId : string)
    (wait : option Wait.t) : M unit :=
  if (negb (statusIs "ok" wait) && negb (statusIs "error" wait))%bool then ret tt
  else
    match wait with
    | None => ret tt
    | Some w =>
        let* found := gets (fun st => getRun st runId) in
        match found with
        | None => ret tt
        | Some (l, _) =>
            match Wait.startedAt w with
            | Some s => mutate l (set_startedAt (Some s))
            | None => ret tt
            end;;
            match Wait.endedAt w with
            | Some t => mutate l (set_endedAt (Some t))
            | None => ret tt
            end;;
            withEntry l (fun entry =>
              if negb (truthyNum (endedAt entry))
              then mutate l (set_endedAt (Some (now env)))
              else ret tt);;
            let waitError := Wait.error w in
            mutate l (set_outcome (Some (
              if statusIs "error" wait
              then {| status := StatusError; error := waitError |}
              else {| status := StatusOk; error := None |})));;
            persistSubagentRuns;;
            let* ok := beginSubagentCleanup runId in
            if negb ok then ret tt else startAnnounce runId l
        end
    end.

(** ** Retry scheduler *)

(** The [.finally(() => pendingRetries.delete(key))] that both callers
    attach to [scheduleTaskRetry]. *)
Definition retrySettled (pendingKey : string) : M unit :=
  modify (fun st => with_pendingRetries (pendingRetries st ∖ {[pendingKey]}) st).

(** [scheduleTaskRetry], up to [await setTimeout(delay)].  [pendingKey] is
    the key of the caller's [.finally]. *)
Definition scheduleTaskRetry (env : Env) (l : loc) (config : Resolved.t)
    (pendingKey : string) : M unit :=
  withEntry l (fun entry =>
    let retryCount := (retryCount entry ?? 0) + 1 in
    let delay := calculateRetryDelay (retryCount - 1) config in
    let nextRetryAt := (inject_Z (now env) + delay)%Q in
    mutate l (set_retryCount (Some retryCount));;
    mutate l (set_nextRetryAt (Some nextRetryAt));;
    persistSubagentRuns;;
    spawn (TRetryDelay l retryCount delay pendingKey)).

(** [scheduleTaskRetry], from the end of the back-off delay to
    [await callGateway("agent.start")]. *)
Definition scheduleTaskRetry_afterDelay (env : Env) (l : loc) (retryCount : Z)
    (pendingKey : string) : M unit :=
  withEntryOr (retrySettled pendingKey) l (fun entry =>
    let* found := gets (fun st => getRun st (runId entry)) in
    match found with
    | None => retrySettled pendingKey
    | Some (cl, currentEntry) =>
        if truthyNum (cleanupCompletedAt currentEntry) then retrySettled pendingKey
        else
          let retryRunId := runId entry +:+ "-retry-" +:+ pretty retryCount in
          let retryPrompt := buildRetryPrompt currentEntry retryCount in
          mutate cl (set_endedAt None);;
          mutate cl (set_outcome None);;
          mutate cl (set_cleanupHandled (Some false));;
          mutate cl (set_startedAt (Some (now env)));;
          mutate cl (set_isRetry (Some true));;
          persistSubagentRuns;;
          spawn (TRetryStart l
                   (Start.mk (childSessionKey entry) retryPrompt retryRunId)
                   pendingKey)
    end).

(** [scheduleTaskRetry], after the gateway answered [agent.start]. *)
Definition scheduleTaskRetry_afterStart (env : Env) (l : loc) (started : bool)
    (pendingKey : string) : M unit :=
  when started
    (withEntry l (fun entry =>
       let cfg := loadConfig env in
       let waitTimeoutMs := resolveSubagentWaitTimeoutMs env cfg None in
       waitForSubagentCompletion (runId entry) waitTimeoutMs));;
  retrySettled pendingKey.

(** ** Verification pipeline *)

(** How [verifyTaskCompletion] leaves its synchronous part: with a verdict,
    or suspended on the hook or on the agent query. *)
Inductive VerifyStart :=
| VerdictNow (r : VerificationResult)
| AwaitHook (hook : HookId)
| AwaitAgent (prompt : string).

(** The prompt that [verifyWithAgent] composes. *)
Definition verifyWithAgentPrompt (entry : SubagentRunRecord) (config : Resolved.t)
  : string :=
  joinLines [
    "Please verify that the following task was completed successfully.";
    "";
    "Task:";
    "---";
    task entry;
    "---";
    "";
    (if truthyStr (Resolved.verificationPrompt config)
     then Resolved.verificationPrompt config
     else "Was this task completed successfully? Respond with YES or NO followed by a brief explanation.");
    "";
    "If the task failed or is incomplete, explain what went wrong or what remains to be done."
  ].

(** [verifyWithAgent], from the gateway's response on. *)
Definition classifyAgentReply (response : option string) : VerificationResult :=
  let reply := (toLowerCase <$> response) ?? "" in
  if (startsWith reply "yes" || includes reply "completed successfully")%bool then
    {| passed := true; reason := Some "Agent confirmed completion" |}
  else if (startsWith reply "no" || includes reply "failed"
           || includes reply "incomplete")%bool then
    {| passed := false;
       reason := Some ("Agent reported: " +:+ ((slice0 200 <$> response) ?? "undefined")) |}
  else
    {| passed := true; reason := Some "Unclear response, defaulting to passed" |}.

(** [verifyTaskCompletion], up to its first [await]. *)
Definition verifyTaskCompletion (l : loc) (config : Resolved.t) : M VerifyStart :=
  if negb (Resolved.verifyCompletion config) then
    ret (VerdictNow {| passed := true; reason := Some "Verification disabled" |})
  else
    mutate l (set_verificationAttempted (Some true));;
    persistSubagentRuns;;
    (* Use custom hook if specified *)
    if truthyStr (Resolved.verificationHook config) then
      let* hook := gets (fun st => verificationHooks st !! Resolved.verificationHook config) in
      match hook with
      | None =>
          ret (VerdictNow {| passed := true;
                             reason := Some ("Hook '" +:+ Resolved.verificationHook config
                                             +:+ "' not found, skipping") |})
      | Some h => ret (AwaitHook h)
      end
    else
      withEntryOr
        (ret (VerdictNow {| passed := true; reason := Some "Default verification passed" |}))
        l (fun entry =>
        (* Built-in verification: check if outcome is success *)
        if outcomeIsError entry then
          ret (VerdictNow {| passed := false;
                             reason := Some ((outcome entry ≫= error)
                                             ?? "Task ended with error") |})
        else if truthyStr (Resolved.verificationPrompt config) then
          ret (AwaitAgent (verifyWithAgentPrompt entry config))
        else
          ret (VerdictNow {| passed := true; reason := Some "Default verification passed" |})).

(** The verdict of a hook that settled: its result, or a failure when it
    threw or the timeout won the race. *)
Definition hookVerdict (r : VerificationResult + string) : VerificationResult :=
  match r with
  | inl result => result
  | inr msg => {| passed := false; reason := Some ("Hook error: " +:+ msg) |}
  end.

(** The verdict of the agent query: the classified reply, or a failure when
    the query threw. *)
Definition agentVerdict (r : option string + string) : VerificationResult :=
  match r with
  | inl response => classifyAgentReply response
  | inr msg =>
      {| passed := false;
         reason := Some ("Agent verification error: " +:+ ("Agent query failed: " +:+ msg)) |}
  end.

(** [handleTaskCompletion], from the verdict of [verifyTaskCompletion] on. *)
Definition handleTaskCompletion_verdict (env : Env) (l : loc) (config : Resolved.t)
    (verificationResult : VerificationResult) : M unit :=
  if passed verificationResult then
    mutate l (set_verificationResult (Some VerdictPassed));;
    persistSubagentRuns
  else
    (* Verification failed *)
    mutate l (set_verificationResult (Some VerdictFailed));;
    if Resolved.retryOnVerificationFailure config then
      (* Convert to error outcome for retry *)
      mutate l (set_outcome (Some
        {| status := StatusError;
           error := Some ("Verification failed: "
                          +:+ (reason verificationResult ?? "undefined")) |}));;
      persistSubagentRuns;;
      withEntry l (fun entry =>
        if shouldRetryTask entry config then
          let* pending := gets (fun st => bool_decide (runId entry ∈ pendingRetries st)) in
          if negb pending then
            modify (fun st => with_pendingRetries ({[runId entry]} ∪ pendingRetries st) st);;
            scheduleTaskRetry env l config (runId entry)
          else ret tt
        else persistSubagentRuns)
    else persistSubagentRuns.

(** The reactions that the listener attaches to [handleTaskCompletion]:
    [.then(() => { if (entry.outcome?.status === "error") return;
    proceedWithCleanup(evt.runId, entry) })] and
    [.finally(() => pendingVerifications.delete(evt.runId))]. *)
Definition taskCompletionHandled (evtRunId : string) (l : loc) : M unit :=
  withEntry l (fun entry =>
    if outcomeIsError entry then ret tt
    else proceedWithCleanup evtRunId l);;
  modify (fun st =>
    with_pendingVerifications (pendingVerifications st ∖ {[evtRunId]}) st).

(** [handleTaskCompletion], as the listener calls it. *)
Definition handleTaskCompletion (env : Env) (l : loc) (orchestrationConfig : Resolved.t)
    (evtRunId : string) : M unit :=
  withEntry l (fun entry =>
    (* Skip verification if task failed (will be handled by retry logic) *)
    if outcomeIsError entry then
      mutate l (set_verificationResult (Some VerdictSkipped));;
      persistSubagentRuns;;
      taskCompletionHandled evtRunId l
    else if Resolved.verifyCompletion orchestrationConfig then
      let* v := verifyTaskCompletion l orchestrationConfig in
      match v with
      | VerdictNow r =>
          handleTaskCompletion_verdict env l orchestrationConfig r;;
          taskCompletionHandled evtRunId l
      | AwaitHook h => spawn (TVerifyHook l orchestrationConfig h evtRunId)
      | AwaitAgent p => spawn (TVerifyAgent l orchestrationConfig p evtRunId)
      end
    else
      (* No verification configured *)
      mutate l (set_verificationResult (Some VerdictSkipped));;
      persistSubagentRuns;;
      taskCompletionHandled evtRunId l).

(** [handleTaskCompletion] resumed by the awaited hook or agent query. *)
Definition verificationSettled (env : Env) (l : loc) (config : Resolved.t)
    (evtRunId : string) (verdict : VerificationResult) : M unit :=
  handleTaskCompletion_verdict env l config verdict;;
  taskCompletionHandled evtRunId l.

(** [registerVerificationHook] *)
Definition registerVerificationHook (name : string) (hook : HookId) : M unit :=
  modify (fun st => with_verificationHooks (<[name := hook]> (verificationHooks st)) st).

(** [unregisterVerificationHook] *)
Definition unregisterVerificationHook (name : string) : M bool :=
  let* deleted := gets (fun st => bool_decide (is_Some (verificationHooks st !! name))) in
  modify (fun st => with_verificationHooks (delete name (verificationHooks st)) st);;
  ret deleted.

(** ** Lifecycle listener *)

Definition phaseIs (s : string) (evt : Evt.t) : bool :=
  match Evt.data evt ≫= Evt.phase with
  | Some p => String.eqb p s
  | None => false
  end.

(** The callback that [ensureListener] subscribes with [onAgentEvent]. *)
Definition onLifecycleEvent (env : Env) (evt : Evt.t) : M unit :=
  if negb (String.eqb (Evt.stream evt) "lifecycle") then ret tt
  else
    let* found := gets (fun st => getRun st (Evt.runId evt)) in
    match found with
    | None => ret tt
    | Some (l, _) =>
        if phaseIs "start" evt then
          let startedAt := Evt.data evt ≫= Evt.startedAt in
          if truthyNum startedAt then
            mutate l (set_startedAt startedAt);;
            persistSubagentRuns
          else ret tt
        else if (negb (phaseIs "end" evt) && negb (phaseIs "error" evt))%bool then ret tt
        else
          let endedAt := (Evt.data evt ≫= Evt.endedAt) ?? now env in
          mutate l (set_endedAt (Some endedAt));;
          (if phaseIs "error" evt then
             let error := Evt.data evt ≫= Evt.error in
             mutate l (set_outcome (Some {| status := StatusError; error := error |}))
           else
             mutate l (set_outcome (Some {| status := StatusOk; error := None |})));;
          persistSubagentRuns;;
          withEntry l (fun entry =>
            (* Check if we should retry on failure *)
            let orchestrationConfig :=
              resolveOrchestrationConfig (loadConfig env) (orchestrationConfig entry) in
            if (outcomeIsError entry && shouldRetryTask entry orchestrationConfig)%bool then
              (* Don't cleanup yet - schedule retry instead *)
              let* pending :=
                gets (fun st => bool_decide (Evt.runId evt ∈ pendingRetries st)) in
              if negb pending then
                modify (fun st =>
                  with_pendingRetries ({[Evt.runId evt]} ∪ pendingRetries st) st);;
                scheduleTaskRetry env l orchestrationConfig (Evt.runId evt)
              else ret tt
            else if (outcomeIsOk entry
                     && Resolved.verifyCompletion orchestrationConfig)%bool then
              (* Run verification for successful tasks (if configured) *)
              let* pending :=
                gets (fun st => bool_decide (Evt.runId evt ∈ pendingVerifications st)) in
              if negb pending then
                modify (fun st =>
                  with_pendingVerifications
                    ({[Evt.runId evt]} ∪ pendingVerifications st) st);;
                handleTaskCompletion env l orchestrationConfig (Evt.runId evt)
              else ret tt
            else
              let* ok := beginSubagentCleanup (Evt.runId evt) in
              if negb ok then ret tt else startAnnounce (Evt.runId evt) l)
    end.

(** [ensureListener]: subscribe once. *)
Definition ensureListener : M unit :=
  let* started := gets listenerStarted in
  if started then ret tt
  else modify (with_listenerStarted true).

(** ** Sweeper *)

Definition startSweeper : M unit :=
  let* armed := gets sweeper in
  if armed then ret tt else modify (with_sweeper true).

Definition stopSweeper : M unit :=
  let* armed := gets sweeper in
  if negb armed then ret tt else modify (with_sweeper false).

(** The loop test of [sweepSubagentRuns]: the entry is skipped when
    [!entry.archiveAtMs || entry.archiveAtMs > now]. *)
Definition sweepKeeps (h : list SubagentRunRecord) (now : Z) (l : loc) : bool :=
  match h !! l with
  | Some entry =>
      (negb (truthyNum (archiveAtMs entry)) || (now <? archiveAtMs entry ?? 0))%bool
  | None => true
  end.

(** [sweepSubagentRuns].  The awaited [sessions.delete] calls swallow their
    errors and touch nothing of the registry; the loop is run in one turn. *)
Definition sweepSubagentRuns (env : Env) : M unit :=
  let* before := gets subagentRuns in
  let* h := gets heap in
  let kept := filter (fun kv => sweepKeeps h (now env) kv.2 = true) before in
  let mutated := negb (bool_decide (kept = before)) in
  modify (with_subagentRuns kept);;
  when mutated persistSubagentRuns;;
  let* size := gets (fun st => size (subagentRuns st)) in
  when (Nat.eqb size 0) stopSweeper.

(** ** Registry interface *)

(** The resolved policy as the object stored in the record. *)
Definition asPartial (c : Resolved.t) : Partial.t := spreadConfig c Partial.empty.

(** The record that [registerSubagentRun] builds: its object literal and
    the bindings it reads. *)
Definition newRunRecord (env : Env) (params : Params.t) : SubagentRunRecord :=
  let now := now env in
  let cfg := loadConfig env in
  let archiveAfterMs := resolveArchiveAfterMs cfg in
  let archiveAtMs :=
    if truthyNum archiveAfterMs then Some (now + archiveAfterMs ?? 0) else None in
  let requesterOrigin := normalizeDeliveryContext (Params.requesterOrigin params) in
  (* Resolve orchestration config: param override > config > defaults *)
  let resolvedOrchestration := resolveOrchestrationConfig cfg None in
  let orchestrationConfig :=
    match Params.orchestrationConfig params with
    | Some o => spreadConfig resolvedOrchestration o
    | None => asPartial resolvedOrchestration
    end in
  {| runId := Params.runId params;
     childSessionKey := Params.childSessionKey params;
     requesterSessionKey := Params.requesterSessionKey params;
     requesterOrigin := requesterOrigin;
     requesterDisplayKey := Params.requesterDisplayKey params;
     task := Params.task params;
     cleanup := Params.cleanup params;
     label := Params.label params;
     createdAt := now;
     startedAt := Some now;
     endedAt := None;
     outcome := None;
     archiveAtMs := archiveAtMs;
     cleanupCompletedAt := None;
     cleanupHandled := Some false;
     (* Initialize retry tracking *)
     retryCount := Some 0;
     maxRetries := Partial.maxRetries orchestrationConfig;
     nextRetryAt := None;
     isRetry := None;
     originalRunId := None;
     verificationAttempted := None;
     verificationResult := None;
     orchestrationConfig := Some orchestrationConfig |}.

(** [registerSubagentRun] *)
Definition registerSubagentRun (env : Env) (params : Params.t) : M unit :=
  let cfg := loadConfig env in
  let archiveAfterMs := resolveArchiveAfterMs cfg in
  let waitTimeoutMs := resolveSubagentWaitTimeoutMs env cfg (Params.runTimeoutSeconds params) in
  (* subagentRuns.set(params.runId, { ... }) *)
  let* l := alloc (newRunRecord env params) in
  modify (fun st =>
    with_subagentRuns (<[Params.runId params := l]> (subagentRuns st)) st);;
  ensureListener;;
  persistSubagentRuns;;
  when (truthyNum archiveAfterMs) startSweeper;;
  (* Wait for subagent completion via gateway RPC (cross-process). *)
  waitForSubagentCompletion (Params.runId params) waitTimeoutMs.

(** [releaseSubagentRun] *)
Definition releaseSubagentRun (runId : string) : M unit :=
  let* didDelete := gets (fun st => bool_decide (is_Some (subagentRuns st !! runId))) in
  modify (fun st => with_subagentRuns (delete runId (subagentRuns st)) st);;
  when didDelete persistSubagentRuns;;
  let* size := gets (fun st => size (subagentRuns st)) in
  when (Nat.eqb size 0) stopSweeper.

(** [resetSubagentRegistryForTests].  Promises already pending are not
    cancelled by it. *)
Definition resetSubagentRegistryForTests : M unit :=
  modify (with_subagentRuns ∅);;
  modify (with_resumedRuns ∅);;
  modify (with_pendingRetries ∅);;
  modify (with_pendingVerifications ∅);;
  modify (with_verificationHooks ∅);;
  stopSweeper;;
  modify (with_restoreAttempted false);;
  modify (with_listenerStarted false);;
  persistSubagentRuns.

(** [listSubagentRunsForRequester]; the records come in the order of the
    run ids, not in the order of their insertion. *)
Definition listSubagentRunsForRequester (st : State) (sessionKey : string)
  : list SubagentRunRecord :=
  let key := trim sessionKey in
  if negb (truthyStr key) then []
  else
    filter (fun entry => requesterSessionKey entry = key)
      (omap (fun kv => heap st !! kv.2) (map_to_list (subagentRuns st))).

(** [addSubagentRunForTests] *)
Definition addSubagentRunForTests (entry : SubagentRunRecord) : M unit :=
  let* l := alloc entry in
  modify (fun st => with_subagentRuns (<[runId entry := l]> (subagentRuns st)) st);;
  persistSubagentRuns.

(** ** Restore on startup *)

(** [for (const x of xs) { f(x) }] *)
Fixpoint forEach {A : Type} (xs : list A) (f : A -> M unit) : M unit :=
  match xs with
  | [] => ret tt
  | x :: rest => f x;; forEach rest f
  end.

(** [resumeSubagentRun] *)
Definition resumeSubagentRun (env : Env) (runId : string) : M unit :=
  let* resumed := gets (fun st => bool_decide (runId ∈ resumedRuns st)) in
  if (negb (truthyStr runId) || resumed)%bool then ret tt
  else
    let* found := gets (fun st => getRun st runId) in
    match found with
    | None => ret tt
    | Some (l, entry) =>
        if truthyNum (cleanupCompletedAt entry) then ret tt
        else if (match endedAt entry with Some t => 0 <? t | None => false end) then
          let* ok := beginSubagentCleanup runId in
          if negb ok then ret tt
          else
            startAnnounce runId l;;
            modify (fun st => with_resumedRuns ({[runId]} ∪ resumedRuns st) st)
        else
          (* Wait for completion again after restart. *)
          let cfg := loadConfig env in
          let waitTimeoutMs := resolveSubagentWaitTimeoutMs env cfg None in
          waitForSubagentCompletion runId waitTimeoutMs;;
          modify (fun st => with_resumedRuns ({[runId]} ∪ resumedRuns st) st)
    end.

(** [restoreSubagentRunsOnce].  [restored] is what
    [loadSubagentRegistryFromDisk] returns in this turn ([None]: it throws);
    the loader belongs to the store module, which is not among the sources.
    The registry is walked in the order of its keys. *)
Definition restoreSubagentRunsOnce (env : Env)
    (restored : option (list (string * SubagentRunRecord))) : M unit :=
  let* attempted := gets restoreAttempted in
  if attempted then ret tt
  else
    modify (with_restoreAttempted true);;
    match restored with
    | None => ret tt (* ignore restore failures *)
    | Some [] => ret tt
    | Some entries =>
        forEach entries (fun kv =>
          let* present := gets (fun st => bool_decide (is_Some (subagentRuns st !! kv.1))) in
          (* Keep any newer in-memory entries. *)
          if (negb (truthyStr kv.1) || present)%bool then ret tt
          else
            let* l := alloc kv.2 in
            modify (fun st => with_subagentRuns (<[kv.1 := l]> (subagentRuns st)) st));;
        (* Resume pending work. *)
        ensureListener;;
        let* archived := gets (fun st =>
          existsb (fun kv : string * loc =>
                     match heap st !! kv.2 with
                     | Some entry => truthyNum (archiveAtMs entry)
                     | None => false
                     end)
                  (map_to_list (subagentRuns st))) in
        when archived startSweeper;;
        let* keys := gets (fun st => (map_to_list (subagentRuns st)).*1) in
        forEach keys (resumeSubagentRun env)
    end.

(** ** Turns *)

(** What can happen to the registry: a call of its interface, an event of
    the bus, the sweeper's tick, or the settlement of the [i]-th pending
    [await]. *)
Inductive Event :=
| RegisterRun (params : Params.t)
| InitRegistry (restored : option (list (string * SubagentRunRecord)))
| AgentEvent (evt : Evt.t)
| Settle (i : nat) (r : Settled)
| SweepTick
| ReleaseRun (runId : string)
| ResetRegistry
| RegisterHook (name : string) (hook : HookId)
| UnregisterHook (name : string).

(** The continuation of a suspended task, when [r] is an answer to what the
    task awaits. *)
Definition resume (env : Env) (t : Task) (r : Settled) : option (M unit) :=
  match t, r with
  | TWait runId _, WaitResolved reply =>
      Some (waitForSubagentCompletion_reply env runId reply)
  | TWait _ _, WaitRejected => Some (ret tt) (* catch { /* ignore */ } *)
  | TAnnounce runId l _, AnnounceResolved didAnnounce =>
      Some (announceSettled env runId l didAnnounce)
  | TAnnounce _ _ _, AnnounceRejected => Some (ret tt) (* no rejection handler *)
  | TRetryDelay l retryCount _ key, TimerFired =>
      Some (scheduleTaskRetry_afterDelay env l retryCount key)
  | TRetryStart l _ key, StartResolved =>
      Some (scheduleTaskRetry_afterStart env l true key)
  | TRetryStart l _ key, StartRejected =>
      Some (scheduleTaskRetry_afterStart env l false key)
  | TVerifyHook l config _ evtRunId, HookResolved result =>
      Some (verificationSettled env l config evtRunId (hookVerdict (inl result)))
  | TVerifyHook l config _ evtRunId, HookRejected msg =>
      Some (verificationSettled env l config evtRunId (hookVerdict (inr msg)))
  | TVerifyAgent l config _ evtRunId, QueryResolved reply =>
      Some (verificationSettled env l config evtRunId (agentVerdict (inl reply)))
  | TVerifyAgent l config _ evtRunId, QueryRejected msg =>
      Some (verificationSettled env l config evtRunId (agentVerdict (inr msg)))
  | _, _ => None
  end.

(** One turn. *)
Definition step (env : Env) (ev : Event) : M unit :=
  match ev with
  | RegisterRun params => registerSubagentRun env params
  | InitRegistry restored => restoreSubagentRunsOnce env restored
  | AgentEvent evt =>
      let* subscribed := gets listenerStarted in
      when subscribed (onLifecycleEvent env evt)
  | Settle i r =>
      let* t := gets (fun st => tasks st !! i) in
      match t with
      | None => ret tt
      | Some t =>
          match resume env t r with
          | None => ret tt
          | Some k =>
              modify (fun st => with_tasks (delete i (tasks st)) st);;
              k
          end
      end
  | SweepTick =>
      let* armed := gets sweeper in
      when armed (sweepSubagentRuns env)
  | ReleaseRun runId => releaseSubagentRun runId
  | ResetRegistry => resetSubagentRegistryForTests
  | RegisterHook name hook => registerVerificationHook name hook
  | UnregisterHook name => unregisterVerificationHook name;; ret tt
  end.

(** A run of the registry: the turns of a trace, one after the other. *)
Definition run (trace : list (Env * Event)) (st : State) : State :=
  fold_left (fun s ee => exec (step ee.1 ee.2) s) trace st.

(** ** Specification vocabulary *)

(** The store that a call of [persistSubagentRuns] leaves behind. *)
Definition storeAfterPersist (st : State) : Store :=
  match faults (store st) with
  | true :: rest => {| file := file (store st); faults := rest |}
  | false :: rest => {| file := Some (snapshot st); faults := rest |}
  | [] => {| file := Some (snapshot st); faults := [] |}
  end.

(** The in-memory state after a persist was triggered on [st]. *)
Definition persisted (st : State) : State := with_store (storeAfterPersist st) st.

(** Weakest precondition of a computation that must not throw. *)
Definition wp {A : Type} (m : M A) (Q : A -> State -> Prop) (st : State) : Prop :=
  match m st with
  | (Normal a, st') => Q a st'
  | (Thrown _, _) => False
  end.

(** A computation is oblivious to the store when it neither throws nor lets
    the store (registry file and pending disk faults) influence its result
    or the rest of the state. *)
Definition oblivious {A : Type} (m : M A) : Prop :=
  forall (st : State) (s : Store),
    exists (a : A) (st' : State) (s' : Store),
      m st = (Normal a, st') /\ m (with_store s st) = (Normal a, with_store s' st').

(** Everything of the state except the store. *)
Definition memory (st : State) : State := with_store {| file := None; faults := [] |} st.

(** The retry policy of a record is consistent: its [maxRetries] is the one
    of its configuration snapshot and bounds its [retryCount]. *)
Definition policyOk (e : SubagentRunRecord) : Prop :=
  exists m : Z,
    maxRetries e = Some m /\
    orchestrationConfig e ≫= Partial.maxRetries = Some m /\
    retryCount e ?? 0 <= m.

Definition policyOkb (e : SubagentRunRecord) : bool :=
  match maxRetries e, orchestrationConfig e ≫= Partial.maxRetries with
  | Some m, Some m' => ((m =? m') && (retryCount e ?? 0 <=? m))%bool
  | _, _ => false
  end.

(** The policy that a suspended verification captured is the one of the
    record it verifies. *)
Definition policyFor (h : list SubagentRunRecord) (l : loc) (config : Resolved.t) : Prop :=
  exists e, h !! l = Some e /\ maxRetries e = Some (Resolved.maxRetries config).

Definition taskOk (h : list SubagentRunRecord) (t : Task) : Prop :=
  match t with
  | TVerifyHook l config _ _ => policyFor h l config
  | TVerifyAgent l config _ _ => policyFor h l config
  | _ => True
  end.

Definition wellFormed (st : State) : Prop :=
  Forall policyOk (heap st) /\ Forall (taskOk (heap st)) (tasks st).

(** Objects are never freed and their [maxRetries] never changes. *)
Definition extends (st st' : State) : Prop :=
  forall l e, heap st !! l = Some e ->
    exists e', heap st' !! l = Some e' /\ maxRetries e' = maxRetries e.

(** Inputs that respect the data model: a registration whose effective
    [maxRetries] is not negative, a snapshot whose records have a consistent
    retry policy. *)
Definition inputOk (env : Env) (ev : Event) : bool :=
  match ev with
  | RegisterRun params =>
      0 <=? Resolved.maxRetries
              (resolveOrchestrationConfig (loadConfig env) (Params.orchestrationConfig params))
  | InitRegistry (Some entries) => forallb (fun kv => policyOkb kv.2) entries
  | _ => true
  end.

(** A field assignment that leaves the retry policy and counter alone. *)
Definition benign (f : SubagentRunRecord -> SubagentRunRecord) : Prop :=
  forall e,
    maxRetries (f e) = maxRetries e /\
    orchestrationConfig (f e) = orchestrationConfig e /\
    retryCount (f e) = retryCount e.

(** [st] is well formed and extends [st0]. *)
Definition good (st0 st : State) : Prop := wellFormed st /\ extends st0 st.

(** [R l e0 e] relates the record that location [l] held in an earlier state
    to the one it holds now; [G] relates the rest of the two states. *)
Definition framed (R : loc -> SubagentRunRecord -> SubagentRunRecord -> Prop)
    (G : State -> State -> Prop) (st0 S : State) : Prop :=
  (forall l e0, heap st0 !! l = Some e0 -> exists e, heap S !! l = Some e /\ R l e0 e) /\
  G st0 S.

(** The cleanup of a record is complete. *)
Definition completed (e : SubagentRunRecord) : bool := truthyNum (cleanupCompletedAt e).

(** What a record is registered with. *)
Definition identity (e : SubagentRunRecord) :=
  (runId e, childSessionKey e, requesterSessionKey e, requesterOrigin e,
   requesterDisplayKey e, task e, cleanup e, label e, createdAt e, archiveAtMs e,
   maxRetries e, originalRunId e, orchestrationConfig e).

(** The bookkeeping of the cleanup guard. *)
Definition cleanupState (e : SubagentRunRecord) := (cleanupCompletedAt e, cleanupHandled e).

(** A record keeps its identity, and its cleanup bookkeeping once its
    cleanup is complete. *)
Definition settledR (l : loc) (e0 e : SubagentRunRecord) : Prop :=
  identity e = identity e0 /\ (completed e0 = true -> cleanupState e = cleanupState e0).

Definition notCompletedIn (st : State) (r : string) : Prop :=
  forall l e, getRun st r = Some (l, e) -> completed e = false.

(** An announce is only started for a run whose cleanup is not complete. *)
Definition announceOk (st0 : State) (t : Task) : Prop :=
  match t with
  | TAnnounce r _ _ => notCompletedIn st0 r
  | _ => True
  end.

(** The registry is the same and the new tasks are in order. *)
Definition settledG (st0 S : State) : Prop :=
  subagentRuns S = subagentRuns st0 /\
  exists ts, tasks S = (tasks st0 ++ ts)%list /\ Forall (announceOk st0) ts.

(** [n] successive calls of [scheduleTaskRetry] for the same record. *)
Fixpoint scheduleRetries (env : Env) (l : loc) (config : Resolved.t) (key : string)
    (n : nat) : M unit :=
  match n with
  | O => ret tt
  | S n' => scheduleTaskRetry env l config key;; scheduleRetries env l config key n'
  end.

(** The back-off delays of the retries that wait for their timer. *)
Definition retryDelays (ts : list Task) : list Q :=
  omap (fun t => match t with TRetryDelay _ _ d _ => Some d | _ => None end) ts.

(** The announce flows in flight for a run. *)
Definition announcesInFlight (st : State) (r : string) : nat :=
  length (List.filter (fun t => match t with
                                | TAnnounce r' _ _ => String.eqb r' r
                                | _ => false
                                end) (tasks st)).

(** A finalisation: the announce flow settles and [finalizeSubagentCleanup]
    runs. *)
Definition isFinalisation (ev : Event) : bool :=
  match ev with
  | Settle _ (AnnounceResolved _) => true
  | _ => false
  end.

(** ** Scenarios *)

Definition envAt (t : Z) : Env :=
  {| now := t;
     loadConfig := Config.mk None None;
     resolveAgentTimeoutMs := fun _ _ => 600000 |}.

Definition paramsFor (c : CleanupPolicy) (o : option Partial.t) : Params.t :=
  Params.mk "run-1" "agent:main:subagent:child" "agent:main:main" None "main"
    "do it" c None None o.

(** [retryOnFailure=true, maxRetries=2, initialDelayMs=10, backoffMultiplier=2] *)
Definition retryPolicy : Partial.t :=
  Partial.mk (Some true) (Some 2) (Some (2 # 1)) (Some (10 # 1)) None None None None None None.

(** [verifyCompletion=true, verificationHook="check"] *)
Definition hookPolicy : Partial.t :=
  Partial.mk None None None None None (Some true) None None None (Some "check").

Definition lifecycle (phase : string) (startedAt endedAt : option Z)
    (error : option string) : Evt.t :=
  Evt.mk "lifecycle" "run-1" (Some (Evt.mkData (Some phase) startedAt endedAt error)).

Definition waitReply (status : string) (error : option string) : Settled :=
  WaitResolved (Some (Wait.mk (Some status) None None error)).

(** A run with a retry policy, just registered. *)
Definition retryRunRegistered : State :=
  run [(envAt 50, RegisterRun (paramsFor CleanupKeep (Some retryPolicy)))] (initialState []).

(** The prober learns of the failure. *)
Definition failureSeenByProber : State :=
  run [(envAt 200, Settle 0 (waitReply "error" (Some "boom")))] retryRunRegistered.

(** The listener learns of the same failure. *)
Definition failureSeenByListener : State :=
  run [(envAt 200, AgentEvent (lifecycle "error" None (Some 200) (Some "boom")))]
    retryRunRegistered.

(** Prober and listener both see the failure of the first attempt; the retry
    is spawned and its prober reports success while the first announce is
    still in flight. *)
Definition racingSignals : list (Env * Event) :=
  [ (envAt 50, RegisterRun (paramsFor CleanupKeep (Some retryPolicy)));
    (envAt 200, Settle 0 (waitReply "error" (Some "boom")));
    (envAt 201, AgentEvent (lifecycle "error" None (Some 200) (Some "boom")));
    (envAt 211, Settle 1 TimerFired);
    (envAt 212, Settle 1 StartResolved);
    (envAt 300, Settle 1 (waitReply "ok" None)) ].

(** A kept run that ended, was announced and finalised; then an [error]
    event for it arrives. *)
Definition lateEvent : list (Env * Event) :=
  [ (envAt 50, RegisterRun (paramsFor CleanupKeep None));
    (envAt 200, AgentEvent (lifecycle "end" None (Some 200) None));
    (envAt 210, Settle 1 (AnnounceResolved true)) ].

Definition afterCleanup : State := run lateEvent (initialState []).

Definition afterLateEvent : State :=
  run [(envAt 999, AgentEvent (lifecycle "error" None (Some 999) (Some "late")))] afterCleanup.

(** A run verified by a hook that nobody registered. *)
Definition missingHook : list (Env * Event) :=
  [ (envAt 50, RegisterRun (paramsFor CleanupKeep (Some hookPolicy)));
    (envAt 200, AgentEvent (lifecycle "end" None (Some 200) None)) ].

(** No retry is scheduled: counters, pending set and timers are as before. *)
Definition noRetryR (l : loc) (e0 e : SubagentRunRecord) : Prop :=
  retryCount e = retryCount e0.

Definition noRetryG (st0 S : State) : Prop :=
  pendingRetries S = pendingRetries st0 /\
  retryDelays (tasks S) = retryDelays (tasks st0).

Definition blankRecord : SubagentRunRecord :=
  mkRecord "" "" "" None "" "" CleanupKeep None 0 None None None None None None None None
    None None None None None None.

(** The records that these scenarios leave in the registry. *)
Definition registeredRecord : SubagentRunRecord :=
  Eval vm_compute in (recordOf retryRunRegistered "run-1" ?? blankRecord).

Definition recordAfterCleanup : SubagentRunRecord :=
  Eval vm_compute in (recordOf afterCleanup "run-1" ?? blankRecord).

Definition missingHookState : State := run missingHook (initialState []).

(** The run of [missingHook] just before its [end] event is handled. *)
Definition hookRunRegistered : State :=
  run [(envAt 50, RegisterRun (paramsFor CleanupKeep (Some hookPolicy)))] (initialState []).

(** The record of that run once the listener has written the outcome. *)
Definition hookRunEndedRecord : SubagentRunRecord :=
  Eval vm_compute in
    (set_outcome (Some {| status := StatusOk; error := None |})
       (set_endedAt (Some 200) (recordOf hookRunRegistered "run-1" ?? blankRecord))).

Definition hookRunEnded : State :=
  with_heap [hookRunEndedRecord] hookRunRegistered.

(** No retry is scheduled and the outcome stands. *)
Definition quietR (l : loc) (e0 e : SubagentRunRecord) : Prop :=
  retryCount e = retryCount e0 /\ outcome e = outcome e0.

(** The listener schedules a retry for the record at [l]: the counter is
    incremented, the run is marked as pending and the back-off timer runs. *)
Definition retryScheduled (env : Env) (st st' : State) (l : loc) (e : SubagentRunRecord)
    (config : Resolved.t) (key : string) : Prop :=
  let k := retryCount e ?? 0 in
  tasks st' = (tasks st ++ [TRetryDelay l (k + 1) (calculateRetryDelay k config) key])%list /\
  (retryCount <$> heap st' !! l) = Some (Some (k + 1)) /\
  pendingRetries st' = {[key]} ∪ pendingRetries st.

(** No retry is scheduled: timers, pending set and the counter of the record
    at [l] are as before. *)
Definition noRetryScheduled (st st' : State) (l : loc) (e : SubagentRunRecord) : Prop :=
  retryDelays (tasks st') = retryDelays (tasks st) /\
  pendingRetries st' = pendingRetries st /\
  (retryCount <$> heap st' !! l) = Some (retryCount e).

(** The cleanup guard of a record is closed: its cleanup is complete or
    under way. *)
Definition closed (e : SubagentRunRecord) : bool :=
  (truthyNum (cleanupCompletedAt e) || truthyBool (cleanupHandled e))%bool.

(** The record at [lr] stays closed once it is. *)
Definition closedR (lr l : loc) (e0 e : SubagentRunRecord) : Prop :=
  l = lr -> closed e0 = true -> closed e = true.

(** The run [r] is gone, or registered at [lr] as it was. *)
Definition closedG (r : string) (lr : loc) (st0 S : State) : Prop :=
  subagentRuns S !! r = None \/
  (subagentRuns S !! r = Some lr /\ subagentRuns st0 !! r = Some lr).

(** The turns that can open the cleanup guard of the run registered as [r]
    at [lr] again: a new registration of [r]; a restore while [r] is not
    registered; the finalisation of an announce for it that failed; the end
    of the back-off delay of a retry for it. *)
Definition reopens (st : State) (ev : Event) (r : string) (lr : loc) : bool :=
  match ev with
  | RegisterRun params => String.eqb (Params.runId params) r
  | InitRegistry _ => bool_decide (subagentRuns st !! r = None)
  | Settle i (AnnounceResolved false) =>
      match tasks st !! i with
      | Some (TAnnounce r' _ _) => bool_decide (subagentRuns st !! r' = Some lr)
      | _ => false
      end
  | Settle i TimerFired =>
      match tasks st !! i with
      | Some (TRetryDelay l' _ _ _) =>
          match heap st !! l' with
          | Some e' => bool_decide (subagentRuns st !! runId e' = Some lr)
          | None => false
          end
      | _ => false
      end
  | _ => false
  end.

(** No turn of the trace is one that can open the guard of [r] again, and
    the clock never reads 0. *)
Fixpoint noReopening (trace : list (Env * Event)) (st : State) (r : string) (lr : loc)
  : bool :=
  match trace with
  | [] => true
  | ee :: rest =>
      (negb (now ee.1 =? 0) && negb (reopens st ee.2 r lr)
       && noReopening rest (exec (step ee.1 ee.2) st) r lr)%bool
  end.

(** If [r] is registered, then at [lr] and with its guard closed. *)
Definition closedAt (st : State) (r : string) (lr : loc) : Prop :=
  forall l, subagentRuns st !! r = Some l ->
    l = lr /\ exists e, heap st !! lr = Some e /\ closed e = true.

(** After cleanup was begun for the run: the listener learns of a failure,
    the sweeper ticks and the prober gets its reply; the retry's timer has
    not fired. *)
Definition quietTurns : list (Env * Event) :=
  [ (envAt 201, AgentEvent (lifecycle "error" None (Some 200) (Some "boom")));
    (envAt 202, SweepTick);
    (envAt 203, Settle 0 (waitReply "error" (Some "boom"))) ].

(** ** What every turn preserves *)

(** A record object keeps what it was registered with, and its retry
    counter does not go down; with a clock that does not read 0
    ([clockOk]), its cleanup stays complete once it is. *)
Definition keptR (clockOk : bool) (l : loc) (e0 e : SubagentRunRecord) : Prop :=
  identity e = identity e0 /\
  retryCount e0 ?? 0 <= retryCount e ?? 0 /\
  (clockOk = true -> completed e0 = true -> completed e = true).

(** Unless the turn may add runs ([mayAdd]), every run id that is registered
    was registered before, with the same record object. *)
Definition keptG (mayAdd : bool) (st0 S : State) : Prop :=
  mayAdd = false -> subagentRuns S ⊆ subagentRuns st0.

(** The turns that put entries into the registry. *)
Definition adds (ev : Event) : bool :=
  match ev with
  | RegisterRun _ | InitRegistry _ => true
  | _ => false
  end.

(** ** Write-through *)

(** The disk takes every save, and the registry file holds what is in
    memory. *)
Definition saved (st : State) : Prop :=
  faults (store st) = [] /\ file (store st) = Some (snapshot st).

(** The turns in which every change of the registry is saved before the
    turn ends.  The restore adds what it read without saving, and the
    sweeper saves after the gateway calls it waits for. *)
Definition writesThrough (ev : Event) : bool :=
  match ev with
  | InitRegistry _ | SweepTick => false
  | _ => true
  end.

(** ** Restore *)

(** Nothing is said about the record objects. *)
Definition anyR (l : loc) (e0 e : SubagentRunRecord) : Prop := True.

(** The registry keeps its entries, and the restore stays attempted. *)
Definition grownG (st0 S : State) : Prop :=
  subagentRuns st0 ⊆ subagentRuns S /\ restoreAttempted S = restoreAttempted st0.

(** The body of the first loop of [restoreSubagentRunsOnce]. *)
Definition restoreEntry (kv : string * SubagentRunRecord) : M unit :=
  let* present := gets (fun st => bool_decide (is_Some (subagentRuns st !! kv.1))) in
  if (negb (truthyStr kv.1) || present)%bool then ret tt
  else
    let* l := alloc kv.2 in
    modify (fun st => with_subagentRuns (<[kv.1 := l]> (subagentRuns st)) st).

(** ** Pending retries *)

(** The run id under which a suspended [scheduleTaskRetry] is marked as
    pending. *)
Definition retryKey (t : Task) : option string :=
  match t with
  | TRetryDelay _ _ _ k => Some k
  | TRetryStart _ _ k => Some k
  | _ => None
  end.

Definition retryKeys (ts : list Task) : list string := omap retryKey ts.

(** Every run id marked in [pendingRetries], [except] at most one, has a
    [scheduleTaskRetry] in flight that carries it. *)
Definition marksCovered (except : option string) (S : State) : Prop :=
  forall k, k ∈ pendingRetries S -> Some k = except \/ k ∈ retryKeys (tasks S).

Definition coveredG (except : option string) (st0 S : State) : Prop :=
  marksCovered except S.

(** The record of [failureSeenByListener]: the failure is recorded and the
    first retry is scheduled. *)
Definition retriedRecord : SubagentRunRecord :=
  Eval vm_compute in (recordOf failureSeenByListener "run-1" ?? blankRecord).

(** ** Pending verifications *)

(** The run id under which a suspended verification is marked as pending. *)
Definition verifyKey (t : Task) : option string :=
  match t with
  | TVerifyHook _ _ _ r => Some r
  | TVerifyAgent _ _ _ r => Some r
  | _ => None
  end.

Definition verifyKeys (ts : list Task) : list string := omap verifyKey ts.

(** Every run id marked in [pendingVerifications], [except] at most one,
    has a verification in flight that carries it. *)
Definition verificationsCovered (except : option string) (S : State) : Prop :=
  forall k, k ∈ pendingVerifications S -> Some k = except \/ k ∈ verifyKeys (tasks S).

Definition checkedG (except : option string) (st0 S : State) : Prop :=
  verificationsCovered except S.

(** A run verified by a registered hook: the hook has not answered yet. *)
Definition hookedRun : list (Env * Event) :=
  [ (envAt 10, RegisterHook "check" 7%nat);
    (envAt 50, RegisterRun (paramsFor CleanupKeep (Some hookPolicy)));
    (envAt 200, AgentEvent (lifecycle "end" None (Some 200) None)) ].

(** No announce flow was added for the run [r], whose guard was closed at
    [lr] in [st0] unless it was not registered. *)
Definition announcedG (r : string) (lr : loc) (st0 S : State) : Prop :=
  closedG r lr st0 S /\
  (announcesInFlight S r <= announcesInFlight st0 r)%nat /\
  closedAt st0 r lr.

(** A task that is no announce flow for [r]. *)
Definition otherTask (r : string) (t : Task) : Prop :=
  match t with
  | TAnnounce r' _ _ => r' <> r
  | _ => True
  end.

(** A kept run that ended: the announce flow is in flight, the prober has
    not had its reply. *)
Definition announceStarted : State :=
  run [ (envAt 50, RegisterRun (paramsFor CleanupKeep None));
        (envAt 200, AgentEvent (lifecycle "end" None (Some 200) None)) ] (initialState []).

(** ** Running computations *)

Lemma persist_run (st : State) :
  persistSubagentRuns st = (Normal tt, persisted st).
Proof.
  unfold persistSubagentRuns, try_catch, saveSubagentRegistryToDisk, persisted,
    storeAfterPersist.
  destruct (faults (store st)) as [|[] rest]; reflexivity.
Qed.

Lemma getRun_persisted (st : State) (r : string) : getRun (persisted st) r = getRun st r.
Proof. reflexivity. Qed.

Lemma getRun_alter (st : State) (r : string) (l : loc) (e : SubagentRunRecord)
    (f : SubagentRunRecord -> SubagentRunRecord) :
  getRun st r = Some (l, e) ->
  getRun (with_heap (alter f l (heap st)) st) r = Some (l, f e).
Proof.
  unfold getRun. simpl. destruct (subagentRuns st !! r) as [l'|]; [|discriminate].
  destruct (heap st !! l') as [e'|] eqn:He; [|discriminate].
  intros [= -> ->]. rewrite list_lookup_alter_eq, He. reflexivity.
Qed.

Lemma getRun_Some (st : State) (r : string) (l : loc) (e : SubagentRunRecord) :
  getRun st r = Some (l, e) <-> subagentRuns st !! r = Some l /\ heap st !! l = Some e.
Proof.
  unfold getRun. split.
  - destruct (subagentRuns st !! r) as [l'|]; [|discriminate].
    destruct (heap st !! l') as [e'|] eqn:He; [|discriminate].
    intros [= -> ->]. auto.
  - intros [-> ->]. reflexivity.
Qed.

(** C7 *)
Theorem finalizeSubagentCleanup_cases (env : Env) (st : State) (runId : string)
    (l : loc) (entry : SubagentRunRecord) (cleanup : CleanupPolicy) (didAnnounce : bool) :
  getRun st runId = Some (l, entry) ->
  let st' := exec (finalizeSubagentCleanup env runId cleanup didAnnounce) st in
  completion (finalizeSubagentCleanup env runId cleanup didAnnounce) st = Normal tt /\
  match cleanup, didAnnounce with
  | CleanupDelete, _ =>
      st' = persisted (with_subagentRuns (delete runId (subagentRuns st)) st) /\
      recordOf st' runId = None
  | CleanupKeep, false =>
      st' = persisted (with_heap (alter (set_cleanupHandled (Some false)) l (heap st)) st) /\
      recordOf st' runId = Some (set_cleanupHandled (Some false) entry) /\
      (cleanupHandled <$> recordOf st' runId) = Some (Some false) /\
      (cleanupCompletedAt <$> recordOf st' runId) = Some (cleanupCompletedAt entry)
  | CleanupKeep, true =>
      st' = persisted (with_heap (alter (set_cleanupCompletedAt (Some (now env))) l (heap st)) st) /\
      recordOf st' runId = Some (set_cleanupCompletedAt (Some (now env)) entry) /\
      (cleanupCompletedAt <$> recordOf st' runId) = Some (Some (now env))
  end.
Proof.
  intros Hrun.
  unfold exec, completion, finalizeSubagentCleanup, bind, gets, modify, mutate. simpl.
  rewrite Hrun. simpl.
  destruct cleanup; [|destruct didAnnounce]; simpl; rewrite persist_run; simpl.
  - split; [reflexivity|]. split; [reflexivity|].
    unfold recordOf, getRun. simpl. rewrite lookup_delete_eq. reflexivity.
  - split; [reflexivity|]. split; [reflexivity|].
    unfold recordOf. rewrite getRun_persisted, (getRun_alter _ _ _ _ _ Hrun). auto.
  - split; [reflexivity|]. split; [reflexivity|].
    unfold recordOf. rewrite getRun_persisted, (getRun_alter _ _ _ _ _ Hrun). auto.
Qed.

(** ** Store-obliviousness of the registry operations *)

Section Oblivious.
Context {A B : Type}.

Lemma oblivious_ret (a : A) : oblivious (ret a).
Proof. intros st s. exists a, st, s. split; reflexivity. Qed.

Lemma oblivious_bind (m : M A) (k : A -> M B) :
  oblivious m -> (forall a, oblivious (k a)) -> oblivious (bind m k).
Proof.
  intros Hm Hk st s. unfold bind.
  destruct (Hm st s) as (a & st1 & s1 & -> & ->).
  destruct (Hk a st1 s1) as (b & st2 & s2 & -> & ->).
  exists b, st2, s2. split; reflexivity.
Qed.

Lemma oblivious_gets (f : State -> A) :
  (forall st s, f (with_store s st) = f st) -> oblivious (gets f).
Proof.
  intros Hf st s. exists (f st), st, s. unfold gets. rewrite Hf. split; reflexivity.
Qed.

Lemma oblivious_withEntryOr (d : M A) (l : loc) (k : SubagentRunRecord -> M A) :
  oblivious d -> (forall e, oblivious (k e)) -> oblivious (withEntryOr d l k).
Proof.
  intros Hd Hk st s. unfold withEntryOr. simpl.
  destruct (heap st !! l) as [e|]; [apply Hk | apply Hd].
Qed.
End Oblivious.

Lemma oblivious_modify (f : State -> State) :
  (forall st s, f (with_store s st) = with_store s (f st)) -> oblivious (modify f).
Proof.
  intros Hf st s. exists tt, (f st), s. unfold modify. rewrite Hf. split; reflexivity.
Qed.

Lemma oblivious_persist : oblivious persistSubagentRuns.
Proof.
  intros st s. exists tt, (persisted st), (storeAfterPersist (with_store s st)).
  rewrite !persist_run. split; reflexivity.
Qed.

Lemma oblivious_alloc (e : SubagentRunRecord) : oblivious (alloc e).
Proof.
  intros st s. exists (length (heap st)), (with_heap (heap st ++ [e]) st), s.
  split; reflexivity.
Qed.

Lemma oblivious_forEach {A : Type} (xs : list A) (f : A -> M unit) :
  (forall x, oblivious (f x)) -> oblivious (forEach xs f).
Proof.
  intros Hf. induction xs as [|x xs IH]; simpl.
  - apply oblivious_ret.
  - apply oblivious_bind; [apply Hf | intros _; apply IH].
Qed.

Create HintDb obl discriminated.

#[local] Hint Resolve oblivious_ret oblivious_persist oblivious_alloc : obl.

(** Decompose a computation along its binds and case distinctions. *)
Ltac obl :=
  repeat first
    [ apply oblivious_ret
    | apply oblivious_persist
    | apply oblivious_alloc
    | apply oblivious_gets; reflexivity
    | apply oblivious_modify; reflexivity
    | apply oblivious_bind; [|intros ?]
    | apply oblivious_withEntryOr; [|intros ?]
    | apply oblivious_forEach; intros ?
    | solve [eauto with obl]
    | match goal with
      | |- oblivious (match ?x with _ => _ end) => destruct x
      | |- oblivious (when ?b _) => destruct b; unfold when
      end ].

Lemma oblivious_mutate (l : loc) (f : SubagentRunRecord -> SubagentRunRecord) :
  oblivious (mutate l f).
Proof. unfold mutate. obl. Qed.

Lemma oblivious_spawn (t : Task) : oblivious (spawn t).
Proof. unfold spawn. obl. Qed.

#[local] Hint Resolve oblivious_mutate oblivious_spawn : obl.

Lemma oblivious_beginSubagentCleanup (runId : string) :
  oblivious (beginSubagentCleanup runId).
Proof. unfold beginSubagentCleanup. obl. Qed.

#[local] Hint Resolve oblivious_beginSubagentCleanup : obl.

Lemma oblivious_finalizeSubagentCleanup env runId cleanup didAnnounce :
  oblivious (finalizeSubagentCleanup env runId cleanup didAnnounce).
Proof. unfold finalizeSubagentCleanup. obl. Qed.

Lemma oblivious_startAnnounce runId l : oblivious (startAnnounce runId l).
Proof. unfold startAnnounce, withEntry. obl. Qed.

#[local] Hint Resolve oblivious_finalizeSubagentCleanup oblivious_startAnnounce : obl.

Lemma oblivious_proceedWithCleanup runId l : oblivious (proceedWithCleanup runId l).
Proof. unfold proceedWithCleanup. obl. Qed.

Lemma oblivious_waitForSubagentCompletion runId t :
  oblivious (waitForSubagentCompletion runId t).
Proof. unfold waitForSubagentCompletion. obl. Qed.

#[local] Hint Resolve oblivious_proceedWithCleanup oblivious_waitForSubagentCompletion : obl.

Lemma oblivious_waitForSubagentCompletion_reply env runId wait :
  oblivious (waitForSubagentCompletion_reply env runId wait).
Proof. unfold waitForSubagentCompletion_reply, withEntry. obl. Qed.

Lemma oblivious_retrySettled key : oblivious (retrySettled key).
Proof. unfold retrySettled. obl. Qed.

#[local] Hint Resolve oblivious_waitForSubagentCompletion_reply oblivious_retrySettled : obl.

Lemma oblivious_scheduleTaskRetry env l config key :
  oblivious (scheduleTaskRetry env l config key).
Proof. unfold scheduleTaskRetry, withEntry. obl. Qed.

Lemma oblivious_scheduleTaskRetry_afterDelay env l n key :
  oblivious (scheduleTaskRetry_afterDelay env l n key).
Proof. unfold scheduleTaskRetry_afterDelay. obl. Qed.

Lemma oblivious_scheduleTaskRetry_afterStart env l b key :
  oblivious (scheduleTaskRetry_afterStart env l b key).
Proof. unfold scheduleTaskRetry_afterStart, withEntry. obl. Qed.

#[local] Hint Resolve oblivious_scheduleTaskRetry oblivious_scheduleTaskRetry_afterDelay
  oblivious_scheduleTaskRetry_afterStart : obl.

Lemma oblivious_verifyTaskCompletion l config : oblivious (verifyTaskCompletion l config).
Proof. unfold verifyTaskCompletion. obl. Qed.

Lemma oblivious_handleTaskCompletion_verdict env l config r :
  oblivious (handleTaskCompletion_verdict env l config r).
Proof. unfold handleTaskCompletion_verdict, withEntry. obl. Qed.

Lemma oblivious_taskCompletionHandled r l : oblivious (taskCompletionHandled r l).
Proof. unfold taskCompletionHandled, withEntry. obl. Qed.

#[local] Hint Resolve oblivious_verifyTaskCompletion oblivious_handleTaskCompletion_verdict
  oblivious_taskCompletionHandled : obl.

Lemma oblivious_handleTaskCompletion env l config r :
  oblivious (handleTaskCompletion env l config r).
Proof. unfold handleTaskCompletion, withEntry. obl. Qed.

Lemma oblivious_verificationSettled env l config r v :
  oblivious (verificationSettled env l config r v).
Proof. unfold verificationSettled. obl. Qed.

#[local] Hint Resolve oblivious_handleTaskCompletion oblivious_verificationSettled : obl.

Lemma oblivious_onLifecycleEvent env evt : oblivious (onLifecycleEvent env evt).
Proof. unfold onLifecycleEvent, withEntry. obl. Qed.

Lemma oblivious_ensureListener : oblivious ensureListener.
Proof. unfold ensureListener. obl. Qed.

Lemma oblivious_startSweeper : oblivious startSweeper.
Proof. unfold startSweeper. obl. Qed.

Lemma oblivious_stopSweeper : oblivious stopSweeper.
Proof. unfold stopSweeper. obl. Qed.

#[local] Hint Resolve oblivious_onLifecycleEvent oblivious_ensureListener
  oblivious_startSweeper oblivious_stopSweeper : obl.

Lemma oblivious_sweepSubagentRuns env : oblivious (sweepSubagentRuns env).
Proof. unfold sweepSubagentRuns. obl. Qed.

Lemma oblivious_registerSubagentRun env params : oblivious (registerSubagentRun env params).
Proof. unfold registerSubagentRun. obl. Qed.

Lemma oblivious_releaseSubagentRun runId : oblivious (releaseSubagentRun runId).
Proof. unfold releaseSubagentRun. obl. Qed.

Lemma oblivious_resetSubagentRegistryForTests : oblivious resetSubagentRegistryForTests.
Proof. unfold resetSubagentRegistryForTests. obl. Qed.

Lemma oblivious_resumeSubagentRun env runId : oblivious (resumeSubagentRun env runId).
Proof. unfold resumeSubagentRun. obl. Qed.

#[local] Hint Resolve oblivious_sweepSubagentRuns oblivious_registerSubagentRun
  oblivious_releaseSubagentRun oblivious_resetSubagentRegistryForTests
  oblivious_resumeSubagentRun : obl.

Lemma oblivious_restoreSubagentRunsOnce env restored :
  oblivious (restoreSubagentRunsOnce env restored).
Proof. unfold restoreSubagentRunsOnce. obl. Qed.

Lemma oblivious_resume env t r k : resume env t r = Some k -> oblivious k.
Proof.
  destruct t, r; simpl; intros [= <-]; unfold announceSettled, withEntry; obl.
Qed.

Lemma oblivious_step env ev : oblivious (step env ev).
Proof.
  destruct ev; simpl.
  - apply oblivious_registerSubagentRun.
  - apply oblivious_restoreSubagentRunsOnce.
  - obl.
  - apply oblivious_bind; [obl|]. intros [t|]; [|obl].
    destruct (resume env t r) as [k|] eqn:Hk; [|obl].
    apply oblivious_bind; [obl|]. intros _. eapply oblivious_resume; eassumption.
  - obl.
  - apply oblivious_releaseSubagentRun.
  - apply oblivious_resetSubagentRegistryForTests.
  - unfold registerVerificationHook. obl.
  - unfold unregisterVerificationHook. obl.
Qed.

Lemma memory_with_store (s : Store) (st : State) : memory (with_store s st) = memory st.
Proof. reflexivity. Qed.

Lemma oblivious_run (trace : list (Env * Event)) (st : State) (s : Store) :
  memory (run trace (with_store s st)) = memory (run trace st).
Proof.
  revert st s. induction trace as [|[env ev] trace IH]; intros st s; simpl.
  - reflexivity.
  - unfold exec. destruct (oblivious_step env ev st s) as (a & st' & s' & -> & ->).
    simpl. apply IH.
Qed.

(** C9 *)
Theorem persistence_failures_do_not_propagate (env : Env) (ev : Event)
    (trace : list (Env * Event)) (st : State) (s : Store) :
  completion (step env ev) (with_store s st) = Normal tt /\
  memory (exec (step env ev) (with_store s st)) = memory (exec (step env ev) st) /\
  memory (run trace (with_store s st)) = memory (run trace st).
Proof.
  unfold completion, exec.
  destruct (oblivious_step env ev st s) as ([] & st' & s' & -> & ->).
  simpl. split; [reflexivity|]. split; [reflexivity|]. apply oblivious_run.
Qed.

(** ** Weakest preconditions *)

Section WpRules.
Context {A B : Type}.

Lemma wp_ret (a : A) (Q : A -> State -> Prop) st : Q a st -> wp (ret a) Q st.
Proof. exact id. Qed.

Lemma wp_bind (m : M A) (k : A -> M B) (Q : B -> State -> Prop) st :
  wp m (fun a st' => wp (k a) Q st') st -> wp (bind m k) Q st.
Proof. unfold wp, bind. destruct (m st) as [[a|msg] st']; auto. Qed.

Lemma wp_gets (f : State -> A) (Q : A -> State -> Prop) st :
  Q (f st) st -> wp (gets f) Q st.
Proof. exact id. Qed.

Lemma wp_mono (m : M A) (Q Q' : A -> State -> Prop) st :
  wp m Q st -> (forall a st', Q a st' -> Q' a st') -> wp m Q' st.
Proof. unfold wp. destruct (m st) as [[a|msg] st']; auto. Qed.

Lemma wp_withEntryOr (d : M A) (l : loc) (k : SubagentRunRecord -> M A)
    (Q : A -> State -> Prop) st :
  (forall e, heap st !! l = Some e -> wp (k e) Q st) ->
  (heap st !! l = None -> wp d Q st) ->
  wp (withEntryOr d l k) Q st.
Proof.
  intros Hk Hd. unfold wp, withEntryOr.
  destruct (heap st !! l) as [e|] eqn:He; [apply (Hk e eq_refl) | apply (Hd eq_refl)].
Qed.

Lemma wp_exec (m : M A) (Q : A -> State -> Prop) st :
  wp m Q st -> exists a, m st = (Normal a, exec m st) /\ Q a (exec m st).
Proof.
  unfold wp, exec. destruct (m st) as [[a|msg] st']; [|tauto].
  intros HQ. exists a. auto.
Qed.
End WpRules.

Lemma wp_modify (f : State -> State) (Q : unit -> State -> Prop) st :
  Q tt (f st) -> wp (modify f) Q st.
Proof. exact id. Qed.

Lemma wp_persist (Q : unit -> State -> Prop) st :
  Q tt (persisted st) -> wp persistSubagentRuns Q st.
Proof. unfold wp. rewrite persist_run. exact id. Qed.

Lemma wp_mutate l f (Q : unit -> State -> Prop) st :
  Q tt (with_heap (alter f l (heap st)) st) -> wp (mutate l f) Q st.
Proof. exact id. Qed.

Lemma wp_spawn t (Q : unit -> State -> Prop) st :
  Q tt (with_tasks (tasks st ++ [t]) st) -> wp (spawn t) Q st.
Proof. exact id. Qed.

Lemma wp_alloc e (Q : loc -> State -> Prop) st :
  Q (length (heap st)) (with_heap (heap st ++ [e]) st) -> wp (alloc e) Q st.
Proof. exact id. Qed.

Lemma wp_forEach {A : Type} (I : State -> Prop) (xs : list A) (f : A -> M unit) st :
  I st ->
  (forall x s, In x xs -> I s -> wp (f x) (fun _ s' => I s') s) ->
  wp (forEach xs f) (fun _ s' => I s') st.
Proof.
  intros HI Hf. revert st HI. induction xs as [|x xs IH]; intros st HI; simpl.
  - exact HI.
  - apply wp_bind. eapply wp_mono; [apply Hf; [left; reflexivity|exact HI]|].
    intros a s Hs. apply IH; [|exact Hs].
    intros y s' Hy. apply Hf. right. exact Hy.
Qed.

(** One step of symbolic execution, chosen by the head of the computation. *)
Ltac wp_step :=
  lazymatch goal with
  | |- wp (bind _ _) _ _ => apply wp_bind
  | |- wp (ret _) _ _ => apply wp_ret
  | |- wp (gets _) _ _ => apply wp_gets; cbv beta
  | |- wp (modify _) _ _ => apply wp_modify; cbv beta
  | |- wp (when _ _) _ _ => unfold when
  | |- wp (withEntry _ _) _ _ => unfold withEntry
  | |- wp ?m _ _ =>
      lazymatch m with
      | match ?x with _ => _ end => destruct x eqn:?
      end
  end.

(** ** The retry policy is an invariant *)

Lemma benign_startedAt v : benign (set_startedAt v).
Proof. intros e. auto. Qed.
Lemma benign_endedAt v : benign (set_endedAt v).
Proof. intros e. auto. Qed.
Lemma benign_outcome v : benign (set_outcome v).
Proof. intros e. auto. Qed.
Lemma benign_cleanupCompletedAt v : benign (set_cleanupCompletedAt v).
Proof. intros e. auto. Qed.
Lemma benign_cleanupHandled v : benign (set_cleanupHandled v).
Proof. intros e. auto. Qed.
Lemma benign_nextRetryAt v : benign (set_nextRetryAt v).
Proof. intros e. auto. Qed.
Lemma benign_isRetry v : benign (set_isRetry v).
Proof. intros e. auto. Qed.
Lemma benign_verificationAttempted v : benign (set_verificationAttempted v).
Proof. intros e. auto. Qed.
Lemma benign_verificationResult v : benign (set_verificationResult v).
Proof. intros e. auto. Qed.

Create HintDb registry discriminated.

#[local] Hint Resolve benign_startedAt benign_endedAt benign_outcome
  benign_cleanupCompletedAt benign_cleanupHandled benign_nextRetryAt benign_isRetry
  benign_verificationAttempted benign_verificationResult : registry.

Lemma policyOk_benign f e : benign f -> policyOk e -> policyOk (f e).
Proof.
  intros Hf (m & H1 & H2 & H3). destruct (Hf e) as (E1 & E2 & E3).
  exists m. rewrite E1, E2, E3. auto.
Qed.

Lemma policyOkb_spec e : policyOkb e = true -> policyOk e.
Proof.
  unfold policyOkb, policyOk.
  destruct (maxRetries e) as [m|]; [|discriminate].
  destruct (orchestrationConfig e ≫= Partial.maxRetries) as [m'|]; [|discriminate].
  intros H. apply andb_true_iff in H as [H1 H2].
  apply Z.eqb_eq in H1. apply Z.leb_le in H2. subst m'. eauto.
Qed.

Lemma extends_refl st : extends st st.
Proof. intros l e H. eauto. Qed.

Lemma extends_trans st1 st2 st3 : extends st1 st2 -> extends st2 st3 -> extends st1 st3.
Proof.
  intros H12 H23 l e H. destruct (H12 l e H) as (e' & H' & E').
  destruct (H23 l e' H') as (e'' & H'' & E''). exists e''. split; [auto|congruence].
Qed.

Lemma policyFor_extends st st' l config :
  extends st st' -> policyFor (heap st) l config -> policyFor (heap st') l config.
Proof.
  intros Hext (e & He & Hm). destruct (Hext l e He) as (e' & He' & Hm').
  exists e'. split; [auto|congruence].
Qed.

Lemma taskOk_extends st st' t :
  extends st st' -> taskOk (heap st) t -> taskOk (heap st') t.
Proof. destruct t; simpl; eauto using policyFor_extends. Qed.

(** A benign assignment keeps the state well formed. *)
Lemma wellFormed_mutate st l f :
  benign f -> wellFormed st ->
  wellFormed (with_heap (alter f l (heap st)) st) /\
  extends st (with_heap (alter f l (heap st)) st).
Proof.
  intros Hf [Hh Ht].
  assert (Hext : extends st (with_heap (alter f l (heap st)) st)).
  { intros l' e He. simpl. destruct (decide (l = l')) as [->|Hne].
    - rewrite list_lookup_alter_eq, He. simpl. eexists. split; [reflexivity|apply Hf].
    - rewrite list_lookup_alter_ne by done. eauto. }
  split; [|exact Hext]. split; simpl.
  - apply Forall_alter; [exact Hh|]. intros e _ He. apply policyOk_benign; auto.
  - eapply Forall_impl; [exact Ht|]. intros t. apply (taskOk_extends st _ t Hext).
Qed.

(** The increment of [scheduleTaskRetry] under the guard of [shouldRetryTask]. *)
Lemma wellFormed_retry st l e m :
  wellFormed st -> heap st !! l = Some e -> maxRetries e = Some m ->
  retryCount e ?? 0 < m ->
  wellFormed (with_heap (alter (set_retryCount (Some (retryCount e ?? 0 + 1))) l (heap st)) st).
Proof.
  intros [Hh Ht] He Hm Hlt.
  assert (Hext : extends st
    (with_heap (alter (set_retryCount (Some (retryCount e ?? 0 + 1))) l (heap st)) st)).
  { intros l' e0 He0. simpl. destruct (decide (l = l')) as [->|Hne].
    - rewrite list_lookup_alter_eq, He0. simpl. eexists. split; reflexivity.
    - rewrite list_lookup_alter_ne by done. eauto. }
  split; simpl.
  - apply Forall_lookup. intros i x Hx.
    destruct (decide (l = i)) as [->|Hne].
    + rewrite list_lookup_alter_eq, He in Hx. simpl in Hx. injection Hx as <-.
      eapply Forall_lookup_1 in Hh; [|exact He]. destruct Hh as (m' & H1 & H2 & H3).
      exists m'. simpl. split; [exact H1|]. split; [exact H2|].
      assert (m' = m) by congruence. lia.
    + rewrite list_lookup_alter_ne in Hx by done. eapply Forall_lookup_1; eauto.
  - eapply Forall_impl; [exact Ht|]. intros t. apply (taskOk_extends st _ t Hext).
Qed.

Lemma wellFormed_spawn st t :
  wellFormed st -> taskOk (heap st) t -> wellFormed (with_tasks (tasks st ++ [t]) st).
Proof.
  intros [Hh Ht] Hok. split; simpl; [exact Hh|].
  apply Forall_app. split; [exact Ht|]. constructor; [exact Hok|constructor].
Qed.

Lemma wellFormed_alloc st e :
  wellFormed st -> policyOk e ->
  wellFormed (with_heap (heap st ++ [e]) st) /\ extends st (with_heap (heap st ++ [e]) st).
Proof.
  intros [Hh Ht] Hok.
  assert (Hext : extends st (with_heap (heap st ++ [e]) st)).
  { intros l e0 He0. simpl. rewrite lookup_app_l by (eapply lookup_lt_Some; eauto). eauto. }
  split; [|exact Hext]. split; simpl.
  - apply Forall_app. split; [exact Hh|]. constructor; [exact Hok|constructor].
  - eapply Forall_impl; [exact Ht|]. intros t. apply (taskOk_extends st _ t Hext).
Qed.

Lemma wellFormed_delete_task st i :
  wellFormed st -> wellFormed (with_tasks (delete i (tasks st)) st).
Proof. intros [Hh Ht]. split; simpl; [exact Hh|]. apply Forall_delete, Ht. Qed.

Section Good.
Context {A : Type} (st0 st : State) (Q : A -> State -> Prop).

Lemma wpg_mutate (Q' : unit -> State -> Prop) l f :
  benign f -> good st0 st ->
  (forall st', good st0 st' -> Q' tt st') -> wp (mutate l f) Q' st.
Proof.
  intros Hf [Hwf Hext] HQ. apply wp_mutate, HQ.
  destruct (wellFormed_mutate st l f Hf Hwf) as [Hwf' Hext'].
  split; [exact Hwf'|]. eapply extends_trans; eauto.
Qed.

Lemma wpg_retry (Q' : unit -> State -> Prop) l e m :
  good st0 st -> heap st !! l = Some e -> maxRetries e = Some m ->
  retryCount e ?? 0 < m ->
  (forall st', good st0 st' -> Q' tt st') ->
  wp (mutate l (set_retryCount (Some (retryCount e ?? 0 + 1)))) Q' st.
Proof.
  intros [Hwf Hext] He Hm Hlt HQ. apply wp_mutate, HQ. split.
  - eapply wellFormed_retry; eauto.
  - intros l' e0 He0. destruct (Hext l' e0 He0) as (e1 & He1 & Hm1). simpl.
    destruct (decide (l = l')) as [->|Hne].
    + rewrite list_lookup_alter_eq, He1. simpl. eexists. split; [reflexivity|exact Hm1].
    + rewrite list_lookup_alter_ne by done. eauto.
Qed.

Lemma wpg_persist (Q' : unit -> State -> Prop) :
  good st0 st -> (forall st', good st0 st' -> Q' tt st') -> wp persistSubagentRuns Q' st.
Proof. intros H HQ. apply wp_persist, HQ. exact H. Qed.

Lemma wpg_spawn (Q' : unit -> State -> Prop) t :
  good st0 st -> taskOk (heap st) t ->
  (forall st', good st0 st' -> Q' tt st') -> wp (spawn t) Q' st.
Proof.
  intros [Hwf Hext] Ht HQ. apply wp_spawn, HQ. split; [|exact Hext].
  apply wellFormed_spawn; assumption.
Qed.

Lemma wpg_alloc (Q' : loc -> State -> Prop) e :
  good st0 st -> policyOk e ->
  (forall l st', good st0 st' -> Q' l st') -> wp (alloc e) Q' st.
Proof.
  intros [Hwf Hext] He HQ. apply wp_alloc, HQ.
  destruct (wellFormed_alloc st e Hwf He) as [Hwf' Hext'].
  split; [exact Hwf'|]. eapply extends_trans; eauto.
Qed.

Lemma good_policyFor l config :
  good st0 st -> policyFor (heap st0) l config -> policyFor (heap st) l config.
Proof. intros [_ Hext]. apply policyFor_extends, Hext. Qed.

Lemma good_policyOk l e : good st0 st -> heap st !! l = Some e -> policyOk e.
Proof. intros [[Hh _] _] He. eapply Forall_lookup_1; eauto. Qed.
End Good.

Lemma good_refl st : wellFormed st -> good st st.
Proof. intros H. split; [exact H|apply extends_refl]. Qed.

Lemma good_trans st0 st1 st2 : good st0 st1 -> good st1 st2 -> good st0 st2.
Proof. intros [_ H1] [H2 H3]. split; [exact H2|]. eapply extends_trans; eauto. Qed.

(** Make the hypothesis [H : good _ _] speak about the state of the goal. *)
Ltac wpg_sync H :=
  lazymatch goal with
  | |- wp _ _ ?S =>
      lazymatch type of H with
      | good _ S => idtac
      | good ?s0 _ =>
          let H' := fresh "Hg" in
          assert (H' : good s0 S) by exact H; clear H; rename H' into H
      end
  | |- good _ _ => idtac
  end.

Create HintDb goodops discriminated.

(** Symbolic execution that carries [H : good st0 st] along; a call of an
    operation is discharged by its lemma in [goodops]. *)
Ltac wpg_step H :=
  lazymatch goal with
  | |- good _ _ => exact H
  | |- wp persistSubagentRuns _ _ => apply (wpg_persist _ _ _ H); clear H; intros ? H
  | |- wp (mutate _ _) _ _ =>
      eapply wpg_mutate; [solve [auto with registry] | exact H | clear H; intros ? H]
  | |- wp (spawn _) _ _ =>
      eapply wpg_spawn; [exact H | exact I | clear H; intros ? H]
  | |- wp (withEntryOr _ _ _) _ _ => apply wp_withEntryOr; [intros ? ?|intros ?]
  | |- _ =>
      first
        [ eapply wp_mono; [solve [eauto 3 with goodops] | clear H; intros ? ? H; cbv beta in H]
        | wp_step ]
  end.

Ltac wpg H := repeat (wpg_sync H; wpg_step H).

Lemma good_beginSubagentCleanup st0 st runId :
  good st0 st ->
  wp (beginSubagentCleanup runId) (fun _ st' => good st0 st') st.
Proof. intros H. unfold beginSubagentCleanup. wpg H. Qed.

Lemma good_finalizeSubagentCleanup st0 st env runId cleanup didAnnounce :
  good st0 st ->
  wp (finalizeSubagentCleanup env runId cleanup didAnnounce) (fun _ st' => good st0 st') st.
Proof. intros H. unfold finalizeSubagentCleanup. wpg H. Qed.

#[local] Hint Resolve good_beginSubagentCleanup good_finalizeSubagentCleanup : goodops.

Lemma good_startAnnounce st0 st runId l :
  good st0 st -> wp (startAnnounce runId l) (fun _ st' => good st0 st') st.
Proof. intros H. unfold startAnnounce. wpg H. Qed.

#[local] Hint Resolve good_startAnnounce : goodops.

Lemma good_announceSettled st0 st env runId l didAnnounce :
  good st0 st -> wp (announceSettled env runId l didAnnounce) (fun _ st' => good st0 st') st.
Proof. intros H. unfold announceSettled. wpg H. Qed.

Lemma good_proceedWithCleanup st0 st runId l :
  good st0 st -> wp (proceedWithCleanup runId l) (fun _ st' => good st0 st') st.
Proof. intros H. unfold proceedWithCleanup. wpg H. Qed.

Lemma good_waitForSubagentCompletion st0 st runId t :
  good st0 st -> wp (waitForSubagentCompletion runId t) (fun _ st' => good st0 st') st.
Proof. intros H. unfold waitForSubagentCompletion. wpg H. Qed.

#[local] Hint Resolve good_announceSettled good_proceedWithCleanup
  good_waitForSubagentCompletion : goodops.

Lemma good_waitForSubagentCompletion_reply st0 st env runId wait :
  good st0 st ->
  wp (waitForSubagentCompletion_reply env runId wait) (fun _ st' => good st0 st') st.
Proof. intros H. unfold waitForSubagentCompletion_reply. wpg H. Qed.

Lemma good_retrySettled st0 st key :
  good st0 st -> wp (retrySettled key) (fun _ st' => good st0 st') st.
Proof. intros H. unfold retrySettled. wpg H. Qed.

#[local] Hint Resolve good_waitForSubagentCompletion_reply good_retrySettled : goodops.

Lemma good_scheduleTaskRetry st0 st env l config key e m :
  good st0 st -> heap st !! l = Some e -> maxRetries e = Some m ->
  retryCount e ?? 0 < m ->
  wp (scheduleTaskRetry env l config key) (fun _ st' => good st0 st') st.
Proof.
  intros H He Hm Hlt. unfold scheduleTaskRetry, withEntry.
  apply wp_withEntryOr; [|intros ?; wpg H].
  intros e' He'. assert (e' = e) as -> by congruence.
  apply wp_bind. eapply wpg_retry; eauto. clear H. intros st1 H. wpg H.
Qed.

Lemma good_scheduleTaskRetry_afterDelay st0 st env l n key :
  good st0 st ->
  wp (scheduleTaskRetry_afterDelay env l n key) (fun _ st' => good st0 st') st.
Proof. intros H. unfold scheduleTaskRetry_afterDelay. wpg H. Qed.

Lemma good_scheduleTaskRetry_afterStart st0 st env l b key :
  good st0 st ->
  wp (scheduleTaskRetry_afterStart env l b key) (fun _ st' => good st0 st') st.
Proof. intros H. unfold scheduleTaskRetry_afterStart. wpg H. Qed.

#[local] Hint Resolve good_scheduleTaskRetry_afterDelay
  good_scheduleTaskRetry_afterStart : goodops.

(** What the guard of a retry knows. *)
Lemma shouldRetryTask_spec entry config :
  shouldRetryTask entry config = true <->
  Resolved.retryOnFailure config = true /\
  retryCount entry ?? 0 < Resolved.maxRetries config /\
  status <$> outcome entry = Some StatusError.
Proof.
  unfold shouldRetryTask, outcomeIsError.
  destruct (Resolved.retryOnFailure config); simpl; [|intuition discriminate].
  destruct (Z.leb_spec (Resolved.maxRetries config) (retryCount entry ?? 0)).
  - split; [discriminate|]. intros (_ & ? & _). lia.
  - destruct (outcome entry) as [[[] err]|]; simpl; intuition (try discriminate; auto).
Qed.

Lemma resolved_maxRetries cfg e m :
  orchestrationConfig e ≫= Partial.maxRetries = Some m ->
  Resolved.maxRetries (resolveOrchestrationConfig cfg (orchestrationConfig e)) = m.
Proof. unfold resolveOrchestrationConfig. simpl. intros ->. reflexivity. Qed.

Lemma good_handleTaskCompletion_verdict st0 st env l config r :
  good st0 st -> policyFor (heap st0) l config ->
  wp (handleTaskCompletion_verdict env l config r) (fun _ st' => good st0 st') st.
Proof.
  intros H Hp. unfold handleTaskCompletion_verdict. wpg H.
  - apply shouldRetryTask_spec in Heqb1 as (_ & Hlt & _).
    destruct (good_policyFor _ _ _ _ H Hp) as (e' & He' & Hm').
    assert (e' = e) as -> by congruence.
    eapply good_scheduleTaskRetry; eauto.
Qed.

Lemma good_taskCompletionHandled st0 st r l :
  good st0 st -> wp (taskCompletionHandled r l) (fun _ st' => good st0 st') st.
Proof. intros H. unfold taskCompletionHandled. wpg H. Qed.

Lemma good_verifyTaskCompletion st0 st l config :
  good st0 st -> wp (verifyTaskCompletion l config) (fun _ st' => good st0 st') st.
Proof. intros H. unfold verifyTaskCompletion. wpg H. Qed.

#[local] Hint Resolve good_handleTaskCompletion_verdict good_taskCompletionHandled
  good_verifyTaskCompletion : goodops.

Lemma good_verificationSettled st0 st env l config r v :
  good st0 st -> policyFor (heap st0) l config ->
  wp (verificationSettled env l config r v) (fun _ st' => good st0 st') st.
Proof. intros H Hp. unfold verificationSettled. wpg H. Qed.

Lemma good_handleTaskCompletion st0 st env l config r :
  good st0 st -> policyFor (heap st0) l config ->
  wp (handleTaskCompletion env l config r) (fun _ st' => good st0 st') st.
Proof.
  intros H Hp. unfold handleTaskCompletion. wpg H.
  - apply wp_spawn. split; [|apply H]. apply wellFormed_spawn; [apply H|].
    simpl. eapply good_policyFor; eauto.
  - apply wp_spawn. split; [|apply H]. apply wellFormed_spawn; [apply H|].
    simpl. eapply good_policyFor; eauto.
Qed.

Lemma good_from_here {A : Type} st0 st (m : M A) :
  good st0 st ->
  wp m (fun _ st' => good st st') st -> wp m (fun _ st' => good st0 st') st.
Proof. intros H Hm. eapply wp_mono; [exact Hm|]. intros a st' H'. eapply good_trans; eauto. Qed.

Lemma policyOk_policyFor st l e cfg :
  heap st !! l = Some e -> policyOk e ->
  policyFor (heap st) l (resolveOrchestrationConfig cfg (orchestrationConfig e)).
Proof.
  intros He (m & Hm & Hc & _). exists e. split; [exact He|].
  rewrite (resolved_maxRetries cfg e m Hc). exact Hm.
Qed.

Lemma good_onLifecycleEvent st0 st env evt :
  good st0 st -> wp (onLifecycleEvent env evt) (fun _ st' => good st0 st') st.
Proof.
  intros H. unfold onLifecycleEvent. wpg H.
  all: lazymatch goal with
    | |- wp (scheduleTaskRetry _ _ _ _) _ _ =>
        match goal with
        | Hc : (outcomeIsError _ && shouldRetryTask _ _)%bool = true,
          He : heap _ !! _ = Some _ |- _ =>
            apply andb_true_iff in Hc as [_ Hretry];
            apply shouldRetryTask_spec in Hretry as (_ & Hlt & _);
            destruct (good_policyOk _ _ _ _ H He) as (m & Hm & Hc & _);
            rewrite (resolved_maxRetries _ _ _ Hc) in Hlt;
            eapply good_scheduleTaskRetry; [exact H|exact He|exact Hm|exact Hlt]
        end
    | |- wp (handleTaskCompletion _ _ _ _) _ _ =>
        apply good_from_here; [exact H|];
        match goal with
        | He : heap _ !! _ = Some _ |- _ =>
            apply good_handleTaskCompletion; [apply good_refl, H|];
            apply policyOk_policyFor; [exact He|]; eapply good_policyOk; eauto
        end
    end.
Qed.

Lemma good_ensureListener st0 st :
  good st0 st -> wp ensureListener (fun _ st' => good st0 st') st.
Proof. intros H. unfold ensureListener. wpg H. Qed.

Lemma good_startSweeper st0 st :
  good st0 st -> wp startSweeper (fun _ st' => good st0 st') st.
Proof. intros H. unfold startSweeper. wpg H. Qed.

Lemma good_stopSweeper st0 st :
  good st0 st -> wp stopSweeper (fun _ st' => good st0 st') st.
Proof. intros H. unfold stopSweeper. wpg H. Qed.

#[local] Hint Resolve good_onLifecycleEvent good_ensureListener good_startSweeper
  good_stopSweeper : goodops.

Lemma good_sweepSubagentRuns st0 st env :
  good st0 st -> wp (sweepSubagentRuns env) (fun _ st' => good st0 st') st.
Proof. intros H. unfold sweepSubagentRuns. wpg H. Qed.

Lemma good_releaseSubagentRun st0 st runId :
  good st0 st -> wp (releaseSubagentRun runId) (fun _ st' => good st0 st') st.
Proof. intros H. unfold releaseSubagentRun. wpg H. Qed.

Lemma good_resetSubagentRegistryForTests st0 st :
  good st0 st -> wp resetSubagentRegistryForTests (fun _ st' => good st0 st') st.
Proof. intros H. unfold resetSubagentRegistryForTests. wpg H. Qed.

Lemma good_resumeSubagentRun st0 st env runId :
  good st0 st -> wp (resumeSubagentRun env runId) (fun _ st' => good st0 st') st.
Proof. intros H. unfold resumeSubagentRun. wpg H. Qed.

#[local] Hint Resolve good_sweepSubagentRuns good_releaseSubagentRun
  good_resetSubagentRegistryForTests good_resumeSubagentRun : goodops.

(** The effective [maxRetries] of a registration is the one its record and
    its configuration snapshot get. *)
Lemma register_maxRetries cfg (o : option Partial.t) :
  Partial.maxRetries
    (match o with
     | Some o' => spreadConfig (resolveOrchestrationConfig cfg None) o'
     | None => asPartial (resolveOrchestrationConfig cfg None)
     end) = Some (Resolved.maxRetries (resolveOrchestrationConfig cfg o)).
Proof. destruct o as [o'|]; reflexivity. Qed.

Lemma good_registerSubagentRun st0 st env params :
  good st0 st -> inputOk env (RegisterRun params) = true ->
  wp (registerSubagentRun env params) (fun _ st' => good st0 st') st.
Proof.
  intros H Hin. unfold registerSubagentRun. simpl in Hin. apply Z.leb_le in Hin.
  apply wp_bind. eapply wpg_alloc; [exact H| |].
  - eexists. unfold newRunRecord. simpl. rewrite register_maxRetries.
    split; [reflexivity|]. split; [reflexivity|]. exact Hin.
  - clear H. intros l st1 H. wpg H.
Qed.

Lemma good_restoreSubagentRunsOnce st0 st env restored :
  good st0 st -> inputOk env (InitRegistry restored) = true ->
  wp (restoreSubagentRunsOnce env restored) (fun _ st' => good st0 st') st.
Proof.
  intros H Hin. unfold restoreSubagentRunsOnce.
  apply wp_bind, wp_gets. cbv beta. destruct (restoreAttempted st); [wpg H|].
  apply wp_bind, wp_modify. cbv beta.
  destruct restored as [[|kv entries]|]; [wpg H| |wpg H].
  unfold inputOk in Hin. apply wp_bind. eapply wp_mono.
  { apply (wp_forEach (good st0)); [exact H|]. intros [k e] s Hx Hs.
    assert (Hok : policyOk e).
    { apply policyOkb_spec.
      exact (proj1 (forallb_forall _ _) Hin (k, e) Hx). }
    wpg Hs. eapply wpg_alloc; [exact Hs|exact Hok|]. clear Hs. intros l' st1 Hs. wpg Hs. }
  intros a s Hs. cbv beta in Hs. clear H. wpg Hs.
  all: apply (wp_forEach (good st0)); [exact Hs|]; intros x s' _ Hs';
    apply good_resumeSubagentRun, Hs'.
Qed.

Lemma good_resume st0 st env t r k :
  good st0 st -> taskOk (heap st) t -> resume env t r = Some k ->
  wp k (fun _ st' => good st0 st') st.
Proof.
  intros H Ht Hk. destruct t, r; simpl in Hk; try discriminate;
    injection Hk as <-; simpl in Ht;
    try (apply good_from_here; [exact H|];
         apply good_verificationSettled; [apply good_refl, H|exact Ht]);
    wpg H.
Qed.

Lemma good_step st0 st env ev :
  good st0 st -> inputOk env ev = true ->
  wp (step env ev) (fun _ st' => good st0 st') st.
Proof.
  intros H Hin. destruct ev; simpl step.
  - apply good_registerSubagentRun; assumption.
  - apply good_restoreSubagentRunsOnce; assumption.
  - wpg H.
  - apply wp_bind, wp_gets. cbv beta.
    destruct (tasks st !! i) as [t|] eqn:Ht; [|wpg H].
    destruct (resume env t r) as [k|] eqn:Hk; [|wpg H].
    apply wp_bind, wp_modify. cbv beta.
    assert (Hok : taskOk (heap st) t).
    { destruct H as [[_ Hts] _]. eapply Forall_lookup_1; eauto. }
    eapply good_resume; [|exact Hok|exact Hk].
    destruct H as [Hwf Hext]. split; [|exact Hext]. apply wellFormed_delete_task, Hwf.
  - wpg H.
  - apply good_releaseSubagentRun, H.
  - apply good_resetSubagentRegistryForTests, H.
  - unfold registerVerificationHook. wpg H.
  - unfold unregisterVerificationHook. wpg H.
Qed.

Lemma wellFormed_initialState diskFaults : wellFormed (initialState diskFaults).
Proof. split; constructor. Qed.

Lemma wellFormed_run trace st :
  wellFormed st ->
  forallb (fun ee : Env * Event => inputOk ee.1 ee.2) trace = true ->
  wellFormed (run trace st).
Proof.
  revert st. induction trace as [|[env ev] trace IH]; intros st Hwf Hin; simpl.
  - exact Hwf.
  - simpl in Hin. apply andb_true_iff in Hin as [Hev Htr].
    apply IH; [|exact Htr].
    destruct (wp_exec _ _ _ (good_step st st env ev (good_refl st Hwf) Hev))
      as (a & _ & Hg).
    apply Hg.
Qed.

(** ** Exact symbolic execution *)

(** Bring the state of the goal to a flat record and use what is known about
    lookups and tests. *)
Ltac known :=
  repeat first
    [ progress cbn [getRun recordOf heap subagentRuns sweeper listenerStarted restoreAttempted
                    resumedRuns pendingRetries pendingVerifications verificationHooks tasks
                    store with_heap with_subagentRuns with_sweeper with_listenerStarted
                    with_restoreAttempted with_resumedRuns with_pendingRetries
                    with_pendingVerifications with_verificationHooks with_tasks with_store
                    persisted fmap option_fmap option_map mbind option_bind negb andb orb fst snd
                    passed reason status error outcomeIsError outcomeIsOk
                    runId childSessionKey requesterSessionKey requesterOrigin
                    requesterDisplayKey task cleanup label createdAt startedAt endedAt
                    outcome archiveAtMs cleanupCompletedAt cleanupHandled retryCount
                    maxRetries nextRetryAt isRetry originalRunId verificationAttempted
                    verificationResult orchestrationConfig
                    set_startedAt set_endedAt set_outcome set_cleanupCompletedAt
                    set_cleanupHandled set_retryCount set_nextRetryAt set_isRetry
                    set_verificationAttempted set_verificationResult]
    | progress unfold outcomeIsError, outcomeIsOk in *
    | progress unfold getRun, recordOf
    | rewrite list_lookup_alter_eq
    | match goal with
      | H : ?x !! ?k = _ |- context [?x !! ?k] => rewrite H
      | H : ?b = true |- context [if ?b then _ else _] => rewrite H
      | H : ?b = false |- context [if ?b then _ else _] => rewrite H
      | H : ?b = true |- context [negb ?b] => rewrite H
      | H : ?b = false |- context [negb ?b] => rewrite H
      end ].

Lemma wp_withEntryOr_known {A : Type} (d : M A) (l : loc) (k : SubagentRunRecord -> M A)
    (Q : A -> State -> Prop) st e :
  heap st !! l = Some e -> wp (k e) Q st -> wp (withEntryOr d l k) Q st.
Proof. intros He H. unfold wp, withEntryOr. rewrite He. exact H. Qed.

Ltac wpx_step :=
  lazymatch goal with
  | |- wp persistSubagentRuns _ _ => apply wp_persist
  | |- wp (mutate _ _) _ _ => apply wp_mutate
  | |- wp (spawn _) _ _ => apply wp_spawn
  | |- wp (alloc _) _ _ => apply wp_alloc
  | |- wp (bind _ _) _ _ => apply wp_bind
  | |- wp (ret _) _ _ => apply wp_ret
  | |- wp (gets _) _ _ => apply wp_gets; cbv beta
  | |- wp (modify _) _ _ => apply wp_modify; cbv beta
  | |- wp (when _ _) _ _ => unfold when
  | |- wp (withEntry _ _) _ _ => unfold withEntry
  | |- wp (withEntryOr _ _ _) _ _ =>
      eapply wp_withEntryOr_known; [known; reflexivity|]
  end.

Ltac wpx := repeat first [ progress known | wpx_step ].


(** ** Frames: what a computation leaves alone *)

Section Frame.
Variable R : loc -> SubagentRunRecord -> SubagentRunRecord -> Prop.
Variable G : State -> State -> Prop.
Hypothesis G_heap : forall st0 S h, G st0 S -> G st0 (with_heap h S).
Hypothesis G_store : forall st0 S s, G st0 S -> G st0 (with_store s S).

Local Abbreviation framed := (framed R G).

Lemma wpf_mutate st0 S l f (Q : unit -> State -> Prop) :
  framed st0 S ->
  (forall e0 e, heap S !! l = Some e -> R l e0 e -> R l e0 (f e)) ->
  (forall S', framed st0 S' -> Q tt S') ->
  wp (mutate l f) Q S.
Proof.
  intros [Hh Hg] Hf HQ. apply wp_mutate, HQ. split; [|apply G_heap, Hg].
  intros l' e0 He0. destruct (Hh l' e0 He0) as (e & He & Hr). simpl.
  destruct (decide (l = l')) as [->|Hne].
  - rewrite list_lookup_alter_eq, He. simpl. eauto.
  - rewrite list_lookup_alter_ne by done. eauto.
Qed.

Lemma wpf_persist st0 S (Q : unit -> State -> Prop) :
  framed st0 S -> (forall S', framed st0 S' -> Q tt S') -> wp persistSubagentRuns Q S.
Proof.
  intros [Hh Hg] HQ. apply wp_persist, HQ. split; [exact Hh|apply G_store, Hg].
Qed.

Lemma wpf_alloc st0 S e (Q : loc -> State -> Prop) :
  framed st0 S -> (forall l S', framed st0 S' -> Q l S') -> wp (alloc e) Q S.
Proof.
  intros [Hh Hg] HQ. apply wp_alloc, HQ. split; [|apply G_heap, Hg].
  intros l e0 He0. destruct (Hh l e0 He0) as (e1 & He1 & Hr). simpl.
  rewrite lookup_app_l by (eapply lookup_lt_Some; eauto). eauto.
Qed.

Lemma framed_rest st0 S S' :
  framed st0 S -> heap S' = heap S -> G st0 S' -> framed st0 S'.
Proof. intros [Hh _] Heq Hg. split; [rewrite Heq; exact Hh|exact Hg]. Qed.
End Frame.

(** Symbolic execution that carries [H : framed R G st0 S] along.  [side]
    solves the side conditions of the frame at hand, [call] discharges the
    call of an operation by its lemma. *)
Ltac wpf_sync H side :=
  lazymatch goal with
  | |- wp _ _ ?S =>
      lazymatch type of H with
      | framed _ _ _ S => idtac
      | framed ?R ?G ?s0 _ =>
          let H' := fresh "Hf" in
          assert (H' : framed R G s0 S)
            by (first [ exact H
                      | eapply framed_rest;
                        [exact H | reflexivity | first [exact (proj2 H) | side]] ]);
          clear H; rename H' into H
      end
  | |- _ => idtac
  end.

Ltac wpf_step H side call :=
  lazymatch goal with
  | |- framed ?R ?G _ _ =>
      first [ exact H
            | eapply framed_rest;
              [exact H | reflexivity | first [exact (proj2 H) | side]] ]
  | |- wp persistSubagentRuns _ _ =>
      eapply wpf_persist; [ | exact H | ]; [solve [side] | clear H; intros ? H]
  | |- wp (mutate _ _) _ _ =>
      eapply wpf_mutate; [ | exact H | | ];
      [solve [side] | solve [side] | clear H; intros ? H]
  | |- wp (spawn _) _ _ => apply wp_spawn
  | |- wp (withEntryOr _ _ _) _ _ => apply wp_withEntryOr; [intros ? ?|intros ?]
  | |- _ => first [ call H | wp_step ]
  end.

Ltac wpf H side call := repeat (wpf_sync H side; wpf_step H side call).

(** ** A record whose cleanup is complete *)

Lemma settledG_heap st0 S h : settledG st0 S -> settledG st0 (with_heap h S).
Proof. exact id. Qed.

Lemma settledG_store st0 S s : settledG st0 S -> settledG st0 (with_store s S).
Proof. exact id. Qed.

Lemma settledG_spawn st0 S t :
  settledG st0 S -> announceOk st0 t -> settledG st0 (with_tasks (tasks S ++ [t]) S).
Proof.
  intros [Hr (ts & Hts & Hok)] Ht. split; [exact Hr|]. exists (ts ++ [t])%list. simpl.
  rewrite Hts, <- app_assoc. split; [reflexivity|].
  apply Forall_app. split; [exact Hok|]. constructor; [exact Ht|constructor].
Qed.

Lemma settledR_refl l e : settledR l e e.
Proof. split; auto. Qed.

Lemma settled_refl st : framed settledR settledG st st.
Proof.
  split.
  - intros l e He. exists e. split; [exact He|apply settledR_refl].
  - split; [reflexivity|]. exists []. rewrite app_nil_r. split; [reflexivity|constructor].
Qed.

(** Side conditions of this frame: an assignment to a field outside the
    identity and the cleanup bookkeeping, a task that is no announce. *)
Ltac settled_side :=
  first
    [ exact settledG_heap
    | exact settledG_store
    | intros ? ? _ [? ?]; split; assumption
    | apply settledG_spawn; [assumption|exact I]
    | match goal with
      | H : framed _ _ _ _ |- _ => apply settledG_spawn; [exact (proj2 H)|exact I]
      end ].

Create HintDb settledops discriminated.

Ltac settled_call H :=
  eapply wp_mono; [solve [eauto 3 with settledops] | clear H; intros ? ? H; cbv beta in H].

Ltac wps H := wpf H settled_side ltac:(settled_call).

Lemma settled_beginSubagentCleanup st0 st runId :
  framed settledR settledG st0 st ->
  wp (beginSubagentCleanup runId)
    (fun ok st' => framed settledR settledG st0 st' /\ (ok = true -> notCompletedIn st0 runId)) st.
Proof.
  intros H. unfold beginSubagentCleanup.
  apply wp_bind, wp_gets. cbv beta.
  destruct (getRun st runId) as [[l entry]|] eqn:Hrun;
    [|apply wp_ret; split; [exact H|discriminate]].
  destruct (truthyNum (cleanupCompletedAt entry)) eqn:Hc;
    [apply wp_ret; split; [exact H|discriminate]|].
  destruct (truthyBool (cleanupHandled entry)) eqn:Hd;
    [apply wp_ret; split; [exact H|discriminate]|].
  apply getRun_Some in Hrun as [Hr He].
  assert (Hnot : notCompletedIn st0 runId).
  { intros l0 e0 H0. apply getRun_Some in H0 as [Hr0 He0].
    destruct (completed e0) eqn:Hc0; [|reflexivity].
    destruct H as [Hh [Hruns _]]. rewrite Hruns in Hr.
    assert (l0 = l) as -> by congruence.
    destruct (Hh l e0 He0) as (e & He' & _ & Hcl).
    assert (e = entry) as -> by congruence.
    specialize (Hcl Hc0). unfold cleanupState in Hcl. injection Hcl as Hcl _.
    unfold completed in Hc0. rewrite <- Hcl, Hc in Hc0. discriminate. }
  apply wp_bind. eapply wpf_mutate; [exact settledG_heap|exact H| |].
  - intros e0 e He' [Hi Hcl]. assert (e = entry) as -> by congruence.
    split; [exact Hi|]. intros Hc0. specialize (Hcl Hc0).
    unfold cleanupState in Hcl. injection Hcl as Hcl _.
    unfold completed in Hc0. rewrite <- Hcl, Hc in Hc0. discriminate.
  - clear H. intros S H. wps H. split; [exact H|]. intros _. exact Hnot.
Qed.

Lemma settled_startAnnounce st0 st runId l :
  framed settledR settledG st0 st -> notCompletedIn st0 runId ->
  wp (startAnnounce runId l) (fun _ st' => framed settledR settledG st0 st') st.
Proof.
  intros H Hnot. unfold startAnnounce. wps H.
  eapply framed_rest; [exact H|reflexivity|].
  apply settledG_spawn; [exact (proj2 H)|exact Hnot].
Qed.

(** The guarded announce that four call sites share. *)
Lemma settled_begin_then_announce st0 st runId l :
  framed settledR settledG st0 st ->
  wp (beginSubagentCleanup runId)
    (fun ok st' =>
       wp (if negb ok then ret tt else startAnnounce runId l)
         (fun _ st'' => framed settledR settledG st0 st'') st') st.
Proof.
  intros H. eapply wp_mono; [apply settled_beginSubagentCleanup, H|].
  intros ok S [HS Hok]. destruct ok; simpl.
  - apply settled_startAnnounce; auto.
  - exact HS.
Qed.

Lemma settled_proceedWithCleanup st0 st runId l :
  framed settledR settledG st0 st ->
  wp (proceedWithCleanup runId l) (fun _ st' => framed settledR settledG st0 st') st.
Proof. intros H. apply wp_bind, settled_begin_then_announce, H. Qed.

Lemma settled_waitForSubagentCompletion_reply st0 st env runId wait :
  framed settledR settledG st0 st ->
  wp (waitForSubagentCompletion_reply env runId wait)
    (fun _ st' => framed settledR settledG st0 st') st.
Proof.
  intros H. unfold waitForSubagentCompletion_reply. wps H.
  all: apply settled_begin_then_announce, H.
Qed.

Lemma settled_scheduleTaskRetry st0 st env l config key :
  framed settledR settledG st0 st ->
  wp (scheduleTaskRetry env l config key) (fun _ st' => framed settledR settledG st0 st') st.
Proof. intros H. unfold scheduleTaskRetry. wps H. Qed.

Lemma settled_verifyTaskCompletion st0 st l config :
  framed settledR settledG st0 st ->
  wp (verifyTaskCompletion l config) (fun _ st' => framed settledR settledG st0 st') st.
Proof. intros H. unfold verifyTaskCompletion. wps H. Qed.

#[local] Hint Resolve settled_proceedWithCleanup settled_scheduleTaskRetry
  settled_verifyTaskCompletion : settledops.

Lemma settled_handleTaskCompletion_verdict st0 st env l config r :
  framed settledR settledG st0 st ->
  wp (handleTaskCompletion_verdict env l config r)
    (fun _ st' => framed settledR settledG st0 st') st.
Proof. intros H. unfold handleTaskCompletion_verdict. wps H. Qed.

Lemma settled_taskCompletionHandled st0 st r l :
  framed settledR settledG st0 st ->
  wp (taskCompletionHandled r l) (fun _ st' => framed settledR settledG st0 st') st.
Proof. intros H. unfold taskCompletionHandled. wps H. Qed.

#[local] Hint Resolve settled_handleTaskCompletion_verdict
  settled_taskCompletionHandled : settledops.

Lemma settled_handleTaskCompletion st0 st env l config r :
  framed settledR settledG st0 st ->
  wp (handleTaskCompletion env l config r)
    (fun _ st' => framed settledR settledG st0 st') st.
Proof. intros H. unfold handleTaskCompletion. wps H. Qed.

Lemma settled_verificationSettled st0 st env l config r v :
  framed settledR settledG st0 st ->
  wp (verificationSettled env l config r v)
    (fun _ st' => framed settledR settledG st0 st') st.
Proof. intros H. unfold verificationSettled. wps H. Qed.

#[local] Hint Resolve settled_handleTaskCompletion settled_verificationSettled : settledops.

Lemma settled_onLifecycleEvent st0 st env evt :
  framed settledR settledG st0 st ->
  wp (onLifecycleEvent env evt) (fun _ st' => framed settledR settledG st0 st') st.
Proof.
  intros H. unfold onLifecycleEvent. wps H.
  all: apply settled_begin_then_announce, H.
Qed.

(** ** The wait prober schedules no retry *)

Lemma noRetryG_heap st0 S h : noRetryG st0 S -> noRetryG st0 (with_heap h S).
Proof. exact id. Qed.

Lemma noRetryG_store st0 S s : noRetryG st0 S -> noRetryG st0 (with_store s S).
Proof. exact id. Qed.

Lemma retryDelays_app ts ts' :
  retryDelays (ts ++ ts') = (retryDelays ts ++ retryDelays ts')%list.
Proof. apply omap_app. Qed.

Lemma noRetryG_spawn st0 S t :
  noRetryG st0 S -> retryDelays [t] = [] -> noRetryG st0 (with_tasks (tasks S ++ [t]) S).
Proof.
  intros [Hp Hd] Ht. split; [exact Hp|]. simpl.
  rewrite retryDelays_app, Ht, app_nil_r. exact Hd.
Qed.

Lemma noRetry_refl st : framed noRetryR noRetryG st st.
Proof.
  split.
  - intros l e He. exists e. split; [exact He|reflexivity].
  - split; reflexivity.
Qed.

Ltac noRetry_side :=
  first
    [ exact noRetryG_heap
    | exact noRetryG_store
    | intros ? ? _ ?; assumption
    | match goal with
      | H : framed _ _ _ _ |- _ => apply noRetryG_spawn; [exact (proj2 H)|reflexivity]
      end ].

Create HintDb noRetryops discriminated.

Ltac noRetry_call H :=
  eapply wp_mono; [solve [eauto 3 with noRetryops] | clear H; intros ? ? H; cbv beta in H].

Ltac wpn H := wpf H noRetry_side ltac:(noRetry_call).

Lemma noRetry_beginSubagentCleanup st0 st runId :
  framed noRetryR noRetryG st0 st ->
  wp (beginSubagentCleanup runId) (fun _ st' => framed noRetryR noRetryG st0 st') st.
Proof. intros H. unfold beginSubagentCleanup. wpn H. Qed.

Lemma noRetry_startAnnounce st0 st runId l :
  framed noRetryR noRetryG st0 st ->
  wp (startAnnounce runId l) (fun _ st' => framed noRetryR noRetryG st0 st') st.
Proof. intros H. unfold startAnnounce. wpn H. Qed.

#[local] Hint Resolve noRetry_beginSubagentCleanup noRetry_startAnnounce : noRetryops.

Lemma noRetry_waitForSubagentCompletion_reply st0 st env runId wait :
  framed noRetryR noRetryG st0 st ->
  wp (waitForSubagentCompletion_reply env runId wait)
    (fun _ st' => framed noRetryR noRetryG st0 st') st.
Proof. intros H. unfold waitForSubagentCompletion_reply. wpn H. Qed.

(** C1: the post-completion policy of the specification is the one of the
    lifecycle listener only.  When the wait prober receives a terminal reply
    with [status = "error"] for a run whose policy permits a retry, it begins
    cleanup and starts the announce; the listener, given the same failure,
    schedules the retry.  In no state does the prober's reply schedule a
    retry: every [retryCount], the pending-retry set and the retry timers
    are as before. *)
Theorem prober_error_reply_begins_cleanup_without_retry :
  (Resolved.retryOnFailure
     (resolveOrchestrationConfig (loadConfig (envAt 200))
        (recordOf failureSeenByProber "run-1" ≫= orchestrationConfig)) = true /\
   (outcome <$> recordOf failureSeenByProber "run-1")
   = Some (Some {| status := StatusError; error := Some "boom" |}) /\
   (retryCount <$> recordOf failureSeenByProber "run-1") = Some (Some 0) /\
   (maxRetries <$> recordOf failureSeenByProber "run-1") = Some (Some 2) /\
   (cleanupHandled <$> recordOf failureSeenByProber "run-1") = Some (Some true) /\
   retryDelays (tasks failureSeenByProber) = [] /\
   announcesInFlight failureSeenByProber "run-1" = 1%nat) /\
  ((retryCount <$> recordOf failureSeenByListener "run-1") = Some (Some 1) /\
   (cleanupHandled <$> recordOf failureSeenByListener "run-1") = Some (Some false) /\
   retryDelays (tasks failureSeenByListener) = [10 # 1] /\
   announcesInFlight failureSeenByListener "run-1" = 0%nat) /\
  (forall env st runId wait,
     let st' := exec (waitForSubagentCompletion_reply env runId wait) st in
     pendingRetries st' = pendingRetries st /\
     retryDelays (tasks st') = retryDelays (tasks st) /\
     forall l e, heap st !! l = Some e ->
       exists e', heap st' !! l = Some e' /\ retryCount e' = retryCount e).
Proof.
  split; [vm_compute; repeat split; reflexivity|].
  split; [vm_compute; repeat split; reflexivity|].
  intros env st runId wait st'.
  destruct (wp_exec _ _ _
    (noRetry_waitForSubagentCompletion_reply st st env runId wait (noRetry_refl st)))
    as (a & _ & Hh & Hp & Hd).
  split; [exact Hp|]. split; [exact Hd|]. exact Hh.
Qed.

(** ** The cleanup guard *)

Lemma beginSubagentCleanup_run st runId :
  beginSubagentCleanup runId st =
  match getRun st runId with
  | None => (Normal false, st)
  | Some (l, entry) =>
      if truthyNum (cleanupCompletedAt entry) then (Normal false, st)
      else if truthyBool (cleanupHandled entry) then (Normal false, st)
      else (Normal true,
            persisted (with_heap (alter (set_cleanupHandled (Some true)) l (heap st)) st))
  end.
Proof.
  unfold beginSubagentCleanup, bind, gets, mutate, modify, ret. simpl.
  destruct (getRun st runId) as [[l entry]|]; [|reflexivity].
  destruct (truthyNum (cleanupCompletedAt entry)); [reflexivity|].
  destruct (truthyBool (cleanupHandled entry)); [reflexivity|].
  rewrite persist_run. reflexivity.
Qed.

(** C2, counterexample: with a retry policy, the prober and the listener
    both see the failure of the first attempt.  The prober begins cleanup,
    the listener schedules the retry, and the retry's reset clears
    [cleanupHandled] while the first announce is still in flight; the prober
    of the retry then begins cleanup again.  No finalisation has run, and two
    announces are in flight.  The same at the level of the function: a call
    that returns [true], a failure event and the end of the back-off delay,
    and a second call that returns [true]. *)
Lemma two_cleanups_begun_between_finalisations :
  forallb (fun ee : Env * Event => negb (isFinalisation ee.2)) racingSignals = true /\
  announcesInFlight (run racingSignals (initialState [])) "run-1" = 2%nat /\
  completion (beginSubagentCleanup "run-1") retryRunRegistered = Normal true /\
  completion (beginSubagentCleanup "run-1")
    (run [ (envAt 201, AgentEvent (lifecycle "error" None (Some 200) (Some "boom")));
           (envAt 211, Settle 1 TimerFired) ]
       (exec (beginSubagentCleanup "run-1") retryRunRegistered)) = Normal true.
Proof. vm_compute. repeat split; reflexivity. Qed.

(** ** Retry bound and retry rule *)

Lemma recordOf_heap st r e : recordOf st r = Some e -> exists l, heap st !! l = Some e.
Proof.
  unfold recordOf. destruct (getRun st r) as [[l e']|] eqn:H; [|discriminate].
  intros [= <-]. apply getRun_Some in H as [_ H]. eauto.
Qed.

(** ** Back-off *)

Lemma scheduleTaskRetry_exact env st l e config key :
  heap st !! l = Some e ->
  let k := retryCount e ?? 0 in
  let delay := calculateRetryDelay k config in
  wp (scheduleTaskRetry env l config key)
    (fun _ st' =>
       tasks st' = (tasks st ++ [TRetryDelay l (k + 1) delay key])%list /\
       heap st' !! l
       = Some (set_nextRetryAt (Some (inject_Z (now env) + delay)%Q)
                 (set_retryCount (Some (k + 1)) e)) /\
       subagentRuns st' = subagentRuns st /\
       pendingRetries st' = pendingRetries st) st.
Proof.
  intros He k delay. unfold scheduleTaskRetry. wpx.
  subst delay k. replace (retryCount e ?? 0 + 1 - 1) with (retryCount e ?? 0) by lia.
  repeat split; reflexivity.
Qed.

Lemma scheduleRetries_delays env l config key n :
  forall st e, heap st !! l = Some e ->
    retryDelays (tasks (exec (scheduleRetries env l config key n) st))
    = (retryDelays (tasks st)
       ++ map (fun i : nat => calculateRetryDelay (retryCount e ?? 0 + Z.of_nat i) config)
            (seq 0 n))%list.
Proof.
  induction n as [|n IH]; intros st e He.
  - simpl. rewrite app_nil_r. reflexivity.
  - simpl scheduleRetries. unfold exec, bind.
    destruct (wp_exec _ _ _ (scheduleTaskRetry_exact env st l e config key He))
      as ([] & Hrun & Ht & Hl & _).
    rewrite Hrun. fold (exec (scheduleRetries env l config key n)
                          (exec (scheduleTaskRetry env l config key) st)).
    rewrite (IH _ _ Hl), Ht, retryDelays_app. simpl retryDelays at 2.
    rewrite <- app_assoc. f_equal. cbn [seq map app]. f_equal.
    + f_equal. lia.
    + rewrite <- seq_shift, map_map. apply map_ext. intros i. cbn [retryCount set_nextRetryAt
        set_retryCount nullish]. f_equal. lia.
Qed.



(** ** After cleanup is complete *)

Lemma announcesInFlight_app st0 S r ts :
  tasks S = (tasks st0 ++ ts)%list ->
  Forall (announceOk st0) ts ->
  (exists l e, getRun st0 r = Some (l, e) /\ completed e = true) ->
  announcesInFlight S r = announcesInFlight st0 r.
Proof.
  intros Ht Hok (l & e & Hrun & Hc). unfold announcesInFlight.
  rewrite Ht, List.filter_app, length_app.
  replace (List.filter _ ts) with (@nil Task); [simpl; lia|].
  symmetry. clear Ht. induction Hok as [|t ts Ht' _ IH]; [reflexivity|]. simpl.
  destruct t as [|r' l' p| | | |]; try exact IH.
  destruct (String.eqb_spec r' r) as [->|_]; [|exact IH].
  simpl in Ht'. rewrite (Ht' l e Hrun) in Hc. discriminate.
Qed.

Lemma settled_conclusion st0 S l e :
  framed settledR settledG st0 S ->
  heap st0 !! l = Some e -> completed e = true ->
  subagentRuns S = subagentRuns st0 /\
  (exists e', heap S !! l = Some e' /\
              identity e' = identity e /\
              cleanupCompletedAt e' = cleanupCompletedAt e /\
              cleanupHandled e' = cleanupHandled e) /\
  (forall r, getRun st0 r = Some (l, e) ->
             announcesInFlight S r = announcesInFlight st0 r /\
             completion (beginSubagentCleanup r) S = Normal false).
Proof.
  intros [Hh [Hr (ts & Hts & Hok)]] He Hc.
  destruct (Hh l e He) as (e' & He' & Hi & Hcl). specialize (Hcl Hc).
  unfold cleanupState in Hcl. injection Hcl as Hc1 Hc2.
  split; [exact Hr|]. split; [eauto 6|].
  intros r Hrun. split; [eapply announcesInFlight_app; eauto|].
  unfold completion. rewrite beginSubagentCleanup_run.
  apply getRun_Some in Hrun as [Hrun _].
  unfold getRun. rewrite Hr, Hrun, He'.
  unfold completed in Hc. rewrite Hc1, Hc. reflexivity.
Qed.

(** C4, counterexample: a kept run ended, was announced and finalised at
    210; the [error] event that arrives afterwards overwrites [endedAt] and
    [outcome] of the record. *)
Lemma terminal_event_after_cleanup_overwrites_outcome :
  (cleanupCompletedAt <$> recordOf afterCleanup "run-1") = Some (Some 210) /\
  (endedAt <$> recordOf afterCleanup "run-1") = Some (Some 200) /\
  (outcome <$> recordOf afterCleanup "run-1")
  = Some (Some {| status := StatusOk; error := None |}) /\
  (endedAt <$> recordOf afterLateEvent "run-1") = Some (Some 999) /\
  (outcome <$> recordOf afterLateEvent "run-1")
  = Some (Some {| status := StatusError; error := Some "late" |}).
Proof. vm_compute. repeat split; reflexivity. Qed.

(** C4, as amended: once [cleanupCompletedAt] is set on a record, a
    lifecycle event, a reply to the wait prober or a verification outcome
    leaves the registry map, the identity of the record, its
    [cleanupCompletedAt] and its [cleanupHandled] as they are, starts no
    announce for the run and leaves [beginSubagentCleanup] returning
    [false] for it.  (The other fields are not protected: see the
    counterexample for [endedAt] and [outcome].) *)
Theorem completed_record_keeps_cleanup_state (env : Env) (st : State) (l : loc)
    (e : SubagentRunRecord) (m : M unit) :
  heap st !! l = Some e ->
  completed e = true ->
  (exists evt, m = onLifecycleEvent env evt) \/
  (exists runId wait, m = waitForSubagentCompletion_reply env runId wait) \/
  (exists l' config evtRunId verdict, m = verificationSettled env l' config evtRunId verdict) ->
  let st' := exec m st in
  subagentRuns st' = subagentRuns st /\
  (exists e', heap st' !! l = Some e' /\
              identity e' = identity e /\
              cleanupCompletedAt e' = cleanupCompletedAt e /\
              cleanupHandled e' = cleanupHandled e) /\
  (forall r, getRun st r = Some (l, e) ->
             announcesInFlight st' r = announcesInFlight st r /\
             completion (beginSubagentCleanup r) st' = Normal false).
Proof.
  intros He Hc Hm st'.
  assert (Hf : framed settledR settledG st st').
  { subst st'.
    destruct Hm as [[evt ->]|[(runId & wait & ->)|(l' & config & r & v & ->)]].
    - destruct (wp_exec _ _ _ (settled_onLifecycleEvent st st env evt (settled_refl st)))
        as (a & _ & H). exact H.
    - destruct (wp_exec _ _ _
        (settled_waitForSubagentCompletion_reply st st env runId wait (settled_refl st)))
        as (a & _ & H). exact H.
    - destruct (wp_exec _ _ _
        (settled_verificationSettled st st env l' config r v (settled_refl st)))
        as (a & _ & H). exact H. }
  exact (settled_conclusion st st' l e Hf He Hc).
Qed.

Lemma completed_record_keeps_cleanup_state_witness :
  (heap afterCleanup !! 0%nat = Some recordAfterCleanup /\
   completed recordAfterCleanup = true) /\
  let st' :=
    exec (onLifecycleEvent (envAt 999) (lifecycle "error" None (Some 999) (Some "late")))
      afterCleanup in
  subagentRuns st' = subagentRuns afterCleanup /\
  (exists e', heap st' !! 0%nat = Some e' /\
              identity e' = identity recordAfterCleanup /\
              cleanupCompletedAt e' = cleanupCompletedAt recordAfterCleanup /\
              cleanupHandled e' = cleanupHandled recordAfterCleanup) /\
  (forall r, getRun afterCleanup r = Some (0%nat, recordAfterCleanup) ->
             announcesInFlight st' r = announcesInFlight afterCleanup r /\
             completion (beginSubagentCleanup r) st' = Normal false).
Proof.
  assert (Hl : heap afterCleanup !! 0%nat = Some recordAfterCleanup)
    by (vm_compute; reflexivity).
  assert (Hc : completed recordAfterCleanup = true) by reflexivity.
  split; [split; [exact Hl|exact Hc]|].
  apply (completed_record_keeps_cleanup_state (envAt 999) afterCleanup 0
           recordAfterCleanup _ Hl Hc).
  left. eexists. reflexivity.
Defined.

(** ** Verification with a hook that is not registered *)

(** C6, counterexample: the run is verified by the hook ["check"], which
    nobody registered; after its [end] event the record says
    [verificationResult = "passed"], not ["skipped"]. *)
Lemma missing_hook_is_recorded_as_passed_not_skipped :
  verificationHooks missingHookState !! "check" = None /\
  (verificationAttempted <$> recordOf missingHookState "run-1") = Some (Some true) /\
  (verificationResult <$> recordOf missingHookState "run-1") = Some (Some VerdictPassed) /\
  (verificationResult <$> recordOf missingHookState "run-1") <> Some (Some VerdictSkipped).
Proof.
  vm_compute. split; [reflexivity|]. split; [reflexivity|]. split; [reflexivity|].
  discriminate.
Qed.

Lemma handleTaskCompletion_missing_hook (env : Env) (st : State) (l : loc)
    (entry : SubagentRunRecord) (config : Resolved.t) (evtRunId : string) :
  getRun st evtRunId = Some (l, entry) ->
  outcomeIsError entry = false ->
  Resolved.verifyCompletion config = true ->
  truthyStr (Resolved.verificationHook config) = true ->
  verificationHooks st !! Resolved.verificationHook config = None ->
  let verified :=
    set_verificationResult (Some VerdictPassed)
      (set_verificationAttempted (Some true) entry) in
  wp (handleTaskCompletion env l config evtRunId)
    (fun _ st' =>
       if (truthyNum (cleanupCompletedAt entry) || truthyBool (cleanupHandled entry))%bool
       then heap st' !! l = Some verified /\ tasks st' = tasks st
       else heap st' !! l = Some (set_cleanupHandled (Some true) verified) /\
            tasks st'
            = (tasks st
               ++ [TAnnounce evtRunId l
                     (announceParams (set_cleanupHandled (Some true) verified))])%list) st.
Proof.
  intros Hrun Herr Hv Hh Hnone verified. subst verified.
  pose proof (proj1 (getRun_Some _ _ _ _) Hrun) as [Hr He].
  destruct (truthyNum (cleanupCompletedAt entry)) eqn:Hc;
    [|destruct (truthyBool (cleanupHandled entry)) eqn:Hd]; cbn [orb].
  all: unfold handleTaskCompletion; wpx;
       unfold verifyTaskCompletion; wpx;
       unfold handleTaskCompletion_verdict; wpx;
       unfold taskCompletionHandled; wpx;
       unfold proceedWithCleanup, beginSubagentCleanup; wpx;
       unfold startAnnounce; wpx; split; reflexivity.
Qed.

(** C6, as amended: when verification is entered for a run that ended well,
    with a non-empty [verificationHook] that is not in the hook registry, the
    record gets [verificationAttempted = true] and
    [verificationResult = "passed"] (the missing hook counts as a pass), and
    the run proceeds to cleanup: if the guard lets it begin, [cleanupHandled]
    is set and the announce is started with that verdict. *)
Theorem missing_hook_counts_as_passed (env : Env) (st : State) (l : loc)
    (entry : SubagentRunRecord) (config : Resolved.t) (evtRunId : string) :
  getRun st evtRunId = Some (l, entry) ->
  outcomeIsError entry = false ->
  Resolved.verifyCompletion config = true ->
  truthyStr (Resolved.verificationHook config) = true ->
  verificationHooks st !! Resolved.verificationHook config = None ->
  let st' := exec (handleTaskCompletion env l config evtRunId) st in
  let verified :=
    set_verificationResult (Some VerdictPassed)
      (set_verificationAttempted (Some true) entry) in
  if (truthyNum (cleanupCompletedAt entry) || truthyBool (cleanupHandled entry))%bool
  then heap st' !! l = Some verified /\ tasks st' = tasks st
  else heap st' !! l = Some (set_cleanupHandled (Some true) verified) /\
       tasks st'
       = (tasks st
          ++ [TAnnounce evtRunId l
                (announceParams (set_cleanupHandled (Some true) verified))])%list.
Proof.
  intros Hrun Herr Hv Hh Hnone.
  destruct (wp_exec _ _ _
    (handleTaskCompletion_missing_hook env st l entry config evtRunId Hrun Herr Hv Hh Hnone))
    as (a & _ & H).
  exact H.
Qed.

Lemma missing_hook_counts_as_passed_witness :
  (getRun hookRunEnded "run-1" = Some (0%nat, hookRunEndedRecord) /\
   outcomeIsError hookRunEndedRecord = false /\
   Resolved.verifyCompletion
     (resolveOrchestrationConfig (loadConfig (envAt 200)) (Some hookPolicy)) = true /\
   truthyStr (Resolved.verificationHook
     (resolveOrchestrationConfig (loadConfig (envAt 200)) (Some hookPolicy))) = true /\
   verificationHooks hookRunEnded !! "check" = None) /\
  let st' :=
    exec (handleTaskCompletion (envAt 200) 0
            (resolveOrchestrationConfig (loadConfig (envAt 200)) (Some hookPolicy)) "run-1")
      hookRunEnded in
  (verificationResult <$> heap st' !! 0%nat) = Some (Some VerdictPassed) /\
  announcesInFlight st' "run-1" = 1%nat.
Proof.
  assert (H1 : getRun hookRunEnded "run-1" = Some (0%nat, hookRunEndedRecord))
    by (vm_compute; reflexivity).
  assert (H2 : verificationHooks hookRunEnded !! "check" = None)
    by (vm_compute; reflexivity).
  split; [repeat split; solve [exact H1 | exact H2 | reflexivity]|].
  pose proof (missing_hook_counts_as_passed (envAt 200) hookRunEnded 0 hookRunEndedRecord
                (resolveOrchestrationConfig (loadConfig (envAt 200)) (Some hookPolicy))
                "run-1" H1 eq_refl eq_refl eq_refl H2) as H.
  cbv zeta in H. cbn [orb truthyNum truthyBool cleanupCompletedAt cleanupHandled
                      hookRunEndedRecord] in H.
  destruct H as [Hh Ht]. cbv zeta. unfold announcesInFlight. rewrite Hh, Ht.
  split; reflexivity.
Defined.

Lemma finalizeSubagentCleanup_cases_witness :
  getRun retryRunRegistered "run-1" = Some (0%nat, registeredRecord) /\
  let st' :=
    exec (finalizeSubagentCleanup (envAt 300) "run-1" CleanupKeep false) retryRunRegistered in
  completion (finalizeSubagentCleanup (envAt 300) "run-1" CleanupKeep false)
    retryRunRegistered = Normal tt /\
  st' = persisted (with_heap (alter (set_cleanupHandled (Some false)) 0%nat
                                (heap retryRunRegistered)) retryRunRegistered) /\
  recordOf st' "run-1" = Some (set_cleanupHandled (Some false) registeredRecord) /\
  (cleanupHandled <$> recordOf st' "run-1") = Some (Some false) /\
  (cleanupCompletedAt <$> recordOf st' "run-1") = Some (cleanupCompletedAt registeredRecord).
Proof.
  assert (H : getRun retryRunRegistered "run-1" = Some (0%nat, registeredRecord))
    by (vm_compute; reflexivity).
  split; [exact H|].
  exact (finalizeSubagentCleanup_cases (envAt 300) retryRunRegistered "run-1" 0
           registeredRecord CleanupKeep false H).
Defined.

(** ** Registration *)

Lemma lookup_snoc_length {A : Type} (h : list A) (x : A) :
  (h ++ [x])%list !! length h = Some x.
Proof. apply list_lookup_middle. reflexivity. Qed.

(** What [registerSubagentRun] does to the store and to the registry. *)
Lemma registerSubagentRun_effect env params st :
  wp (registerSubagentRun env params)
    (fun _ st' =>
       heap st' = (heap st ++ [newRunRecord env params])%list /\
       subagentRuns st' = <[Params.runId params := length (heap st)]> (subagentRuns st)) st.
Proof.
  unfold registerSubagentRun, ensureListener, startSweeper, waitForSubagentCompletion.
  repeat first [wpx_step | wp_step]; split; reflexivity.
Qed.

(** C10: registering a run id that is already registered does not fail; it
    stores a new record object under the id, which depends on the arguments
    and on the configuration only: [retryCount = 0], [cleanupHandled = false],
    no outcome, no end time, no verification state.  The object registered
    before is no longer in the map (and is itself left as it was). *)
Theorem register_overwrites_existing_record (env : Env) (params : Params.t) (st : State) :
  let r := Params.runId params in
  let st' := exec (registerSubagentRun env params) st in
  let e := newRunRecord env params in
  completion (registerSubagentRun env params) st = Normal tt /\
  getRun st' r = Some (length (heap st), e) /\
  (retryCount e = Some 0 /\ cleanupHandled e = Some false /\
   outcome e = None /\ endedAt e = None /\ cleanupCompletedAt e = None /\
   nextRetryAt e = None /\ isRetry e = None /\
   verificationAttempted e = None /\ verificationResult e = None /\
   createdAt e = now env /\ startedAt e = Some (now env)) /\
  (forall l e0, getRun st r = Some (l, e0) ->
     l <> length (heap st) /\ heap st' !! l = Some e0).
Proof.
  cbv zeta.
  destruct (wp_exec _ _ _ (registerSubagentRun_effect env params st))
    as ([] & Hrun & Hh & Hr).
  split; [unfold completion; rewrite Hrun; reflexivity|].
  split; [|split].
  - unfold getRun. rewrite Hr, Hh, lookup_insert_eq, lookup_snoc_length. reflexivity.
  - repeat split; reflexivity.
  - intros l e0 H0. apply getRun_Some in H0 as [_ H0].
    pose proof (lookup_lt_Some _ _ _ H0) as Hlt. split; [lia|].
    rewrite Hh, lookup_app_l by exact Hlt. exact H0.
Qed.

(** ** [startedAt] *)

(** C8, counterexample: right after registration at time 50, before any
    lifecycle event or prober reply, the record has [startedAt = 50]. *)
Lemma startedAt_is_set_by_registration :
  tasks retryRunRegistered = [TWait "run-1" 600000] /\
  (startedAt <$> recordOf retryRunRegistered "run-1") = Some (Some 50) /\
  (startedAt <$> recordOf retryRunRegistered "run-1") <> Some None.
Proof. vm_compute. split; [reflexivity|]. split; [reflexivity|discriminate]. Qed.

Lemma phaseIs_start_not_terminal evt :
  phaseIs "start" evt = true -> phaseIs "end" evt = false /\ phaseIs "error" evt = false.
Proof.
  unfold phaseIs. destruct (Evt.data evt ≫= Evt.phase) as [p|]; [|discriminate].
  intros H. apply String.eqb_eq in H. subst p. split; reflexivity.
Qed.

(** C8, as amended: registration itself sets [startedAt] (and [createdAt])
    to the registration time.  A later [start] lifecycle event for the run
    overwrites [startedAt] when it carries a [startedAt] that is a number
    other than 0, and changes nothing otherwise. *)
Theorem startedAt_registration_then_start_events (env : Env) (params : Params.t)
    (st : State) :
  (let st' := exec (registerSubagentRun env params) st in
   (startedAt <$> recordOf st' (Params.runId params)) = Some (Some (now env)) /\
   (createdAt <$> recordOf st' (Params.runId params)) = Some (now env)) /\
  (forall (evt : Evt.t) l e,
     Evt.stream evt = "lifecycle" ->
     phaseIs "start" evt = true ->
     getRun st (Evt.runId evt) = Some (l, e) ->
     let st' := exec (onLifecycleEvent env evt) st in
     if truthyNum (Evt.data evt ≫= Evt.startedAt)
     then recordOf st' (Evt.runId evt)
          = Some (set_startedAt (Evt.data evt ≫= Evt.startedAt) e)
     else st' = st).
Proof.
  split.
  - destruct (wp_exec _ _ _ (registerSubagentRun_effect env params st))
      as ([] & _ & Hh & Hr).
    cbv zeta. unfold recordOf, getRun.
    rewrite Hr, Hh, lookup_insert_eq, lookup_snoc_length. split; reflexivity.
  - intros evt l e Hstream Hphase Hrun. cbv zeta.
    unfold exec, onLifecycleEvent, bind, gets, mutate, modify, ret.
    rewrite Hstream. simpl. rewrite Hrun, Hphase.
    destruct (truthyNum (Evt.data evt ≫= Evt.startedAt)); [|reflexivity].
    simpl. rewrite persist_run. simpl.
    unfold recordOf. rewrite getRun_persisted, (getRun_alter _ _ _ _ _ Hrun). reflexivity.
Qed.

(** ** The listener's retry decision *)

Lemma quiet_refl st : framed quietR noRetryG st st.
Proof.
  split.
  - intros l e He. exists e. split; [exact He|split; reflexivity].
  - split; reflexivity.
Qed.

Ltac quiet_side :=
  first
    [ exact noRetryG_heap
    | exact noRetryG_store
    | intros ? ? _ [? ?]; split; assumption
    | match goal with
      | H : framed _ _ _ _ |- _ => apply noRetryG_spawn; [exact (proj2 H)|reflexivity]
      end ].

Create HintDb quietops discriminated.

Ltac quiet_call H :=
  eapply wp_mono; [solve [eauto 3 with quietops] | clear H; intros ? ? H; cbv beta in H].

Ltac wpq H := wpf H quiet_side ltac:(quiet_call).

Lemma quiet_beginSubagentCleanup st0 st runId :
  framed quietR noRetryG st0 st ->
  wp (beginSubagentCleanup runId) (fun _ st' => framed quietR noRetryG st0 st') st.
Proof. intros H. unfold beginSubagentCleanup. wpq H. Qed.

Lemma quiet_startAnnounce st0 st runId l :
  framed quietR noRetryG st0 st ->
  wp (startAnnounce runId l) (fun _ st' => framed quietR noRetryG st0 st') st.
Proof. intros H. unfold startAnnounce. wpq H. Qed.

#[local] Hint Resolve quiet_beginSubagentCleanup quiet_startAnnounce : quietops.

Lemma quiet_taskCompletionHandled st0 st r l :
  framed quietR noRetryG st0 st ->
  wp (taskCompletionHandled r l) (fun _ st' => framed quietR noRetryG st0 st') st.
Proof. intros H. unfold taskCompletionHandled, proceedWithCleanup. wpq H. Qed.

#[local] Hint Resolve quiet_taskCompletionHandled : quietops.

(** For a run that ended well, the synchronous part of the verification
    fails no verdict. *)
Lemma quiet_verifyTaskCompletion st0 st l e0 config :
  framed quietR noRetryG st0 st ->
  heap st0 !! l = Some e0 -> outcomeIsError e0 = false ->
  wp (verifyTaskCompletion l config)
    (fun v st' => framed quietR noRetryG st0 st' /\
                  forall r, v = VerdictNow r -> passed r = true) st.
Proof.
  intros H He0 Herr. unfold verifyTaskCompletion. wpq H.
  all: try (split; [exact H|]; intros r [= <-]; reflexivity).
  all: try (split; [exact H|]; intros r; discriminate).
  (* the built-in check reads the outcome, which is the one of [e0] *)
  exfalso.
  match goal with
  | He : heap _ !! l = Some ?e, Hc : outcomeIsError ?e = true |- _ =>
      destruct H as [Hh _]; destruct (Hh l e0 He0) as (e' & He' & _ & Ho);
      assert (e' = e) as -> by congruence;
      unfold outcomeIsError in *; rewrite Ho, Herr in Hc; discriminate
  end.
Qed.

Lemma quiet_handleTaskCompletion_verdict st0 st env l config r :
  framed quietR noRetryG st0 st -> passed r = true ->
  wp (handleTaskCompletion_verdict env l config r)
    (fun _ st' => framed quietR noRetryG st0 st') st.
Proof. intros H Hp. unfold handleTaskCompletion_verdict. rewrite Hp. wpq H. Qed.

Lemma quiet_handleTaskCompletion st env l e config r :
  heap st !! l = Some e -> outcomeIsError e = false ->
  wp (handleTaskCompletion env l config r)
    (fun _ st' => framed quietR noRetryG st st') st.
Proof.
  intros He Herr. pose proof (quiet_refl st) as H.
  unfold handleTaskCompletion, withEntry. eapply wp_withEntryOr_known; [exact He|].
  rewrite Herr. destruct (Resolved.verifyCompletion config); [|wpq H].
  apply wp_bind. eapply wp_mono; [eapply quiet_verifyTaskCompletion; eauto|].
  clear H. intros v S [H Hv]. destruct v as [r'| |]; [|wpq H..].
  apply wp_bind. eapply wp_mono;
    [apply quiet_handleTaskCompletion_verdict; [exact H|apply Hv; reflexivity]|].
  clear H. intros a S' H. cbv beta in H. wpq H.
Qed.

Lemma phaseIs_error_not_start evt :
  phaseIs "error" evt = true -> phaseIs "start" evt = false /\ phaseIs "end" evt = false.
Proof.
  unfold phaseIs. destruct (Evt.data evt ≫= Evt.phase) as [p|]; [|discriminate].
  intros H. apply String.eqb_eq in H. subst p. split; reflexivity.
Qed.

Lemma phaseIs_end_not_start evt :
  phaseIs "end" evt = true -> phaseIs "start" evt = false /\ phaseIs "error" evt = false.
Proof.
  unfold phaseIs. destruct (Evt.data evt ≫= Evt.phase) as [p|]; [|discriminate].
  intros H. apply String.eqb_eq in H. subst p. split; reflexivity.
Qed.

Lemma quiet_begin_then_announce S r l :
  wp (beginSubagentCleanup r)
    (fun ok st' =>
       wp (if negb ok then ret tt else startAnnounce r l)
         (fun _ s => framed quietR noRetryG S s) st') S.
Proof.
  eapply wp_mono; [apply quiet_beginSubagentCleanup, quiet_refl|].
  intros ok S1 H. destruct ok; simpl.
  - apply quiet_startAnnounce, H.
  - exact H.
Qed.

Lemma quiet_noRetryScheduled st S s l e e1 :
  framed quietR noRetryG S s ->
  tasks S = tasks st -> pendingRetries S = pendingRetries st ->
  heap S !! l = Some e1 -> retryCount e1 = retryCount e ->
  noRetryScheduled st s l e.
Proof.
  intros [Hh [Hp Hd]] Ht Hpend He1 Hrc.
  destruct (Hh l e1 He1) as (e' & He' & Hrc' & _).
  unfold noRetryScheduled. rewrite Hd, Hp, Ht, Hpend, He'. simpl.
  repeat split. congruence.
Qed.

(** On a terminal lifecycle event for a registered run with no retry
    pending, the listener schedules a retry exactly when the policy of the
    record enables [retryOnFailure], its [retryCount] is below [maxRetries]
    and the event is a failure. *)
Lemma onLifecycleEvent_retry_decision env st evt l e :
  getRun st (Evt.runId evt) = Some (l, e) ->
  Evt.stream evt = "lifecycle" ->
  (phaseIs "end" evt || phaseIs "error" evt)%bool = true ->
  Evt.runId evt ∉ pendingRetries st ->
  let config := resolveOrchestrationConfig (loadConfig env) (orchestrationConfig e) in
  let st' := exec (onLifecycleEvent env evt) st in
  if (Resolved.retryOnFailure config
      && (retryCount e ?? 0 <? Resolved.maxRetries config)
      && phaseIs "error" evt)%bool
  then retryScheduled env st st' l e config (Evt.runId evt)
  else noRetryScheduled st st' l e.
Proof.
  intros Hrun Hstream Hterm Hpend config st'. subst st'.
  pose proof (proj1 (getRun_Some _ _ _ _) Hrun) as [Hr He].
  match goal with
  | |- if ?c then ?A (exec ?m st) ?a ?b ?c' ?d else ?B (exec ?m st) ?x ?y =>
      assert (Hwp : wp m (fun _ s => if c then A s a b c' d else B s x y) st);
      [|destruct (wp_exec _ _ _ Hwp) as (? & _ & ?); assumption]
  end.
  assert (Hstart : phaseIs "start" evt = false).
  { destruct (phaseIs "error" evt) eqn:Herr; [apply phaseIs_error_not_start, Herr|].
    rewrite orb_false_r in Hterm. apply phaseIs_end_not_start, Hterm. }
  assert (Hnotboth : (negb (phaseIs "end" evt) && negb (phaseIs "error" evt))%bool = false).
  { rewrite <- negb_orb, Hterm. reflexivity. }
  assert (Hdec : bool_decide (Evt.runId evt ∈ pendingRetries st) = false).
  { apply bool_decide_eq_false. exact Hpend. }
  (* what remains once the listener decided against a retry *)
  assert (Htail : forall S e1,
    tasks S = tasks st -> pendingRetries S = pendingRetries st ->
    heap S !! l = Some e1 -> retryCount e1 = retryCount e ->
    wp (beginSubagentCleanup (Evt.runId evt))
      (fun ok st' =>
         wp (if negb ok then ret tt else startAnnounce (Evt.runId evt) l)
           (fun _ s => noRetryScheduled st s l e) st') S).
  { intros S e1 Ht Hp He1 Hrc.
    eapply wp_mono; [apply quiet_begin_then_announce|].
    intros ok S1 H1. eapply wp_mono; [exact H1|].
    intros a s Hs. cbv beta in Hs. eapply quiet_noRetryScheduled; eauto. }
  assert (Hverify : forall S e1,
    tasks S = tasks st -> pendingRetries S = pendingRetries st ->
    heap S !! l = Some e1 -> retryCount e1 = retryCount e -> outcomeIsError e1 = false ->
    wp (handleTaskCompletion env l config (Evt.runId evt))
      (fun _ s => noRetryScheduled st s l e) S).
  { intros S e1 Ht Hp He1 Hrc Hok.
    eapply wp_mono; [apply (quiet_handleTaskCompletion S env l e1); assumption|].
    intros a s Hs. cbv beta in Hs. eapply quiet_noRetryScheduled; eauto. }
  unfold onLifecycleEvent. rewrite Hstream.
  change (negb (String.eqb "lifecycle" "lifecycle")) with false. cbv iota.
  apply wp_bind, wp_gets. cbv beta. rewrite Hrun, Hstart, Hnotboth.
  unfold shouldRetryTask.
  destruct (phaseIs "error" evt) eqn:Herr.
  - (* a failure *)
    rewrite andb_true_r. wpx. fold config.
    destruct (Resolved.retryOnFailure config) eqn:Hrf; cbn [negb andb].
    + destruct (Z.ltb_spec (retryCount e ?? 0) (Resolved.maxRetries config)) as [Hlt|Hge].
      * destruct (Z.leb_spec (Resolved.maxRetries config) (retryCount e ?? 0)); [lia|].
        wpx.
        eapply wp_mono; [apply scheduleTaskRetry_exact; known; reflexivity|].
        intros a S (Ht & Hl & _ & Hp). cbn [retryCount set_outcome set_endedAt] in *.
        unfold retryScheduled. cbv zeta. rewrite Ht, Hl, Hp. repeat split; reflexivity.
      * destruct (Z.leb_spec (Resolved.maxRetries config) (retryCount e ?? 0)); [|lia].
        wpx. eapply Htail; [reflexivity|reflexivity|known; reflexivity|reflexivity].
    + wpx. eapply Htail; [reflexivity|reflexivity|known; reflexivity|reflexivity].
  - (* a success *)
    rewrite andb_false_r. wpx. fold config.
    destruct (Resolved.verifyCompletion config) eqn:Hvc; wpx.
    + destruct (bool_decide (Evt.runId evt ∈ pendingVerifications st)) eqn:Hpv; wpx.
      * unfold noRetryScheduled. known. repeat split; reflexivity.
      * eapply Hverify; [reflexivity|reflexivity|known; reflexivity|reflexivity|reflexivity].
    + eapply Htail; [reflexivity|reflexivity|known; reflexivity|reflexivity].
Qed.



(** ** What opens the cleanup guard again *)

Section Closed.
Variable r : string.
Variable lr : loc.

Lemma closedG_heap st0 S h : closedG r lr st0 S -> closedG r lr st0 (with_heap h S).
Proof. exact id. Qed.

Lemma closedG_store st0 S s : closedG r lr st0 S -> closedG r lr st0 (with_store s S).
Proof. exact id. Qed.

Lemma closedG_delete st0 S k :
  closedG r lr st0 S -> closedG r lr st0 (with_subagentRuns (delete k (subagentRuns S)) S).
Proof.
  unfold closedG. simpl. intros Hg. destruct (decide (k = r)) as [->|Hne].
  - left. apply lookup_delete_eq.
  - rewrite lookup_delete_ne by exact Hne. exact Hg.
Qed.

Lemma closedG_insert st0 S k l :
  k <> r -> closedG r lr st0 S ->
  closedG r lr st0 (with_subagentRuns (<[k := l]> (subagentRuns S)) S).
Proof.
  unfold closedG. simpl. intros Hne Hg. rewrite lookup_insert_ne by exact Hne. exact Hg.
Qed.

Lemma closedG_filter st0 S (P : string * loc -> Prop) `{!forall kv, Decision (P kv)} :
  closedG r lr st0 S -> closedG r lr st0 (with_subagentRuns (filter P (subagentRuns S)) S).
Proof.
  unfold closedG. simpl. intros Hg.
  destruct (filter P (subagentRuns S) !! r) as [l|] eqn:Hl; [|left; reflexivity].
  apply map_lookup_filter_Some in Hl as [Hl _]. right.
  destruct Hg as [Hg|[Hg Hg0]]; [congruence|]. split; [congruence|exact Hg0].
Qed.

Lemma closedG_empty st0 S : closedG r lr st0 (with_subagentRuns ∅ S).
Proof. left. apply lookup_empty. Qed.

Lemma closed_refl st :
  (forall l, subagentRuns st !! r = Some l -> l = lr) ->
  framed (closedR lr) (closedG r lr) st st.
Proof.
  intros Hr. split.
  - intros l e He. exists e. split; [exact He|]. intros _ Hc. exact Hc.
  - unfold closedG. destruct (subagentRuns st !! r) as [l|] eqn:Hl; [|left; reflexivity].
    right. rewrite (Hr l eq_refl). split; reflexivity.
Qed.

Lemma closed_handled e0 e l :
  closedR lr l e0 (set_cleanupHandled (Some true) e).
Proof. intros _ _. unfold closed. simpl. apply orb_true_r. Qed.

Lemma closed_completedAt t e0 e l :
  t <> 0 -> closedR lr l e0 (set_cleanupCompletedAt (Some t) e).
Proof.
  intros Ht _ _. unfold closed, truthyNum. simpl.
  destruct (Z.eqb_spec t 0); [contradiction|reflexivity].
Qed.

(** Side conditions of this frame: an assignment that leaves the guard
    closed, a change of the registry that leaves the run where it is. *)
Ltac closed_side :=
  first
    [ exact closedG_heap
    | exact closedG_store
    | intros ? ? _ HR; exact HR
    | intros ? ? _ _; apply closed_handled
    | intros ? ? _ _; apply closed_completedAt; assumption
    | intros ? ? _ _ Heq; exfalso; congruence
    | match goal with
      | H : framed _ _ _ _ |- _ =>
          first [ apply closedG_delete, (proj2 H)
                | apply closedG_filter, (proj2 H)
                | apply closedG_empty
                | apply closedG_insert; [assumption|exact (proj2 H)] ]
      end ].

Create HintDb closedops discriminated.

Ltac closed_call H :=
  eapply wp_mono; [solve [eauto 3 with closedops] | clear H; intros ? ? H; cbv beta in H].

Ltac wpc H := wpf H closed_side ltac:(closed_call).

Local Abbreviation keeps m :=
  (forall st0 st, framed (closedR lr) (closedG r lr) st0 st ->
     wp m (fun _ st' => framed (closedR lr) (closedG r lr) st0 st') st).

Lemma closed_beginSubagentCleanup runId : keeps (beginSubagentCleanup runId).
Proof. intros st0 st H. unfold beginSubagentCleanup. wpc H. Qed.

Lemma closed_startAnnounce runId l : keeps (startAnnounce runId l).
Proof. intros st0 st H. unfold startAnnounce. wpc H. Qed.

#[local] Hint Resolve closed_beginSubagentCleanup closed_startAnnounce : closedops.

Lemma closed_proceedWithCleanup runId l : keeps (proceedWithCleanup runId l).
Proof. intros st0 st H. unfold proceedWithCleanup. wpc H. Qed.

Lemma closed_waitForSubagentCompletion runId t : keeps (waitForSubagentCompletion runId t).
Proof. intros st0 st H. unfold waitForSubagentCompletion. wpc H. Qed.

#[local] Hint Resolve closed_proceedWithCleanup closed_waitForSubagentCompletion : closedops.

Lemma closed_waitForSubagentCompletion_reply env runId wait :
  keeps (waitForSubagentCompletion_reply env runId wait).
Proof. intros st0 st H. unfold waitForSubagentCompletion_reply. wpc H. Qed.

Lemma closed_scheduleTaskRetry env l config key : keeps (scheduleTaskRetry env l config key).
Proof. intros st0 st H. unfold scheduleTaskRetry. wpc H. Qed.

Lemma closed_verifyTaskCompletion l config : keeps (verifyTaskCompletion l config).
Proof. intros st0 st H. unfold verifyTaskCompletion. wpc H. Qed.

Lemma closed_taskCompletionHandled runId l : keeps (taskCompletionHandled runId l).
Proof. intros st0 st H. unfold taskCompletionHandled. wpc H. Qed.

#[local] Hint Resolve closed_scheduleTaskRetry closed_verifyTaskCompletion
  closed_taskCompletionHandled : closedops.

Lemma closed_handleTaskCompletion_verdict env l config v :
  keeps (handleTaskCompletion_verdict env l config v).
Proof. intros st0 st H. unfold handleTaskCompletion_verdict. wpc H. Qed.

#[local] Hint Resolve closed_handleTaskCompletion_verdict : closedops.

Lemma closed_handleTaskCompletion env l config runId :
  keeps (handleTaskCompletion env l config runId).
Proof. intros st0 st H. unfold handleTaskCompletion. wpc H. Qed.

Lemma closed_verificationSettled env l config runId v :
  keeps (verificationSettled env l config runId v).
Proof. intros st0 st H. unfold verificationSettled. wpc H. Qed.

#[local] Hint Resolve closed_handleTaskCompletion closed_verificationSettled : closedops.

Lemma closed_onLifecycleEvent env evt : keeps (onLifecycleEvent env evt).
Proof. intros st0 st H. unfold onLifecycleEvent. wpc H. Qed.

Lemma closed_scheduleTaskRetry_afterStart env l started key :
  keeps (scheduleTaskRetry_afterStart env l started key).
Proof. intros st0 st H. unfold scheduleTaskRetry_afterStart, retrySettled. wpc H. Qed.

Lemma closed_finalizeSubagentCleanup env runId cleanup didAnnounce st0 st :
  now env <> 0 ->
  (didAnnounce = false -> subagentRuns st !! runId <> Some lr) ->
  framed (closedR lr) (closedG r lr) st0 st ->
  wp (finalizeSubagentCleanup env runId cleanup didAnnounce)
    (fun _ st' => framed (closedR lr) (closedG r lr) st0 st') st.
Proof.
  intros Hnow Hother H. unfold finalizeSubagentCleanup.
  apply wp_bind, wp_gets. cbv beta.
  destruct (getRun st runId) as [[l e]|] eqn:Hrun; [|exact H].
  apply getRun_Some in Hrun as [Hr _].
  destruct cleanup; [wpc H|].
  destruct didAnnounce; simpl; [wpc H|].
  assert (Hl : l <> lr) by (intros ->; apply Hother; [reflexivity|exact Hr]).
  wpc H.
Qed.

Lemma closed_announceSettled env runId l didAnnounce st0 st :
  now env <> 0 ->
  (didAnnounce = false -> subagentRuns st !! runId <> Some lr) ->
  framed (closedR lr) (closedG r lr) st0 st ->
  wp (announceSettled env runId l didAnnounce)
    (fun _ st' => framed (closedR lr) (closedG r lr) st0 st') st.
Proof.
  intros Hnow Hother H. unfold announceSettled, withEntry.
  apply wp_withEntryOr; [intros e _|intros _; exact H].
  apply closed_finalizeSubagentCleanup; assumption.
Qed.

Lemma closed_scheduleTaskRetry_afterDelay env l retryCount key st0 st :
  (forall e, heap st !! l = Some e -> subagentRuns st !! runId e <> Some lr) ->
  framed (closedR lr) (closedG r lr) st0 st ->
  wp (scheduleTaskRetry_afterDelay env l retryCount key)
    (fun _ st' => framed (closedR lr) (closedG r lr) st0 st') st.
Proof.
  intros Hother H. unfold scheduleTaskRetry_afterDelay, retrySettled.
  apply wp_withEntryOr; [intros e He|intros _; wpc H].
  apply wp_bind, wp_gets. cbv beta.
  destruct (getRun st (runId e)) as [[cl cur]|] eqn:Hrun; [|wpc H].
  apply getRun_Some in Hrun as [Hr _].
  assert (Hl : cl <> lr) by (intros ->; exact (Hother e He Hr)).
  wpc H.
Qed.

Lemma closed_ensureListener : keeps ensureListener.
Proof. intros st0 st H. unfold ensureListener. wpc H. Qed.

Lemma closed_startSweeper : keeps startSweeper.
Proof. intros st0 st H. unfold startSweeper. wpc H. Qed.

Lemma closed_stopSweeper : keeps stopSweeper.
Proof. intros st0 st H. unfold stopSweeper. wpc H. Qed.

#[local] Hint Resolve closed_ensureListener closed_startSweeper closed_stopSweeper : closedops.

Lemma closed_sweepSubagentRuns env : keeps (sweepSubagentRuns env).
Proof. intros st0 st H. unfold sweepSubagentRuns. wpc H. Qed.

Lemma closed_releaseSubagentRun runId : keeps (releaseSubagentRun runId).
Proof. intros st0 st H. unfold releaseSubagentRun. wpc H. Qed.

Lemma closed_resetSubagentRegistryForTests : keeps resetSubagentRegistryForTests.
Proof. intros st0 st H. unfold resetSubagentRegistryForTests. wpc H. Qed.

Lemma closed_registerVerificationHook name hook : keeps (registerVerificationHook name hook).
Proof. intros st0 st H. unfold registerVerificationHook. wpc H. Qed.

Lemma closed_unregisterVerificationHook name : keeps (unregisterVerificationHook name).
Proof. intros st0 st H. unfold unregisterVerificationHook. wpc H. Qed.

Lemma closed_registerSubagentRun env params st0 st :
  Params.runId params <> r ->
  framed (closedR lr) (closedG r lr) st0 st ->
  wp (registerSubagentRun env params)
    (fun _ st' => framed (closedR lr) (closedG r lr) st0 st') st.
Proof.
  intros Hne H. unfold registerSubagentRun.
  apply wp_bind. eapply wpf_alloc; [exact closedG_heap|exact H|].
  clear H. intros l S H. wpc H.
Qed.

Lemma closed_resumeSubagentRun env runId : keeps (resumeSubagentRun env runId).
Proof. intros st0 st H. unfold resumeSubagentRun. wpc H. Qed.

#[local] Hint Resolve closed_resumeSubagentRun : closedops.

(** The restore keeps the entries that the registry holds. *)
Lemma closed_restoreSubagentRunsOnce env restored st0 st :
  subagentRuns st !! r = Some lr ->
  framed (closedR lr) (closedG r lr) st0 st ->
  wp (restoreSubagentRunsOnce env restored)
    (fun _ st' => framed (closedR lr) (closedG r lr) st0 st') st.
Proof.
  intros Hr H. unfold restoreSubagentRunsOnce.
  apply wp_bind, wp_gets. cbv beta. destruct (restoreAttempted st); [exact H|].
  apply wp_bind, wp_modify. cbv beta.
  destruct restored as [[|kv entries]|]; [exact H| |exact H].
  apply wp_bind.
  eapply wp_mono;
    [apply (wp_forEach (fun S => framed (closedR lr) (closedG r lr) st0 S /\
                                 subagentRuns S !! r = Some lr))|].
  - split; [exact H|exact Hr].
  - clear H Hr. intros x S _ [H Hr]. apply wp_bind, wp_gets. cbv beta.
    destruct (truthyStr x.1); simpl; [|split; assumption].
    destruct (bool_decide (is_Some (subagentRuns S !! x.1))) eqn:Hp; [split; assumption|].
    assert (Hne : x.1 <> r).
    { intros Heq. apply bool_decide_eq_false in Hp. apply Hp. rewrite Heq, Hr. eauto. }
    assert (H' : wp (alloc x.2) (fun _ S' => framed (closedR lr) (closedG r lr) st0 S') S)
      by (eapply wpf_alloc; [exact closedG_heap|exact H|intros ? ? h; exact h]).
    change (framed (closedR lr) (closedG r lr) st0 (with_heap (heap S ++ [x.2]) S)) in H'.
    apply wp_bind, wp_alloc, wp_modify. split.
    + eapply framed_rest; [exact H'|reflexivity|].
      apply closedG_insert; [exact Hne|exact (proj2 H')].
    + simpl. rewrite lookup_insert_ne by exact Hne. exact Hr.
  - clear H Hr. intros a S [H _]. cbv beta. wpc H.
    all: eapply wp_mono;
      [ apply (wp_forEach (fun S' => framed (closedR lr) (closedG r lr) st0 S'));
        [exact H|intros x S' _ H'; apply closed_resumeSubagentRun, H']
      | intros ? ? H'; exact H' ].
Qed.

(** A turn that is none of the reopening ones leaves the guard of the run
    closed and the run where it is, or removes it. *)
Lemma closed_step env ev st :
  (forall l, subagentRuns st !! r = Some l -> l = lr) ->
  now env <> 0 -> reopens st ev r lr = false ->
  wp (step env ev) (fun _ st' => framed (closedR lr) (closedG r lr) st st') st.
Proof.
  intros Hr Hnow Hre. pose proof (closed_refl st Hr) as H.
  destruct ev as [params|restored|evt|i a| |runId| |name hook|name]; simpl in Hre |- *.
  - apply closed_registerSubagentRun; [|exact H].
    intros Heq. rewrite Heq, String.eqb_refl in Hre. discriminate.
  - apply closed_restoreSubagentRunsOnce; [|exact H].
    apply bool_decide_eq_false in Hre.
    destruct (subagentRuns st !! r) as [l|] eqn:Hl; [|contradiction].
    rewrite (Hr l eq_refl). reflexivity.
  - apply wp_bind, wp_gets. cbv beta. destruct (listenerStarted st); [|exact H].
    apply closed_onLifecycleEvent, H.
  - apply wp_bind, wp_gets. cbv beta.
    destruct (tasks st !! i) as [t|] eqn:Ht; [|exact H].
    destruct t, a; simpl; try exact H; apply wp_bind, wp_modify; cbv beta.
    all: lazymatch goal with
         | |- wp (waitForSubagentCompletion_reply _ _ _) _ _ =>
             apply closed_waitForSubagentCompletion_reply, H
         | |- wp (announceSettled _ _ _ _) _ _ =>
             apply closed_announceSettled; [exact Hnow| |exact H];
             intros ->; apply bool_decide_eq_false in Hre; exact Hre
         | |- wp (scheduleTaskRetry_afterDelay _ _ _ _) _ _ =>
             apply closed_scheduleTaskRetry_afterDelay; [|exact H];
             intros e' He'; simpl in He'; rewrite He' in Hre;
             apply bool_decide_eq_false in Hre; exact Hre
         | |- wp (scheduleTaskRetry_afterStart _ _ _ _) _ _ =>
             apply closed_scheduleTaskRetry_afterStart, H
         | |- wp (verificationSettled _ _ _ _ _) _ _ =>
             apply closed_verificationSettled, H
         end.
  - apply wp_bind, wp_gets. cbv beta. destruct (sweeper st); [|exact H].
    apply closed_sweepSubagentRuns, H.
  - apply closed_releaseSubagentRun, H.
  - apply closed_resetSubagentRegistryForTests, H.
  - apply closed_registerVerificationHook, H.
  - apply wp_bind. eapply wp_mono; [apply closed_unregisterVerificationHook, H|].
    intros ? ? H'. exact H'.
Qed.
End Closed.

Lemma closedAt_step env ev st r lr :
  closedAt st r lr -> now env <> 0 -> reopens st ev r lr = false ->
  closedAt (exec (step env ev) st) r lr.
Proof.
  intros Hat Hnow Hre.
  destruct (wp_exec _ _ _
    (closed_step r lr env ev st (fun l Hl => proj1 (Hat l Hl)) Hnow Hre))
    as (a & _ & Hh & Hg).
  intros l Hl. destruct Hg as [Hg|[Hg Hg0]]; [congruence|].
  split; [congruence|].
  destruct (Hat lr Hg0) as (_ & e & He & Hc).
  destruct (Hh lr e He) as (e' & He' & Hcl). eauto.
Qed.

Lemma closedAt_run trace st r lr :
  closedAt st r lr -> noReopening trace st r lr = true -> closedAt (run trace st) r lr.
Proof.
  revert st. induction trace as [|[env ev] rest IH]; intros st Hat Hq; [exact Hat|].
  simpl in Hq. apply andb_prop in Hq as [Hq Hrest]. apply andb_prop in Hq as [Hnow Hre].
  apply negb_true_iff in Hnow, Hre. apply Z.eqb_neq in Hnow.
  apply (IH _ (closedAt_step env ev st r lr Hat Hnow Hre) Hrest).
Qed.

Lemma closedAt_begin st r lr :
  closedAt st r lr -> completion (beginSubagentCleanup r) st = Normal false.
Proof.
  intros Hat. unfold completion. rewrite beginSubagentCleanup_run. unfold getRun.
  destruct (subagentRuns st !! r) as [l|] eqn:Hl; [|reflexivity].
  destruct (Hat l Hl) as (-> & e & He & Hc). simpl. rewrite He. simpl.
  unfold closed in Hc. destruct (truthyNum (cleanupCompletedAt e)); [reflexivity|].
  simpl in Hc. rewrite Hc. reflexivity.
Qed.

Lemma beginSubagentCleanup_closes st r l e :
  getRun st r = Some (l, e) ->
  closedAt (persisted (with_heap (alter (set_cleanupHandled (Some true)) l (heap st)) st)) r l.
Proof.
  intros Hrun l' Hl'.
  pose proof (getRun_alter _ _ _ _ (set_cleanupHandled (Some true)) Hrun) as Ha.
  apply getRun_Some in Ha as [Hr He]. simpl in Hr, He, Hl' |- *.
  split; [congruence|]. eexists. split; [exact He|]. unfold closed. simpl. apply orb_true_r.
Qed.

(** C2, as amended: [beginSubagentCleanup] returns [true] exactly when the
    registry holds a record for the run whose [cleanupCompletedAt] is unset
    (absent or 0) and whose [cleanupHandled] is not set; it never throws; on
    [true] it sets [cleanupHandled = true] and triggers a persist, on [false]
    it changes nothing; after a successful call, every call returns [false]
    until a turn that can open the guard again: a new registration of the
    run, a restore while it is not registered, the finalisation of a failed
    announce for it, or the end of the back-off delay of a retry for it. *)
Theorem beginSubagentCleanup_guard (st : State) (runId : string) :
  let begin := beginSubagentCleanup runId in
  (exists b, completion begin st = Normal b) /\
  (completion begin st = Normal true <->
   exists l e, getRun st runId = Some (l, e) /\
               truthyNum (cleanupCompletedAt e) = false /\
               truthyBool (cleanupHandled e) = false) /\
  (forall l e, getRun st runId = Some (l, e) -> completion begin st = Normal true ->
     exec begin st
     = persisted (with_heap (alter (set_cleanupHandled (Some true)) l (heap st)) st) /\
     recordOf (exec begin st) runId = Some (set_cleanupHandled (Some true) e)) /\
  (completion begin st = Normal false -> exec begin st = st) /\
  (forall l e trace, getRun st runId = Some (l, e) -> completion begin st = Normal true ->
     noReopening trace (exec begin st) runId l = true ->
     completion begin (run trace (exec begin st)) = Normal false).
Proof.
  cbv zeta. unfold completion at 1 2 3 4 5, exec at 1 2 3 4 5.
  rewrite beginSubagentCleanup_run.
  destruct (getRun st runId) as [[l entry]|] eqn:Hrun; simpl.
  2: { split; [eauto|]. split; [split; [discriminate|intros (? & ? & ? & _); discriminate]|].
       split; [discriminate|]. split; [reflexivity|intros; discriminate]. }
  destruct (truthyNum (cleanupCompletedAt entry)) eqn:Hc; simpl.
  { split; [eauto|]. split.
    - split; [discriminate|]. intros (l' & e' & [= <- <-] & Hc' & _). congruence.
    - split; [discriminate|]. split; [reflexivity|intros; discriminate]. }
  destruct (truthyBool (cleanupHandled entry)) eqn:Hd; simpl.
  { split; [eauto|]. split.
    - split; [discriminate|]. intros (l' & e' & [= <- <-] & _ & Hd'). congruence.
    - split; [discriminate|]. split; [reflexivity|intros; discriminate]. }
  split; [eauto|]. split; [split; eauto|].
  split.
  - intros l' e' [= <- <-] _. split; [reflexivity|].
    unfold recordOf. rewrite getRun_persisted, (getRun_alter _ _ _ _ _ Hrun). reflexivity.
  - split; [discriminate|]. intros l' e' trace [= <- <-] _ Hq.
    apply (closedAt_begin _ runId l), closedAt_run; [|exact Hq].
    apply beginSubagentCleanup_closes with entry. exact Hrun.
Qed.

Lemma beginSubagentCleanup_guard_witness :
  completion (beginSubagentCleanup "run-1")
    (run quietTurns (exec (beginSubagentCleanup "run-1") retryRunRegistered))
  = Normal false.
Proof.
  eapply (proj2 (proj2 (proj2 (proj2 (beginSubagentCleanup_guard retryRunRegistered "run-1"))))).
  - vm_compute. reflexivity.
  - vm_compute. reflexivity.
  - vm_compute. reflexivity.
Defined.

(** * Further properties of the registry *)

(** ** What every turn preserves *)

Section Kept.
Variable clockOk : bool.
Variable mayAdd : bool.

Lemma keptG_heap st0 S h : keptG mayAdd st0 S -> keptG mayAdd st0 (with_heap h S).
Proof. exact id. Qed.

Lemma keptG_store st0 S s : keptG mayAdd st0 S -> keptG mayAdd st0 (with_store s S).
Proof. exact id. Qed.

Lemma keptG_delete st0 S k :
  keptG mayAdd st0 S -> keptG mayAdd st0 (with_subagentRuns (delete k (subagentRuns S)) S).
Proof.
  intros Hg Hm. simpl. etrans; [apply delete_subseteq|exact (Hg Hm)].
Qed.

Lemma keptG_filter st0 S (P : string * loc -> Prop) `{!forall kv, Decision (P kv)} :
  keptG mayAdd st0 S -> keptG mayAdd st0 (with_subagentRuns (filter P (subagentRuns S)) S).
Proof.
  intros Hg Hm. simpl. etrans; [apply map_filter_subseteq|exact (Hg Hm)].
Qed.

Lemma keptG_empty st0 S : keptG mayAdd st0 (with_subagentRuns ∅ S).
Proof. intros _. simpl. apply map_empty_subseteq. Qed.

Lemma keptG_insert st0 S k l :
  mayAdd = true -> keptG mayAdd st0 (with_subagentRuns (<[k := l]> (subagentRuns S)) S).
Proof. intros -> ?. discriminate. Qed.

Lemma keptR_refl l e : keptR clockOk l e e.
Proof. split; [reflexivity|]. split; [lia|auto]. Qed.

Lemma kept_refl st : framed (keptR clockOk) (keptG mayAdd) st st.
Proof.
  split.
  - intros l e He. exists e. split; [exact He|apply keptR_refl].
  - intros _. reflexivity.
Qed.

Lemma keptR_trans l e0 e1 e2 :
  keptR clockOk l e0 e1 -> keptR clockOk l e1 e2 -> keptR clockOk l e0 e2.
Proof.
  intros (Hi & Hm & Hc) (Hi' & Hm' & Hc'). split; [congruence|]. split; [lia|auto].
Qed.

Lemma kept_trans st0 st1 st2 :
  framed (keptR clockOk) (keptG mayAdd) st0 st1 ->
  framed (keptR clockOk) (keptG mayAdd) st1 st2 ->
  framed (keptR clockOk) (keptG mayAdd) st0 st2.
Proof.
  intros [Hh Hg] [Hh' Hg']. split.
  - intros l e0 He0. destruct (Hh l e0 He0) as (e1 & He1 & H1).
    destruct (Hh' l e1 He1) as (e2 & He2 & H2).
    exists e2. split; [exact He2|]. eapply keptR_trans; eassumption.
  - intros Hm. etrans; [exact (Hg' Hm)|exact (Hg Hm)].
Qed.

(** Side conditions of this frame: an assignment to a field outside the
    identity, the counter and the completion time; a change of the registry
    that adds nothing. *)
Ltac kept_side :=
  first
    [ exact keptG_heap
    | exact keptG_store
    | intros ? ? _ HR; exact HR
    | match goal with
      | H : framed _ _ _ _ |- _ =>
          first [ apply keptG_delete, (proj2 H)
                | apply keptG_filter, (proj2 H)
                | apply keptG_empty
                | apply keptG_insert; assumption ]
      end ].

Create HintDb keptops discriminated.

Ltac kept_call H :=
  eapply wp_mono; [solve [eauto 3 with keptops] | clear H; intros ? ? H; cbv beta in H].

Ltac wpk H := wpf H kept_side ltac:(kept_call).

Local Abbreviation keeps m :=
  (forall st0 st, framed (keptR clockOk) (keptG mayAdd) st0 st ->
     wp m (fun _ st' => framed (keptR clockOk) (keptG mayAdd) st0 st') st).

Lemma kept_beginSubagentCleanup runId : keeps (beginSubagentCleanup runId).
Proof. intros st0 st H. unfold beginSubagentCleanup. wpk H. Qed.

Lemma kept_startAnnounce runId l : keeps (startAnnounce runId l).
Proof. intros st0 st H. unfold startAnnounce. wpk H. Qed.

#[local] Hint Resolve kept_beginSubagentCleanup kept_startAnnounce : keptops.

Lemma kept_proceedWithCleanup runId l : keeps (proceedWithCleanup runId l).
Proof. intros st0 st H. unfold proceedWithCleanup. wpk H. Qed.

Lemma kept_waitForSubagentCompletion runId t : keeps (waitForSubagentCompletion runId t).
Proof. intros st0 st H. unfold waitForSubagentCompletion. wpk H. Qed.

#[local] Hint Resolve kept_proceedWithCleanup kept_waitForSubagentCompletion : keptops.

Lemma kept_waitForSubagentCompletion_reply env runId wait :
  keeps (waitForSubagentCompletion_reply env runId wait).
Proof. intros st0 st H. unfold waitForSubagentCompletion_reply. wpk H. Qed.

(** The one place that writes the counter adds one to it. *)
Lemma kept_scheduleTaskRetry env l config key : keeps (scheduleTaskRetry env l config key).
Proof.
  intros st0 st H. unfold scheduleTaskRetry, withEntry.
  apply wp_withEntryOr; [intros entry He|intros _; exact H].
  apply wp_bind. eapply wpf_mutate; [exact keptG_heap|exact H| |].
  - intros e0 e He' (Hi & Hm & Hc). assert (e = entry) as -> by congruence.
    split; [exact Hi|]. split; [simpl; lia|exact Hc].
  - clear H. intros S H. wpk H.
Qed.

Lemma kept_verifyTaskCompletion l config : keeps (verifyTaskCompletion l config).
Proof. intros st0 st H. unfold verifyTaskCompletion. wpk H. Qed.

Lemma kept_taskCompletionHandled runId l : keeps (taskCompletionHandled runId l).
Proof. intros st0 st H. unfold taskCompletionHandled. wpk H. Qed.

#[local] Hint Resolve kept_scheduleTaskRetry kept_verifyTaskCompletion
  kept_taskCompletionHandled : keptops.

Lemma kept_handleTaskCompletion_verdict env l config v :
  keeps (handleTaskCompletion_verdict env l config v).
Proof. intros st0 st H. unfold handleTaskCompletion_verdict. wpk H. Qed.

#[local] Hint Resolve kept_handleTaskCompletion_verdict : keptops.

Lemma kept_handleTaskCompletion env l config runId :
  keeps (handleTaskCompletion env l config runId).
Proof. intros st0 st H. unfold handleTaskCompletion. wpk H. Qed.

Lemma kept_verificationSettled env l config runId v :
  keeps (verificationSettled env l config runId v).
Proof. intros st0 st H. unfold verificationSettled. wpk H. Qed.

#[local] Hint Resolve kept_handleTaskCompletion kept_verificationSettled : keptops.

Lemma kept_onLifecycleEvent env evt : keeps (onLifecycleEvent env evt).
Proof. intros st0 st H. unfold onLifecycleEvent. wpk H. Qed.

Lemma kept_scheduleTaskRetry_afterDelay env l retryCount key :
  keeps (scheduleTaskRetry_afterDelay env l retryCount key).
Proof. intros st0 st H. unfold scheduleTaskRetry_afterDelay, retrySettled. wpk H. Qed.

Lemma kept_scheduleTaskRetry_afterStart env l started key :
  keeps (scheduleTaskRetry_afterStart env l started key).
Proof. intros st0 st H. unfold scheduleTaskRetry_afterStart, retrySettled. wpk H. Qed.

Lemma kept_finalizeSubagentCleanup env runId cleanup didAnnounce st0 st :
  (clockOk = true -> now env <> 0) ->
  framed (keptR clockOk) (keptG mayAdd) st0 st ->
  wp (finalizeSubagentCleanup env runId cleanup didAnnounce)
    (fun _ st' => framed (keptR clockOk) (keptG mayAdd) st0 st') st.
Proof.
  intros Hnow H. unfold finalizeSubagentCleanup.
  apply wp_bind, wp_gets. cbv beta.
  destruct (getRun st runId) as [[l e]|] eqn:Hrun; [|exact H].
  destruct cleanup; [wpk H|]. destruct didAnnounce; simpl; [|wpk H].
  apply wp_bind. eapply wpf_mutate; [exact keptG_heap|exact H| |].
  - intros e0 e' _ (Hi & Hm & Hc). split; [exact Hi|]. split; [exact Hm|].
    intros Hck _. unfold completed, truthyNum. simpl.
    destruct (Z.eqb_spec (now env) 0) as [Hz|_]; [|reflexivity].
    destruct (Hnow Hck Hz).
  - clear H. intros S H. wpk H.
Qed.

Lemma kept_announceSettled env runId l didAnnounce st0 st :
  (clockOk = true -> now env <> 0) ->
  framed (keptR clockOk) (keptG mayAdd) st0 st ->
  wp (announceSettled env runId l didAnnounce)
    (fun _ st' => framed (keptR clockOk) (keptG mayAdd) st0 st') st.
Proof.
  intros Hnow H. unfold announceSettled, withEntry.
  apply wp_withEntryOr; [intros e _|intros _; exact H].
  apply kept_finalizeSubagentCleanup; assumption.
Qed.

Lemma kept_ensureListener : keeps ensureListener.
Proof. intros st0 st H. unfold ensureListener. wpk H. Qed.

Lemma kept_startSweeper : keeps startSweeper.
Proof. intros st0 st H. unfold startSweeper. wpk H. Qed.

Lemma kept_stopSweeper : keeps stopSweeper.
Proof. intros st0 st H. unfold stopSweeper. wpk H. Qed.

#[local] Hint Resolve kept_ensureListener kept_startSweeper kept_stopSweeper : keptops.

Lemma kept_sweepSubagentRuns env : keeps (sweepSubagentRuns env).
Proof. intros st0 st H. unfold sweepSubagentRuns. wpk H. Qed.

Lemma kept_releaseSubagentRun runId : keeps (releaseSubagentRun runId).
Proof. intros st0 st H. unfold releaseSubagentRun. wpk H. Qed.

Lemma kept_resetSubagentRegistryForTests : keeps resetSubagentRegistryForTests.
Proof. intros st0 st H. unfold resetSubagentRegistryForTests. wpk H. Qed.

Lemma kept_registerVerificationHook name hook : keeps (registerVerificationHook name hook).
Proof. intros st0 st H. unfold registerVerificationHook. wpk H. Qed.

Lemma kept_unregisterVerificationHook name : keeps (unregisterVerificationHook name).
Proof. intros st0 st H. unfold unregisterVerificationHook. wpk H. Qed.

Lemma kept_resumeSubagentRun env runId : keeps (resumeSubagentRun env runId).
Proof. intros st0 st H. unfold resumeSubagentRun. wpk H. Qed.

Lemma kept_registerSubagentRun env params st0 st :
  mayAdd = true ->
  framed (keptR clockOk) (keptG mayAdd) st0 st ->
  wp (registerSubagentRun env params)
    (fun _ st' => framed (keptR clockOk) (keptG mayAdd) st0 st') st.
Proof.
  intros Hadd H. unfold registerSubagentRun.
  apply wp_bind. eapply wpf_alloc; [exact keptG_heap|exact H|].
  clear H. intros l S H. wpk H.
Qed.

Lemma kept_restoreSubagentRunsOnce env restored st0 st :
  mayAdd = true ->
  framed (keptR clockOk) (keptG mayAdd) st0 st ->
  wp (restoreSubagentRunsOnce env restored)
    (fun _ st' => framed (keptR clockOk) (keptG mayAdd) st0 st') st.
Proof.
  intros Hadd H. unfold restoreSubagentRunsOnce.
  apply wp_bind, wp_gets. cbv beta. destruct (restoreAttempted st); [exact H|].
  apply wp_bind, wp_modify. cbv beta.
  destruct restored as [[|kv entries]|]; [exact H| |exact H].
  apply wp_bind.
  eapply wp_mono;
    [apply (wp_forEach (fun S => framed (keptR clockOk) (keptG mayAdd) st0 S))|].
  - exact H.
  - clear H. intros x S _ H. apply wp_bind, wp_gets. cbv beta.
    destruct (negb (truthyStr x.1) || bool_decide (is_Some (subagentRuns S !! x.1)))%bool;
      [exact H|].
    apply wp_bind. eapply wpf_alloc; [exact keptG_heap|exact H|].
    clear H. intros l S' H. wpk H.
  - clear H. intros a S H. cbv beta in H. wpk H.
    all: eapply wp_mono;
      [ apply (wp_forEach (fun S' => framed (keptR clockOk) (keptG mayAdd) st0 S'));
        [exact H|intros x S' _ H'; apply kept_resumeSubagentRun, H']
      | intros ? ? H'; exact H' ].
Qed.

Lemma kept_step env ev st :
  (clockOk = true -> now env <> 0) -> (mayAdd = false -> adds ev = false) ->
  wp (step env ev) (fun _ st' => framed (keptR clockOk) (keptG mayAdd) st st') st.
Proof.
  intros Hnow Hadd. pose proof (kept_refl st) as H.
  destruct ev as [params|restored|evt|i a| |runId| |name hook|name]; simpl in Hadd |- *.
  - apply kept_registerSubagentRun; [|exact H].
    destruct mayAdd; [reflexivity|]. discriminate (Hadd eq_refl).
  - apply kept_restoreSubagentRunsOnce; [|exact H].
    destruct mayAdd; [reflexivity|]. discriminate (Hadd eq_refl).
  - apply wp_bind, wp_gets. cbv beta. destruct (listenerStarted st); [|exact H].
    apply kept_onLifecycleEvent, H.
  - apply wp_bind, wp_gets. cbv beta.
    destruct (tasks st !! i) as [t|] eqn:Ht; [|exact H].
    destruct t, a; simpl; try exact H; apply wp_bind, wp_modify; cbv beta.
    all: lazymatch goal with
         | |- wp (waitForSubagentCompletion_reply _ _ _) _ _ =>
             apply kept_waitForSubagentCompletion_reply, H
         | |- wp (announceSettled _ _ _ _) _ _ =>
             apply kept_announceSettled; [exact Hnow|exact H]
         | |- wp (scheduleTaskRetry_afterDelay _ _ _ _) _ _ =>
             apply kept_scheduleTaskRetry_afterDelay, H
         | |- wp (scheduleTaskRetry_afterStart _ _ _ _) _ _ =>
             apply kept_scheduleTaskRetry_afterStart, H
         | |- wp (verificationSettled _ _ _ _ _) _ _ =>
             apply kept_verificationSettled, H
         end.
  - apply wp_bind, wp_gets. cbv beta. destruct (sweeper st); [|exact H].
    apply kept_sweepSubagentRuns, H.
  - apply kept_releaseSubagentRun, H.
  - apply kept_resetSubagentRegistryForTests, H.
  - apply kept_registerVerificationHook, H.
  - apply wp_bind. eapply wp_mono; [apply kept_unregisterVerificationHook, H|].
    intros ? ? H'. exact H'.
Qed.

Lemma kept_run trace st :
  (clockOk = true -> forallb (fun ee : Env * Event => negb (now ee.1 =? 0)) trace = true) ->
  (mayAdd = false -> forallb (fun ee : Env * Event => negb (adds ee.2)) trace = true) ->
  framed (keptR clockOk) (keptG mayAdd) st (run trace st).
Proof.
  revert st. induction trace as [|[env ev] rest IH]; intros st Hnow Hadd; [apply kept_refl|].
  simpl. eapply kept_trans.
  - destruct (wp_exec _ _ _ (kept_step env ev st
      (fun Hc => proj1 (Z.eqb_neq _ _)
         (proj1 (negb_true_iff _) (proj1 (andb_prop _ _ (Hnow Hc)))))
      (fun Ha => proj1 (negb_true_iff _) (proj1 (andb_prop _ _ (Hadd Ha))))))
      as (a & _ & H). exact H.
  - apply IH.
    + intros Hc. exact (proj2 (andb_prop _ _ (Hnow Hc))).
    + intros Ha. exact (proj2 (andb_prop _ _ (Hadd Ha))).
Qed.
End Kept.

(** X1: no run of the registry frees a record object or changes what it was
    registered with (run id, session keys, origin, task, cleanup policy,
    label, [createdAt], [archiveAtMs], [maxRetries], [originalRunId], policy
    snapshot), and its [retryCount] never goes down. *)
Theorem record_objects_keep_identity (trace : list (Env * Event)) (st : State)
    (l : loc) (e0 : SubagentRunRecord) :
  heap st !! l = Some e0 ->
  exists e, heap (run trace st) !! l = Some e /\
            identity e = identity e0 /\
            retryCount e0 ?? 0 <= retryCount e ?? 0.
Proof.
  intros He0.
  destruct (kept_run false true trace st) as [Hh _]; [discriminate..|].
  destruct (Hh l e0 He0) as (e & He & Hi & Hm & _). eauto.
Qed.

Lemma record_objects_keep_identity_witness :
  exists e, heap (run (tail racingSignals) retryRunRegistered) !! 0%nat = Some e /\
            identity e = identity registeredRecord /\
            retryCount registeredRecord ?? 0 <= retryCount e ?? 0.
Proof.
  apply (record_objects_keep_identity (tail racingSignals) retryRunRegistered 0).
  vm_compute. reflexivity.
Defined.

(** X2: while the clock does not read 0, the cleanup of a record object
    that is complete stays complete, whatever the registry does: only
    [finalizeSubagentCleanup] writes [cleanupCompletedAt], and it writes the
    current time. *)
Theorem completed_cleanup_stays_completed (trace : list (Env * Event)) (st : State)
    (l : loc) (e0 : SubagentRunRecord) :
  forallb (fun ee : Env * Event => negb (now ee.1 =? 0)) trace = true ->
  heap st !! l = Some e0 -> completed e0 = true ->
  exists e, heap (run trace st) !! l = Some e /\ completed e = true.
Proof.
  intros Hnow He0 Hc.
  destruct (kept_run true true trace st) as [Hh _]; [auto|discriminate|].
  destruct (Hh l e0 He0) as (e & He & _ & _ & Hc'). eauto.
Qed.

Lemma completed_cleanup_stays_completed_witness :
  exists e,
    heap (run [(envAt 999, AgentEvent (lifecycle "error" None (Some 999) (Some "late")));
               (envAt 1000, Settle 0 (waitReply "ok" None))] afterCleanup) !! 0%nat = Some e /\
    completed e = true.
Proof.
  apply (completed_cleanup_stays_completed _ afterCleanup 0 recordAfterCleanup).
  - reflexivity.
  - vm_compute. reflexivity.
  - reflexivity.
Defined.

(** X3: only [registerSubagentRun] and the restore put entries into the
    registry: after any other turns, every run id that is registered was
    registered before, with the same record object. *)
Theorem registry_grows_by_registration_only (trace : list (Env * Event)) (st : State) :
  forallb (fun ee : Env * Event => negb (adds ee.2)) trace = true ->
  subagentRuns (run trace st) ⊆ subagentRuns st.
Proof.
  intros Hadd.
  destruct (kept_run false false trace st) as [_ Hg]; [discriminate|auto|].
  exact (Hg eq_refl).
Qed.

Lemma registry_grows_by_registration_only_witness :
  subagentRuns (run (tail racingSignals) retryRunRegistered) ⊆ subagentRuns retryRunRegistered.
Proof.
  apply (registry_grows_by_registration_only (tail racingSignals) retryRunRegistered).
  reflexivity.
Defined.

(** ** Every change of the registry is saved *)

Lemma faults_storeAfterPersist X :
  faults (store X) = [] -> faults (storeAfterPersist X) = [].
Proof. intros H. unfold storeAfterPersist. rewrite H. reflexivity. Qed.

Lemma saved_intro T X :
  store T = storeAfterPersist X -> heap T = heap X -> subagentRuns T = subagentRuns X ->
  faults (store X) = [] -> saved T.
Proof.
  intros Hs Hh Hr Hf. unfold saved, snapshot. rewrite Hs, Hh, Hr.
  unfold storeAfterPersist. rewrite Hf. split; reflexivity.
Qed.

Lemma saved_same S T :
  saved S -> store T = store S -> heap T = heap S -> subagentRuns T = subagentRuns S ->
  saved T.
Proof. intros H Hs Hh Hr. unfold saved, snapshot. rewrite Hs, Hh, Hr. exact H. Qed.

Ltac state_cbn :=
  cbn [store heap subagentRuns persisted with_heap with_subagentRuns with_sweeper
       with_listenerStarted with_restoreAttempted with_resumedRuns
       with_pendingRetries with_pendingVerifications with_verificationHooks
       with_tasks with_store].

Ltac same := state_cbn; lazymatch goal with |- ?a = ?a => reflexivity end.

Ltac healthy_solve H :=
  repeat first
    [ exact (proj1 H)
    | assumption
    | apply faults_storeAfterPersist
    | progress state_cbn ].

(** The state at hand differs from a saved one outside the registry only, or
    its last change of the registry was followed by a save. *)
Ltac saved_solve H :=
  first
    [ lazymatch type of H with
      | saved ?S0 => apply (saved_same S0); [exact H|same|same|same]
      end
    | eapply saved_intro;
      [ state_cbn; lazymatch goal with |- storeAfterPersist _ = _ => reflexivity end
      | same | same | healthy_solve H ] ].

Create HintDb savedops discriminated.

Ltac saved_call H :=
  lazymatch goal with
  | |- wp _ _ ?S =>
      let H' := fresh "Hs" in
      assert (H' : saved S) by saved_solve H;
      eapply wp_mono;
      [ solve [eauto 3 with savedops] | clear H H'; intros ? ? H; cbv beta in H ]
  end.

Ltac wsv_step H :=
  lazymatch goal with
  | |- saved _ => saved_solve H
  | |- wp persistSubagentRuns _ _ => apply wp_persist
  | |- wp (mutate _ _) _ _ => apply wp_mutate
  | |- wp (spawn _) _ _ => apply wp_spawn
  | |- wp (alloc _) _ _ => apply wp_alloc
  | |- wp (withEntryOr _ _ _) _ _ => apply wp_withEntryOr; [intros ? ?|intros ?]
  | |- _ => first [ saved_call H | wp_step ]
  end.

Ltac wsv H := repeat wsv_step H.

Local Abbreviation saves m :=
  (forall st, saved st -> wp m (fun _ st' => saved st') st).

Lemma saved_beginSubagentCleanup runId : saves (beginSubagentCleanup runId).
Proof. intros st H. unfold beginSubagentCleanup. wsv H. Qed.

Lemma saved_startAnnounce runId l : saves (startAnnounce runId l).
Proof. intros st H. unfold startAnnounce. wsv H. Qed.

#[local] Hint Resolve saved_beginSubagentCleanup saved_startAnnounce : savedops.

Lemma saved_proceedWithCleanup runId l : saves (proceedWithCleanup runId l).
Proof. intros st H. unfold proceedWithCleanup. wsv H. Qed.

Lemma saved_waitForSubagentCompletion runId t : saves (waitForSubagentCompletion runId t).
Proof. intros st H. unfold waitForSubagentCompletion. wsv H. Qed.

#[local] Hint Resolve saved_proceedWithCleanup saved_waitForSubagentCompletion : savedops.

Lemma saved_waitForSubagentCompletion_reply env runId wait :
  saves (waitForSubagentCompletion_reply env runId wait).
Proof. intros st H. unfold waitForSubagentCompletion_reply. wsv H. Qed.

Lemma saved_scheduleTaskRetry env l config key : saves (scheduleTaskRetry env l config key).
Proof. intros st H. unfold scheduleTaskRetry. wsv H. Qed.

Lemma saved_verifyTaskCompletion l config : saves (verifyTaskCompletion l config).
Proof. intros st H. unfold verifyTaskCompletion. wsv H. Qed.

Lemma saved_taskCompletionHandled runId l : saves (taskCompletionHandled runId l).
Proof. intros st H. unfold taskCompletionHandled. wsv H. Qed.

#[local] Hint Resolve saved_scheduleTaskRetry saved_verifyTaskCompletion
  saved_taskCompletionHandled : savedops.

Lemma saved_handleTaskCompletion_verdict env l config v :
  saves (handleTaskCompletion_verdict env l config v).
Proof. intros st H. unfold handleTaskCompletion_verdict. wsv H. Qed.

#[local] Hint Resolve saved_handleTaskCompletion_verdict : savedops.

Lemma saved_handleTaskCompletion env l config runId :
  saves (handleTaskCompletion env l config runId).
Proof. intros st H. unfold handleTaskCompletion. wsv H. Qed.

Lemma saved_verificationSettled env l config runId v :
  saves (verificationSettled env l config runId v).
Proof. intros st H. unfold verificationSettled. wsv H. Qed.

#[local] Hint Resolve saved_handleTaskCompletion saved_verificationSettled : savedops.

Lemma saved_onLifecycleEvent env evt : saves (onLifecycleEvent env evt).
Proof. intros st H. unfold onLifecycleEvent. wsv H. Qed.

Lemma saved_scheduleTaskRetry_afterDelay env l retryCount key :
  saves (scheduleTaskRetry_afterDelay env l retryCount key).
Proof. intros st H. unfold scheduleTaskRetry_afterDelay, retrySettled. wsv H. Qed.

Lemma saved_scheduleTaskRetry_afterStart env l started key :
  saves (scheduleTaskRetry_afterStart env l started key).
Proof. intros st H. unfold scheduleTaskRetry_afterStart, retrySettled. wsv H. Qed.

Lemma saved_finalizeSubagentCleanup env runId cleanup didAnnounce :
  saves (finalizeSubagentCleanup env runId cleanup didAnnounce).
Proof. intros st H. unfold finalizeSubagentCleanup. wsv H. Qed.

#[local] Hint Resolve saved_finalizeSubagentCleanup : savedops.

Lemma saved_announceSettled env runId l didAnnounce :
  saves (announceSettled env runId l didAnnounce).
Proof. intros st H. unfold announceSettled. wsv H. Qed.

Lemma saved_ensureListener : saves ensureListener.
Proof. intros st H. unfold ensureListener. wsv H. Qed.

Lemma saved_startSweeper : saves startSweeper.
Proof. intros st H. unfold startSweeper. wsv H. Qed.

Lemma saved_stopSweeper : saves stopSweeper.
Proof. intros st H. unfold stopSweeper. wsv H. Qed.

#[local] Hint Resolve saved_startSweeper saved_stopSweeper : savedops.

Lemma saved_resetSubagentRegistryForTests : saves resetSubagentRegistryForTests.
Proof.
  intros st H. unfold resetSubagentRegistryForTests, stopSweeper. wsv H.
Qed.

Lemma saved_registerVerificationHook name hook : saves (registerVerificationHook name hook).
Proof. intros st H. unfold registerVerificationHook. wsv H. Qed.

Lemma saved_unregisterVerificationHook name : saves (unregisterVerificationHook name).
Proof. intros st H. unfold unregisterVerificationHook. wsv H. Qed.

Lemma saved_registerSubagentRun env params : saves (registerSubagentRun env params).
Proof.
  intros st H. unfold registerSubagentRun, ensureListener. wsv H.
Qed.

Lemma saved_releaseSubagentRun runId : saves (releaseSubagentRun runId).
Proof.
  intros st H. unfold releaseSubagentRun.
  apply wp_bind, wp_gets. cbv beta. apply wp_bind, wp_modify. cbv beta.
  destruct (bool_decide (is_Some (subagentRuns st !! runId))) eqn:Hd; simpl.
  - wsv H.
  - apply bool_decide_eq_false in Hd. rewrite <- eq_None_not_Some in Hd.
    rewrite (delete_id _ _ Hd).
    assert (H' : saved (with_subagentRuns (subagentRuns st) st)) by exact H.
    clear H. wsv H'.
Qed.

Lemma saved_step env ev st :
  writesThrough ev = true -> saved st ->
  wp (step env ev) (fun _ st' => saved st') st.
Proof.
  intros Hw H.
  destruct ev as [params|restored|evt|i a| |runId| |name hook|name];
    try discriminate Hw; simpl.
  - apply saved_registerSubagentRun, H.
  - apply wp_bind, wp_gets. cbv beta. destruct (listenerStarted st); [|exact H].
    apply saved_onLifecycleEvent, H.
  - apply wp_bind, wp_gets. cbv beta.
    destruct (tasks st !! i) as [t|] eqn:Ht; [|exact H].
    destruct t, a; simpl; try exact H; apply wp_bind, wp_modify; cbv beta.
    all: lazymatch goal with
         | |- wp (waitForSubagentCompletion_reply _ _ _) _ _ =>
             apply saved_waitForSubagentCompletion_reply, H
         | |- wp (announceSettled _ _ _ _) _ _ => apply saved_announceSettled, H
         | |- wp (scheduleTaskRetry_afterDelay _ _ _ _) _ _ =>
             apply saved_scheduleTaskRetry_afterDelay, H
         | |- wp (scheduleTaskRetry_afterStart _ _ _ _) _ _ =>
             apply saved_scheduleTaskRetry_afterStart, H
         | |- wp (verificationSettled _ _ _ _ _) _ _ =>
             apply saved_verificationSettled, H
         end.
  - apply saved_releaseSubagentRun, H.
  - apply saved_resetSubagentRegistryForTests, H.
  - apply saved_registerVerificationHook, H.
  - apply wp_bind. eapply wp_mono; [apply saved_unregisterVerificationHook, H|].
    intros ? ? H'. exact H'.
Qed.

(** X4: on a disk that takes every save, each turn other than a restore or
    a sweep ends with the registry file holding exactly the registry in
    memory, provided it did when the turn began: every change that a turn
    makes to the registry or to a registered record is followed by a
    [persistSubagentRuns] in the same turn. *)
Theorem registry_changes_are_saved (trace : list (Env * Event)) (st : State) :
  forallb (fun ee : Env * Event => writesThrough ee.2) trace = true ->
  saved st -> saved (run trace st).
Proof.
  revert st. induction trace as [|[env ev] rest IH]; intros st Hw H; [exact H|].
  simpl in Hw. apply andb_prop in Hw as [Hw Hrest]. simpl. apply IH; [exact Hrest|].
  destruct (wp_exec _ _ _ (saved_step env ev st Hw H)) as (a & _ & H'). exact H'.
Qed.

Lemma registry_changes_are_saved_witness :
  saved (run (tail racingSignals) retryRunRegistered).
Proof.
  apply (registry_changes_are_saved (tail racingSignals) retryRunRegistered).
  - reflexivity.
  - split; vm_compute; reflexivity.
Defined.

(** ** The policy of a run *)

Lemma newRunRecord_policy env params cfg :
  resolveOrchestrationConfig cfg (orchestrationConfig (newRunRecord env params))
  = resolveOrchestrationConfig (loadConfig env) (Params.orchestrationConfig params).
Proof.
  unfold newRunRecord, resolveOrchestrationConfig, asPartial, spreadConfig.
  destruct (Params.orchestrationConfig params) as [o|]; reflexivity.
Qed.

(** X5: the policy of a run is fixed when it is registered.  Whatever the
    registry does afterwards and whatever the configuration is by then,
    resolving the policy of the record object gives what the configuration
    and the override of the registration gave, and [maxRetries] of the
    record is the one of that policy. *)
Theorem policy_is_fixed_at_registration (env : Env) (params : Params.t) (st : State)
    (trace : list (Env * Event)) (cfg : Config.t) :
  let policy :=
    resolveOrchestrationConfig (loadConfig env) (Params.orchestrationConfig params) in
  exists e,
    heap (run trace (exec (registerSubagentRun env params) st)) !! length (heap st) = Some e /\
    resolveOrchestrationConfig cfg (orchestrationConfig e) = policy /\
    maxRetries e = Some (Resolved.maxRetries policy).
Proof.
  intros policy.
  destruct (wp_exec _ _ _ (registerSubagentRun_effect env params st)) as ([] & _ & Hh & _).
  assert (He0 : heap (exec (registerSubagentRun env params) st) !! length (heap st)
                = Some (newRunRecord env params))
    by (rewrite Hh; apply lookup_snoc_length).
  destruct (kept_run false true trace (exec (registerSubagentRun env params) st))
    as [Hk _]; [discriminate..|].
  destruct (Hk _ _ He0) as (e & He & Hi & _).
  exists e. split; [exact He|].
  assert (Ho : orchestrationConfig e = orchestrationConfig (newRunRecord env params))
    by (unfold identity in Hi; congruence).
  assert (Hm : maxRetries e = maxRetries (newRunRecord env params))
    by (unfold identity in Hi; congruence).
  rewrite Ho, Hm, newRunRecord_policy. split; [reflexivity|].
  unfold policy, newRunRecord, resolveOrchestrationConfig, asPartial, spreadConfig.
  destruct (Params.orchestrationConfig params) as [o|]; reflexivity.
Qed.

(** ** Back-off *)



(** ** Registration *)

Lemma registerSubagentRun_rest env params st :
  wp (registerSubagentRun env params)
    (fun _ st' =>
       tasks st' = (tasks st ++
         [TWait (Params.runId params)
            (Z.max 1 (resolveAgentTimeoutMs env (loadConfig env)
                        (Params.runTimeoutSeconds params)))])%list /\
       listenerStarted st' = true /\
       sweeper st' = (sweeper st || truthyNum (resolveArchiveAfterMs (loadConfig env)))%bool /\
       pendingRetries st' = pendingRetries st /\
       pendingVerifications st' = pendingVerifications st /\
       verificationHooks st' = verificationHooks st /\
       resumedRuns st' = resumedRuns st /\
       restoreAttempted st' = restoreAttempted st) st.
Proof.
  unfold registerSubagentRun, ensureListener, startSweeper, waitForSubagentCompletion,
    resolveSubagentWaitTimeoutMs.
  destruct (listenerStarted st) eqn:Hl, (sweeper st) eqn:Hs,
    (truthyNum (resolveArchiveAfterMs (loadConfig env))) eqn:Ha.
  all: repeat first [progress known | wpx_step].
  all: rewrite ?Hl, ?Hs; repeat split; reflexivity.
Qed.

(** X7: [registerSubagentRun] never throws.  It leaves exactly one more
    [agent.wait] pending, for the new run and with a timeout of at least 1
    ms; the listener is subscribed afterwards; archival is on exactly when
    [archiveAfterMinutes] (60 when absent) is positive, and then the record
    is due [60000 * minutes] ms after its creation and the sweeper is armed,
    otherwise the record is never due and the sweeper is left as it was.
    Hooks, pending retries and verifications, and every record object that
    existed are left as they were. *)
Theorem registerSubagentRun_arms_prober_listener_sweeper (env : Env) (params : Params.t)
    (st : State) :
  let st' := exec (registerSubagentRun env params) st in
  let minutes := Config.archiveAfterMinutes (loadConfig env) ?? 60 in
  let timeout :=
    resolveAgentTimeoutMs env (loadConfig env) (Params.runTimeoutSeconds params) in
  completion (registerSubagentRun env params) st = Normal tt /\
  tasks st' = (tasks st ++ [TWait (Params.runId params) (Z.max 1 timeout)])%list /\
  1 <= Z.max 1 timeout /\
  listenerStarted st' = true /\
  (if 0 <? minutes
   then archiveAtMs (newRunRecord env params) = Some (now env + minutes * 60000) /\
        sweeper st' = true
   else archiveAtMs (newRunRecord env params) = None /\ sweeper st' = sweeper st) /\
  pendingRetries st' = pendingRetries st /\
  pendingVerifications st' = pendingVerifications st /\
  verificationHooks st' = verificationHooks st /\
  (forall l e, heap st !! l = Some e -> heap st' !! l = Some e).
Proof.
  cbv zeta.
  destruct (wp_exec _ _ _ (registerSubagentRun_rest env params st))
    as ([] & Hrun & Ht & Hl & Hs & Hp & Hv & Hk & _).
  destruct (wp_exec _ _ _ (registerSubagentRun_effect env params st)) as ([] & _ & Hh & _).
  split; [unfold completion; rewrite Hrun; reflexivity|].
  split; [exact Ht|]. split; [lia|]. split; [exact Hl|].
  split; [|split; [exact Hp|split; [exact Hv|split; [exact Hk|]]]].
  - rewrite Hs. unfold newRunRecord, resolveArchiveAfterMs. cbn [archiveAtMs].
    destruct (Z.ltb_spec 0 (Config.archiveAfterMinutes (loadConfig env) ?? 60)) as [Hpos|Hle].
    + destruct (Z.leb_spec (Config.archiveAfterMinutes (loadConfig env) ?? 60) 0); [lia|].
      assert (Ht' : truthyNum
                (Some (Z.max 1 (Config.archiveAfterMinutes (loadConfig env) ?? 60) * 60000))
              = true).
      { unfold truthyNum. apply negb_true_iff, Z.eqb_neq. lia. }
      rewrite Ht'. simpl nullish. rewrite Z.max_r by lia.
      split; [reflexivity|apply orb_true_r].
    + destruct (Z.leb_spec (Config.archiveAfterMinutes (loadConfig env) ?? 60) 0); [|lia].
      simpl. split; [reflexivity|apply orb_false_r].
  - intros l e He. rewrite Hh. rewrite lookup_app_l by (eapply lookup_lt_Some; eauto).
    exact He.
Qed.

(** ** Strings *)

Lemma prefix_app (s t : string) : String.prefix s (s +:+ t) = true.
Proof.
  induction s as [|c s IH]; simpl; [destruct t; reflexivity|].
  destruct (Ascii.ascii_dec c c) as [_|Hne]; [exact IH|destruct (Hne eq_refl)].
Qed.

Lemma includes_here (s t : string) : includes (s +:+ t) s = true.
Proof.
  destruct s as [|c s].
  - destruct t; reflexivity.
  - pose proof (prefix_app (String c s) t) as H.
    change (String c s +:+ t) with (String c (s +:+ t)) in H |- *.
    cbn [includes]. rewrite H. reflexivity.
Qed.

Lemma includes_skip (a t sub : string) :
  includes t sub = true -> includes (a +:+ t) sub = true.
Proof.
  intros H. induction a as [|c a IH]; [exact H|].
  change (String c a +:+ t) with (String c (a +:+ t)).
  cbn [includes]. rewrite IH. apply orb_true_r.
Qed.

Lemma joinLines_cons (l : string) (rest : list string) :
  rest <> [] -> joinLines (l :: rest) = l +:+ newline +:+ joinLines rest.
Proof. destruct rest; [congruence|reflexivity]. Qed.

(** X8: the prompt of a retry opens with the number of the attempt and the
    bound, [[RETRY ATTEMPT n/m]] ([m] is 3 when the record has no
    [maxRetries]), and quotes in full the error of the previous attempt
    ([Unknown error] when there is none) and the original task. *)
Theorem retry_prompt_quotes_error_and_task (entry : SubagentRunRecord) (retryCount : Z) :
  let prompt := buildRetryPrompt entry retryCount in
  startsWith prompt
    ("[RETRY ATTEMPT " +:+ pretty retryCount +:+ "/" +:+ pretty (maxRetries entry ?? 3)
     +:+ "]") = true /\
  includes prompt ((outcome entry ≫= error) ?? "Unknown error") = true /\
  includes prompt (task entry) = true.
Proof.
  cbv zeta. unfold buildRetryPrompt, startsWith.
  rewrite !joinLines_cons by discriminate.
  split; [|split].
  - apply prefix_app.
  - do 8 apply includes_skip. apply includes_here.
  - do 28 apply includes_skip. apply includes_here.
Qed.

Lemma lowerAscii_idem (c : ascii) : lowerAscii (lowerAscii c) = lowerAscii c.
Proof. destruct c as [[] [] [] [] [] [] [] []]; reflexivity. Qed.

Lemma toLowerCase_idem (s : string) : toLowerCase (toLowerCase s) = toLowerCase s.
Proof. induction s as [|c s IH]; simpl; [reflexivity|]. rewrite lowerAscii_idem, IH. reflexivity. Qed.

Lemma yes_is_not_no (s : string) : startsWith s "yes" = true -> startsWith s "no" = false.
Proof.
  unfold startsWith. destruct s as [|c s]; [discriminate|]. cbn [String.prefix].
  destruct (Ascii.ascii_dec "y" c) as [<-|]; [|discriminate]. intros _.
  destruct (Ascii.ascii_dec "n" "y") as [E|_]; [discriminate E|reflexivity].
Qed.

(** X9: the verdict that [verifyWithAgent] reads from the agent's reply
    does not depend on the case of its letters; an absent or empty reply
    passes, and so does every reply that contains none of the key words; a
    reply that starts with [yes] passes whatever follows; a reply that starts
    with [no] fails unless it contains [completed successfully]. *)
Theorem agent_reply_verdict (reply : string) :
  passed (classifyAgentReply (Some reply))
  = passed (classifyAgentReply (Some (toLowerCase reply))) /\
  passed (classifyAgentReply None) = true /\
  passed (classifyAgentReply (Some "")) = true /\
  (startsWith (toLowerCase reply) "yes" = true ->
   passed (classifyAgentReply (Some reply)) = true) /\
  (startsWith (toLowerCase reply) "no" = true ->
   includes (toLowerCase reply) "completed successfully" = false ->
   passed (classifyAgentReply (Some reply)) = false) /\
  (startsWith (toLowerCase reply) "yes" = false ->
   startsWith (toLowerCase reply) "no" = false ->
   includes (toLowerCase reply) "failed" = false ->
   includes (toLowerCase reply) "incomplete" = false ->
   passed (classifyAgentReply (Some reply)) = true).
Proof.
  unfold classifyAgentReply. cbn [fmap option_fmap option_map nullish].
  rewrite toLowerCase_idem.
  split.
  { repeat match goal with
           | |- context [if ?b then _ else _] => destruct b
           end; reflexivity. }
  split; [reflexivity|]. split; [reflexivity|].
  split; [|split].
  - intros ->. reflexivity.
  - intros Hno Hcs. rewrite Hcs, Hno.
    destruct (startsWith (toLowerCase reply) "yes") eqn:Hyes; [|reflexivity].
    rewrite (yes_is_not_no _ Hyes) in Hno. discriminate.
  - intros -> -> -> ->.
    destruct (includes (toLowerCase reply) "completed successfully"); reflexivity.
Qed.

(** ** Listing the runs of a requester *)

Lemma trimStart_head (s : string) :
  trimStart s = "" \/ exists c t, trimStart s = String c t /\ isWhiteSpace c = false.
Proof.
  induction s as [|c s IH]; [left; reflexivity|]. cbn [trimStart].
  destruct (isWhiteSpace c) eqn:Hc; [exact IH|]. right. eauto.
Qed.

Lemma trimEnd_head (c : ascii) (t : string) :
  isWhiteSpace c = false -> exists t', trimEnd (String c t) = String c t'.
Proof. intros Hc. cbn [trimEnd]. rewrite Hc. destruct (trimEnd t); eauto. Qed.

Lemma trimEnd_idem (s : string) : trimEnd (trimEnd s) = trimEnd s.
Proof.
  induction s as [|c s IH]; [reflexivity|]. cbn [trimEnd].
  destruct (trimEnd s) as [|d u] eqn:Hu.
  - destruct (isWhiteSpace c) eqn:Hc; [reflexivity|]. cbn [trimEnd]. rewrite Hc. reflexivity.
  - cbn [trimEnd] in IH |- *. rewrite IH. reflexivity.
Qed.

Lemma trim_idem (s : string) : trim (trim s) = trim s.
Proof.
  unfold trim. destruct (trimStart_head s) as [->|(c & t & -> & Hc)]; [reflexivity|].
  destruct (trimEnd_head c t Hc) as (t' & Ht'). rewrite Ht'. cbn [trimStart].
  rewrite Hc, <- Ht'. apply trimEnd_idem.
Qed.

Lemma recordOf_Some st r e :
  recordOf st r = Some e <->
  exists l, subagentRuns st !! r = Some l /\ heap st !! l = Some e.
Proof.
  unfold recordOf. split.
  - destruct (getRun st r) as [[l e']|] eqn:H; [|discriminate]. intros [= <-].
    apply getRun_Some in H. eauto.
  - intros (l & Hr & He). rewrite (proj2 (getRun_Some st r l e) (conj Hr He)). reflexivity.
Qed.

Lemma listSubagentRunsForRequester_spec st key e :
  e ∈ listSubagentRunsForRequester st key <->
  trim key <> "" /\ requesterSessionKey e = trim key /\
  exists runId, recordOf st runId = Some e.
Proof.
  unfold listSubagentRunsForRequester. cbv zeta.
  destruct (trim key) as [|c k] eqn:Hk; cbn [truthyStr negb].
  - split; [intros H; inversion H|intros [H _]; congruence].
  - rewrite list_elem_of_filter, list_elem_of_omap. split.
    + intros (Hreq & [r l] & Hin & He). apply elem_of_map_to_list in Hin.
      split; [discriminate|]. split; [exact Hreq|].
      exists r. apply recordOf_Some. eauto.
    + intros (_ & Hreq & r & Hrec). apply recordOf_Some in Hrec as (l & Hr & He).
      split; [exact Hreq|]. exists (r, l). split; [|exact He].
      apply elem_of_map_to_list. exact Hr.
Qed.

(** X10: [listSubagentRunsForRequester] returns the records of the registry
    whose [requesterSessionKey] is the given key with the white space around
    it removed, and nothing when that is empty.  The stored key is compared
    as it is: a record whose stored key has white space around it is
    returned for no key, and padding the key of the request changes
    nothing. *)
Theorem listed_runs_match_the_trimmed_key (st : State) (key : string)
    (e : SubagentRunRecord) :
  (e ∈ listSubagentRunsForRequester st key <->
   trim key <> "" /\ requesterSessionKey e = trim key /\
   exists runId, recordOf st runId = Some e) /\
  (e ∈ listSubagentRunsForRequester st key ->
   trim (requesterSessionKey e) = requesterSessionKey e) /\
  listSubagentRunsForRequester st (trim key) = listSubagentRunsForRequester st key /\
  (trim key = "" -> listSubagentRunsForRequester st key = []).
Proof.
  split; [apply listSubagentRunsForRequester_spec|]. split; [|split].
  - intros Hin. apply listSubagentRunsForRequester_spec in Hin as (_ & -> & _).
    apply trim_idem.
  - unfold listSubagentRunsForRequester. rewrite trim_idem. reflexivity.
  - intros Hk. unfold listSubagentRunsForRequester. rewrite Hk. reflexivity.
Qed.

(** X11: a run that was registered is listed for its requester, whatever
    white space surrounds the key of the request, provided the key it was
    registered with is not empty and has none around it. *)
Theorem registered_run_is_listed (env : Env) (params : Params.t) (st : State)
    (key : string) :
  trim key = Params.requesterSessionKey params ->
  Params.requesterSessionKey params <> "" ->
  newRunRecord env params
  ∈ listSubagentRunsForRequester (exec (registerSubagentRun env params) st) key.
Proof.
  intros Hk Hne.
  apply listSubagentRunsForRequester_spec.
  split; [congruence|]. split; [symmetry; exact Hk|].
  exists (Params.runId params).
  destruct (wp_exec _ _ _ (registerSubagentRun_effect env params st)) as ([] & _ & Hh & Hr).
  apply recordOf_Some. exists (length (heap st)).
  rewrite Hr, Hh, lookup_insert_eq, lookup_snoc_length. auto.
Qed.

Lemma registered_run_is_listed_witness :
  newRunRecord (envAt 50) (paramsFor CleanupKeep None)
  ∈ listSubagentRunsForRequester
      (exec (registerSubagentRun (envAt 50) (paramsFor CleanupKeep None)) (initialState []))
      "  agent:main:main ".
Proof.
  apply (registered_run_is_listed (envAt 50) (paramsFor CleanupKeep None) (initialState [])
           "  agent:main:main ").
  - vm_compute. reflexivity.
  - discriminate.
Defined.

(** ** Running an operation *)

Lemma wp_run {A : Type} (m : M A) (Q : A -> State -> Prop) st :
  wp m Q st -> exists a, completion m st = Normal a /\ Q a (exec m st).
Proof.
  intros H. destruct (wp_exec _ _ _ H) as (a & Hc & HQ). exists a.
  unfold completion. rewrite Hc. auto.
Qed.

Lemma wp_run_unit (m : M unit) (Q : State -> Prop) st :
  wp m (fun _ s => Q s) st -> completion m st = Normal tt /\ Q (exec m st).
Proof. intros H. destruct (wp_run _ _ _ H) as ([] & Hc & HQ). auto. Qed.

Lemma wp_post {A : Type} (m : M A) (Q : State -> Prop) st :
  wp m (fun _ s => Q s) st -> Q (exec m st).
Proof. intros H. destruct (wp_exec _ _ _ H) as (a & _ & HQ). exact HQ. Qed.

(** Reduce a statement about the final state of [m] to its weakest
    precondition. *)
Ltac by_wp_of m :=
  lazymatch goal with
  | |- context [exec m ?st] =>
      lazymatch goal with
      | |- ?P =>
          let Q := eval pattern (exec m st) in P in
          lazymatch Q with
          | ?F _ => apply (wp_post m F st); cbv beta
          end
      end
  end.

(** Reduce a statement about the completion and the final state of an
    operation to its weakest precondition. *)
Ltac by_wp :=
  lazymatch goal with
  | |- completion ?m ?st = Normal tt /\ ?P =>
      let Q := eval pattern (exec m st) in P in
      lazymatch Q with
      | ?F _ => apply (wp_run_unit m F st); cbv beta
      end
  end.

(** ** Signals that the registry ignores *)

(** X12: a run id that is not registered is ignored everywhere: the cleanup
    guard refuses it, and a finalisation, a reply to the wait prober and a
    lifecycle event for it leave the whole state as it is, with no save. *)
Theorem unknown_run_is_ignored (env : Env) (st : State) (runId : string) :
  getRun st runId = None ->
  beginSubagentCleanup runId st = (Normal false, st) /\
  (forall cleanup didAnnounce,
     finalizeSubagentCleanup env runId cleanup didAnnounce st = (Normal tt, st)) /\
  (forall wait, waitForSubagentCompletion_reply env runId wait st = (Normal tt, st)) /\
  (forall stream data,
     onLifecycleEvent env (Evt.mk stream runId data) st = (Normal tt, st)).
Proof.
  intros Hrun. split; [|split; [|split]].
  - unfold beginSubagentCleanup, bind, gets. rewrite Hrun. reflexivity.
  - intros cleanup didAnnounce. unfold finalizeSubagentCleanup, bind, gets.
    rewrite Hrun. reflexivity.
  - intros wait. unfold waitForSubagentCompletion_reply.
    destruct (negb (statusIs "ok" wait) && negb (statusIs "error" wait))%bool; [reflexivity|].
    destruct wait as [w|]; [|reflexivity]. unfold bind, gets. rewrite Hrun. reflexivity.
  - intros stream data. unfold onLifecycleEvent. cbn [Evt.stream Evt.runId].
    destruct (negb (String.eqb stream "lifecycle")); [reflexivity|].
    unfold bind, gets. rewrite Hrun. reflexivity.
Qed.

Lemma unknown_run_is_ignored_witness :
  beginSubagentCleanup "run-2" retryRunRegistered = (Normal false, retryRunRegistered).
Proof.
  apply (unknown_run_is_ignored (envAt 60) retryRunRegistered "run-2").
  vm_compute. reflexivity.
Defined.

(** X13: for any run, the wait prober ignores a reply that is absent or
    whose status is neither [ok] nor [error] (a timeout, say), and the
    listener ignores an event of another stream, an event whose phase is none
    of [start], [end] and [error], and a [start] event without a non-zero
    [startedAt]: the state stays as it is. *)
Theorem non_terminal_signals_are_ignored (env : Env) (st : State) (runId : string) :
  (forall wait,
     statusIs "ok" wait = false -> statusIs "error" wait = false ->
     waitForSubagentCompletion_reply env runId wait st = (Normal tt, st)) /\
  (forall evt,
     Evt.stream evt <> "lifecycle" \/
     (phaseIs "start" evt = false /\ phaseIs "end" evt = false /\
      phaseIs "error" evt = false) \/
     (phaseIs "start" evt = true /\ truthyNum (Evt.data evt ≫= Evt.startedAt) = false) ->
     onLifecycleEvent env evt st = (Normal tt, st)).
Proof.
  split.
  - intros wait Hok Herr. unfold waitForSubagentCompletion_reply. rewrite Hok, Herr.
    reflexivity.
  - intros evt Hevt. unfold onLifecycleEvent.
    destruct (String.eqb_spec (Evt.stream evt) "lifecycle") as [Hs|Hs]; [|reflexivity].
    cbn [negb]. unfold bind, gets.
    destruct (getRun st (Evt.runId evt)) as [[l e]|]; [|reflexivity].
    destruct Hevt as [Hne|[(H1 & H2 & H3)|(H1 & H2)]]; [contradiction| |].
    + rewrite H1, H2, H3. reflexivity.
    + rewrite H1, H2. reflexivity.
Qed.

(** ** The wait prober *)

(** X14: a reply of the wait prober with status [ok] or [error] for a
    registered run sets the outcome from the status (with the error text of
    the reply), takes [startedAt] from the reply when it has one, and
    [endedAt] from the reply, else from the record, else (and when that is 0)
    from the clock.  Then, unless cleanup is complete or under way, it marks
    the record [cleanupHandled] and starts one announce that carries these
    values; otherwise it starts none.  Identity and retry fields are not
    written, and nothing throws. *)
Theorem prober_reply_records_outcome_and_begins_cleanup (env : Env) (st : State)
    (runId : string) (l : loc) (e : SubagentRunRecord) (w : Wait.t) :
  getRun st runId = Some (l, e) ->
  (statusIs "ok" (Some w) || statusIs "error" (Some w))%bool = true ->
  let started := match Wait.startedAt w with Some s => Some s | None => startedAt e end in
  let ended := match Wait.endedAt w with Some t => Some t | None => endedAt e end in
  let ended' := if truthyNum ended then ended else Some (now env) in
  let result :=
    if statusIs "error" (Some w)
    then {| status := StatusError; error := Wait.error w |}
    else {| status := StatusOk; error := None |} in
  let open := (negb (truthyNum (cleanupCompletedAt e))
               && negb (truthyBool (cleanupHandled e)))%bool in
  let e' :=
    (if open then set_cleanupHandled (Some true) else id)
      (set_outcome (Some result) (set_endedAt ended' (set_startedAt started e))) in
  let st' := exec (waitForSubagentCompletion_reply env runId (Some w)) st in
  completion (waitForSubagentCompletion_reply env runId (Some w)) st = Normal tt /\
  getRun st' runId = Some (l, e') /\
  tasks st' = (tasks st ++ if open then [TAnnounce runId l (announceParams e')] else [])%list /\
  subagentRuns st' = subagentRuns st /\
  pendingRetries st' = pendingRetries st.
Proof.
  intros Hrun Hterm. cbv zeta.
  pose proof (proj1 (getRun_Some _ _ _ _) Hrun) as [Hr He].
  by_wp.
  unfold waitForSubagentCompletion_reply.
  apply orb_true_iff in Hterm.
  assert (Hguard : (negb (statusIs "ok" (Some w)) && negb (statusIs "error" (Some w)))%bool
                   = false) by (destruct Hterm as [-> | ->]; [reflexivity|apply andb_false_r]).
  rewrite Hguard. clear Hguard Hterm. apply wp_bind, wp_gets. cbv beta. rewrite Hrun.
  unfold beginSubagentCleanup, startAnnounce, withEntry.
  destruct e as [rid csk rsk ro rdk tk cl lb ca sa ea oc aa cca ch rc mr nra ir ori va vr ocfg].
  cbn [startedAt endedAt cleanupCompletedAt cleanupHandled].
  destruct (statusIs "error" (Some w)), (truthyNum cca) eqn:Hc, (truthyBool ch) eqn:Hh,
    (Wait.startedAt w) as [s|], (Wait.endedAt w) as [t|].
  all: try (destruct ea as [t|]).
  all: try (unfold truthyNum at 1; destruct (t =? 0) eqn:Ht).
  all: cbn [negb andb id].
  all: repeat first [progress known | progress cbn [truthyNum] | wpx_step].
  all: rewrite ?app_nil_r; repeat split; reflexivity.
Qed.

Lemma prober_reply_records_outcome_and_begins_cleanup_witness :
  completion
    (waitForSubagentCompletion_reply (envAt 200) "run-1"
       (Some (Wait.mk (Some "error") None None (Some "boom")))) retryRunRegistered
  = Normal tt.
Proof.
  refine (proj1 (prober_reply_records_outcome_and_begins_cleanup (envAt 200)
                   retryRunRegistered "run-1" 0 registeredRecord
                   (Wait.mk (Some "error") None None (Some "boom")) _ _)).
  - vm_compute. reflexivity.
  - reflexivity.
Defined.

(** ** The listener while a retry or a verification is pending *)

(** X15: a terminal lifecycle event for a run is only recorded, and
    otherwise dropped, when it calls for a retry while a retry for the run is
    pending, or for a verification while one is pending: [endedAt] and the
    outcome are written, but no second retry is scheduled, [retryCount] stays,
    no verification is started and cleanup is not begun. *)
Theorem terminal_event_is_dropped_while_pending (env : Env) (st : State) (evt : Evt.t)
    (l : loc) (e : SubagentRunRecord) :
  getRun st (Evt.runId evt) = Some (l, e) ->
  Evt.stream evt = "lifecycle" ->
  let config := resolveOrchestrationConfig (loadConfig env) (orchestrationConfig e) in
  let ended := (Evt.data evt ≫= Evt.endedAt) ?? now env in
  let result :=
    if phaseIs "error" evt
    then {| status := StatusError; error := Evt.data evt ≫= Evt.error |}
    else {| status := StatusOk; error := None |} in
  (phaseIs "error" evt = true /\ shouldRetryTask (set_outcome (Some result) e) config = true /\
   Evt.runId evt ∈ pendingRetries st) \/
  (phaseIs "end" evt = true /\ Resolved.verifyCompletion config = true /\
   Evt.runId evt ∈ pendingVerifications st) ->
  completion (onLifecycleEvent env evt) st = Normal tt /\
  exec (onLifecycleEvent env evt) st
  = persisted (with_heap (alter (set_outcome (Some result))
                            l (alter (set_endedAt (Some ended)) l (heap st))) st).
Proof.
  intros Hrun Hstream config ended result Hcase.
  pose proof (proj1 (getRun_Some _ _ _ _) Hrun) as [Hr He].
  by_wp. unfold onLifecycleEvent. rewrite Hstream.
  change (negb (String.eqb "lifecycle" "lifecycle")) with false. cbv iota.
  apply wp_bind, wp_gets. cbv beta. rewrite Hrun.
  destruct Hcase as [(Hph & Hretry & Hpend)|(Hph & Hver & Hpend)].
  - destruct (phaseIs_error_not_start evt Hph) as [Hstart Hend].
    subst result. rewrite Hph in Hretry |- *. rewrite Hstart, Hend.
    assert (Hp : bool_decide (Evt.runId evt ∈ pendingRetries st) = true)
      by (apply bool_decide_eq_true_2; exact Hpend).
    assert (Hretry' : shouldRetryTask
              (set_outcome (Some {| status := StatusError; error := Evt.data evt ≫= Evt.error |})
                 (set_endedAt (Some ((Evt.data evt ≫= Evt.endedAt) ?? now env)) e))
              config = true) by exact Hretry.
    repeat first [progress known | wpx_step]. fold config. rewrite Hretry'.
    repeat first [progress known | wpx_step]. reflexivity.
  - destruct (phaseIs_end_not_start evt Hph) as [Hstart Herr].
    subst result. rewrite Herr, Hstart, Hph.
    assert (Hp : bool_decide (Evt.runId evt ∈ pendingVerifications st) = true)
      by (apply bool_decide_eq_true_2; exact Hpend).
    repeat first [progress known | wpx_step]. fold config. rewrite Hver.
    repeat first [progress known | wpx_step]. reflexivity.
Qed.

(** ** The retry after its back-off delay *)

(** X16: when the back-off delay of a retry ends, the retry is cancelled if
    the run is no longer registered or its cleanup is complete: only the
    pending mark is removed.  Otherwise the registered record is reset (no
    [endedAt], no outcome, [cleanupHandled = false], [startedAt] the current
    time, [isRetry = true]) and saved, and [agent.start] is called for the
    child session with run id [<runId>-retry-<n>] and the prompt built from
    the record as it was before the reset; the pending mark stays until the
    gateway answers.  When the gateway rejects the call, only the pending
    mark is removed and no prober is armed; when it accepts, one [agent.wait]
    is started for the original run id. *)
Theorem retry_after_backoff (env : Env) (st : State) (l : loc) (entry : SubagentRunRecord)
    (n : Z) (key : string) :
  heap st !! l = Some entry ->
  let unmarked := with_pendingRetries (pendingRetries st ∖ {[key]}) st in
  (getRun st (runId entry) = None ->
   exec (scheduleTaskRetry_afterDelay env l n key) st = unmarked) /\
  (forall cl cur,
     getRun st (runId entry) = Some (cl, cur) -> completed cur = true ->
     exec (scheduleTaskRetry_afterDelay env l n key) st = unmarked) /\
  (forall cl cur,
     getRun st (runId entry) = Some (cl, cur) -> completed cur = false ->
     let reset e :=
       set_isRetry (Some true) (set_startedAt (Some (now env))
         (set_cleanupHandled (Some false) (set_outcome None (set_endedAt None e)))) in
     let st' := exec (scheduleTaskRetry_afterDelay env l n key) st in
     getRun st' (runId entry) = Some (cl, reset cur) /\
     tasks st' = (tasks st ++
       [TRetryStart l
          (Start.mk (childSessionKey entry) (buildRetryPrompt cur n)
             (runId entry +:+ "-retry-" +:+ pretty n)) key])%list /\
     pendingRetries st' = pendingRetries st /\
     subagentRuns st' = subagentRuns st) /\
  exec (scheduleTaskRetry_afterStart env l false key) st = unmarked /\
  exec (scheduleTaskRetry_afterStart env l true key) st
  = with_pendingRetries (pendingRetries st ∖ {[key]})
      (with_tasks (tasks st ++
         [TWait (runId entry)
            (Z.max 1 (resolveAgentTimeoutMs env (loadConfig env) None))]) st).
Proof.
  intros He unmarked. subst unmarked.
  split; [|split; [|split; [|split]]].
  - intros Hrun. unfold exec, scheduleTaskRetry_afterDelay, withEntryOr, bind, gets.
    rewrite He, Hrun. reflexivity.
  - intros cl cur Hrun Hc. unfold exec, scheduleTaskRetry_afterDelay, withEntryOr, bind, gets.
    unfold completed in Hc. rewrite He, Hrun, Hc. reflexivity.
  - intros cl cur Hrun Hc reset st'. subst st' reset.
    pose proof (proj1 (getRun_Some _ _ _ _) Hrun) as [Hr Hcur].
    unfold completed in Hc.
    assert (Hwp : wp (scheduleTaskRetry_afterDelay env l n key)
      (fun _ s =>
         getRun s (runId entry)
         = Some (cl, set_isRetry (Some true) (set_startedAt (Some (now env))
                       (set_cleanupHandled (Some false)
                          (set_outcome None (set_endedAt None cur))))) /\
         tasks s = (tasks st ++
           [TRetryStart l
              (Start.mk (childSessionKey entry) (buildRetryPrompt cur n)
                 (runId entry +:+ "-retry-" +:+ pretty n)) key])%list /\
         pendingRetries s = pendingRetries st /\
         subagentRuns s = subagentRuns st) st).
    { unfold scheduleTaskRetry_afterDelay.
      eapply wp_withEntryOr_known; [exact He|].
      apply wp_bind, wp_gets. cbv beta. rewrite Hrun, Hc.
      repeat first [progress known | wpx_step]. repeat split; reflexivity. }
    destruct (wp_exec _ _ _ Hwp) as (a & _ & H). exact H.
  - reflexivity.
  - unfold exec, scheduleTaskRetry_afterStart, when, withEntry, withEntryOr, bind.
    rewrite He. reflexivity.
Qed.

Lemma retry_after_backoff_witness :
  exec (scheduleTaskRetry_afterStart (envAt 212) 0 false "run-1") failureSeenByListener
  = with_pendingRetries (pendingRetries failureSeenByListener ∖ {["run-1"]})
      failureSeenByListener.
Proof.
  refine (proj1 (proj2 (proj2 (proj2
    (retry_after_backoff (envAt 212) failureSeenByListener 0
       (set_nextRetryAt (Some (inject_Z 200 + (10 # 1))%Q)
          (set_retryCount (Some 1)
             (set_outcome (Some {| status := StatusError; error := Some "boom" |})
                (set_endedAt (Some 200) registeredRecord)))) 1 "run-1" _))))).
  vm_compute. reflexivity.
Defined.

(** ** A verification that fails *)

(** X17: when the verification of a run fails, [verificationResult] becomes
    [failed].  With [retryOnVerificationFailure] off, the outcome stays and
    cleanup proceeds as it does after a verification that passed.  With it
    on, the outcome is rewritten to the error [Verification failed: <reason>]
    and cleanup is not begun, whether a retry follows or not: a retry is
    scheduled (pending mark, [retryCount + 1], back-off timer) exactly when
    [shouldRetryTask] holds for the rewritten record and no retry is pending
    for the run; otherwise nothing else happens, and the record is left
    without announce. *)
Theorem failed_verification_rewrites_outcome (env : Env) (st : State) (l : loc)
    (e : SubagentRunRecord) (config : Resolved.t) (evtRunId : string)
    (v : VerificationResult) :
  heap st !! l = Some e -> passed v = false ->
  let st' := exec (verificationSettled env l config evtRunId v) st in
  let failed := set_verificationResult (Some VerdictFailed) e in
  let rewritten :=
    set_outcome (Some {| status := StatusError;
                         error := Some ("Verification failed: "
                                        +:+ (reason v ?? "undefined")) |}) failed in
  (Resolved.retryOnVerificationFailure config = false ->
   st' = exec (taskCompletionHandled evtRunId l)
           (persisted (with_heap (alter (set_verificationResult (Some VerdictFailed)) l
                                    (heap st)) st))) /\
  (Resolved.retryOnVerificationFailure config = true ->
   subagentRuns st' = subagentRuns st /\
   pendingVerifications st' = pendingVerifications st ∖ {[evtRunId]} /\
   (cleanupHandled <$> heap st' !! l) = Some (cleanupHandled e) /\
   announcesInFlight st' evtRunId = announcesInFlight st evtRunId /\
   if (shouldRetryTask rewritten config
       && negb (bool_decide (runId e ∈ pendingRetries st)))%bool
   then
     let k := retryCount e ?? 0 in
     let delay := calculateRetryDelay k config in
     heap st' !! l
     = Some (set_nextRetryAt (Some (inject_Z (now env) + delay)%Q)
               (set_retryCount (Some (k + 1)) rewritten)) /\
     tasks st' = (tasks st ++ [TRetryDelay l (k + 1) delay (runId e)])%list /\
     pendingRetries st' = {[runId e]} ∪ pendingRetries st
   else
     heap st' !! l = Some rewritten /\
     tasks st' = tasks st /\
     pendingRetries st' = pendingRetries st).
Proof.
  intros He Hp st' failed rewritten. subst st' failed rewritten. split.
  - intros Hoff. unfold verificationSettled, handleTaskCompletion_verdict.
    rewrite Hp, Hoff. unfold exec at 1, bind, mutate, modify.
    cbn [fst snd]. rewrite persist_run. reflexivity.
  - intros Hon. cbv zeta. by_wp_of (verificationSettled env l config evtRunId v).
    unfold verificationSettled, handleTaskCompletion_verdict, taskCompletionHandled,
      scheduleTaskRetry.
    rewrite Hp, Hon.
    destruct (shouldRetryTask
                (set_outcome (Some {| status := StatusError;
                                      error := Some ("Verification failed: "
                                                     +:+ (reason v ?? "undefined")) |})
                   (set_verificationResult (Some VerdictFailed) e)) config) eqn:Hretry;
      destruct (bool_decide (runId e ∈ pendingRetries st)) eqn:Hpend; cbn [negb andb].
    all: repeat first [progress known | wpx_step].
    all: replace (retryCount e ?? 0 + 1 - 1) with (retryCount e ?? 0) by lia.
    all: unfold announcesInFlight; known; rewrite ?List.filter_app, ?app_nil_r;
      cbn [List.filter app]; rewrite ?app_nil_r; repeat split; reflexivity.
Qed.

(** ** Verification hooks *)

Lemma wp_value {A : Type} (m : M A) (v : A) st :
  wp m (fun a _ => a = v) st -> completion m st = Normal v.
Proof. intros H. destruct (wp_run _ _ _ H) as (a & Hc & ->). exact Hc. Qed.

(** X18: a verification hook that was registered under a name is the one
    that a verification configured with that name calls, whatever the outcome
    of the run and whether or not a prompt is configured as well;
    [unregisterVerificationHook] returns [true] for it and [false] when
    called again, and afterwards, or after a reset of the registry, the
    verification finds no hook and passes. *)
Theorem verification_hook_round_trip (st : State) (name : string) (hook : HookId)
    (l : loc) (config : Resolved.t) :
  name <> "" ->
  Resolved.verifyCompletion config = true ->
  Resolved.verificationHook config = name ->
  let registered := exec (registerVerificationHook name hook) st in
  let unregistered := exec (unregisterVerificationHook name) registered in
  let notFound :=
    VerdictNow {| passed := true;
                  reason := Some ("Hook '" +:+ name +:+ "' not found, skipping") |} in
  completion (verifyTaskCompletion l config) registered = Normal (AwaitHook hook) /\
  completion (unregisterVerificationHook name) registered = Normal true /\
  completion (unregisterVerificationHook name) unregistered = Normal false /\
  completion (verifyTaskCompletion l config) unregistered = Normal notFound /\
  completion (verifyTaskCompletion l config) (exec resetSubagentRegistryForTests registered)
  = Normal notFound /\
  completion (unregisterVerificationHook name)
    (exec resetSubagentRegistryForTests registered) = Normal false.
Proof.
  intros Hne Hvc Hhook registered unregistered notFound.
  assert (Hname : truthyStr name = true) by (destruct name; [congruence|reflexivity]).
  assert (Hreg : verificationHooks registered !! name = Some hook)
    by apply lookup_insert_eq.
  assert (Hunreg : verificationHooks unregistered !! name = None)
    by apply lookup_delete_eq.
  assert (Hreset : verificationHooks (exec resetSubagentRegistryForTests registered) !! name
                   = None).
  { apply (wp_post resetSubagentRegistryForTests
             (fun s => verificationHooks s !! name = None)).
    unfold resetSubagentRegistryForTests, stopSweeper.
    repeat first [progress known | wpx_step | wp_step]; apply lookup_empty. }
  assert (Hverify : forall s o,
            verificationHooks s !! name = o ->
            completion (verifyTaskCompletion l config) s
            = Normal (match o with Some h => AwaitHook h | None => notFound end)).
  { intros s o Ho. apply wp_value. unfold verifyTaskCompletion.
    rewrite Hvc, Hhook, Hname. cbn [negb].
    repeat first [progress known | wpx_step]. rewrite ?Ho.
    destruct o; reflexivity. }
  assert (Hun : forall s,
            completion (unregisterVerificationHook name) s
            = Normal (bool_decide (is_Some (verificationHooks s !! name)))) by reflexivity.
  split; [exact (Hverify _ _ Hreg)|].
  split; [rewrite Hun, Hreg; reflexivity|].
  split; [rewrite Hun, Hunreg; reflexivity|].
  split; [exact (Hverify _ _ Hunreg)|].
  split; [exact (Hverify _ _ Hreset)|].
  rewrite Hun, Hreset. reflexivity.
Qed.

Lemma verification_hook_round_trip_witness :
  completion (verifyTaskCompletion 0 (resolveOrchestrationConfig (Config.mk None None)
                                        (Some hookPolicy)))
    (exec (registerVerificationHook "check" 7) hookRunRegistered)
  = Normal (AwaitHook 7).
Proof.
  refine (proj1 (verification_hook_round_trip hookRunRegistered "check" 7 0
                   (resolveOrchestrationConfig (Config.mk None None) (Some hookPolicy))
                   _ _ _)).
  - discriminate.
  - reflexivity.
  - reflexivity.
Defined.

(** ** Release and reset *)

Lemma releaseSubagentRun_unregistered st runId :
  subagentRuns st !! runId = None ->
  (size (subagentRuns st) = 0%nat -> sweeper st = false) ->
  releaseSubagentRun runId st = (Normal tt, st).
Proof.
  intros Hr Hs. unfold releaseSubagentRun, bind, gets, modify, when, stopSweeper.
  rewrite Hr, (delete_id _ _ Hr).
  change (bool_decide (is_Some (@None loc))) with false. cbn [ret fst snd].
  destruct st as [h m sw ls ra rr pr pv vh ts sto]. cbn [subagentRuns with_subagentRuns] in *.
  destruct (Nat.eqb_spec (size m) 0) as [Hz|Hz]; [|reflexivity].
  cbn [sweeper] in *. rewrite (Hs Hz). reflexivity.
Qed.

(** X19: [releaseSubagentRun] removes the run from the registry and nothing
    else: every other run, every record object and every pending wait, timer
    or announce is left as it is.  A save is triggered exactly when the run
    was registered, the sweeper is stopped exactly when the registry is empty
    afterwards, and releasing the same run again changes nothing. *)
Theorem releaseSubagentRun_removes_one_run (st : State) (runId : string) :
  let st' := exec (releaseSubagentRun runId) st in
  let removed := with_subagentRuns (delete runId (subagentRuns st)) st in
  completion (releaseSubagentRun runId) st = Normal tt /\
  subagentRuns st' = delete runId (subagentRuns st) /\
  recordOf st' runId = None /\
  (forall r, r <> runId -> getRun st' r = getRun st r) /\
  heap st' = heap st /\ tasks st' = tasks st /\
  store st' = (if bool_decide (is_Some (subagentRuns st !! runId))
               then storeAfterPersist removed else store st) /\
  sweeper st' = (if Nat.eqb (size (delete runId (subagentRuns st))) 0
                 then false else sweeper st) /\
  releaseSubagentRun runId st' = (Normal tt, st').
Proof.
  cbv zeta. by_wp. unfold releaseSubagentRun, stopSweeper.
  destruct (bool_decide (is_Some (subagentRuns st !! runId))) eqn:Hd,
    (Nat.eqb (size (delete runId (subagentRuns st))) 0) eqn:Hz,
    (sweeper st) eqn:Hs.
  all: repeat first [progress known | wpx_step].
  all: split; [reflexivity|].
  all: split; [unfold recordOf, getRun; known; rewrite lookup_delete_eq; reflexivity|].
  all: split; [intros r Hr; unfold getRun; known; rewrite lookup_delete_ne by congruence;
               reflexivity|].
  all: do 4 (split; [known; rewrite ?Hs; reflexivity|]).
  all: apply releaseSubagentRun_unregistered;
    [known; apply lookup_delete_eq|known; rewrite ?Hs; try reflexivity].
  all: intros Hsize; rewrite Hsize in Hz; discriminate.
Qed.

Lemma step_event_unsubscribed env evt st :
  listenerStarted st = false -> step env (AgentEvent evt) st = (Normal tt, st).
Proof. intros H. unfold step, bind, gets, when. rewrite H. reflexivity. Qed.

Lemma step_tick_unarmed env st :
  sweeper st = false -> step env SweepTick st = (Normal tt, st).
Proof. intros H. unfold step, bind, gets, when. rewrite H. reflexivity. Qed.

Lemma state_ext (s s' : State) :
  heap s = heap s' -> subagentRuns s = subagentRuns s' -> sweeper s = sweeper s' ->
  listenerStarted s = listenerStarted s' -> restoreAttempted s = restoreAttempted s' ->
  resumedRuns s = resumedRuns s' -> pendingRetries s = pendingRetries s' ->
  pendingVerifications s = pendingVerifications s' ->
  verificationHooks s = verificationHooks s' -> tasks s = tasks s' -> store s = store s' ->
  s = s'.
Proof. destruct s, s'. simpl. intros. subst. reflexivity. Qed.

Lemma resetSubagentRegistryForTests_run st :
  resetSubagentRegistryForTests st
  = (Normal tt,
     persisted (mkState (heap st) ∅ false false false ∅ ∅ ∅ ∅ (tasks st) (store st))).
Proof.
  unfold resetSubagentRegistryForTests, stopSweeper, bind, gets, modify.
  cbn [fst snd sweeper with_subagentRuns with_resumedRuns with_pendingRetries
       with_pendingVerifications with_verificationHooks].
  destruct (sweeper st) eqn:Hs; cbn [negb ret]; rewrite persist_run.
  - reflexivity.
  - do 2 f_equal. apply state_ext; known; rewrite ?Hs; reflexivity.
Qed.

(** X20: [resetSubagentRegistryForTests] empties the registry, the marks of
    resumed runs, pending retries and verifications, and the hooks; it stops
    the sweeper, unsubscribes the listener, lets the restore run again, and
    triggers a save.  Record objects and pending waits, timers and announces
    are not touched.  Afterwards lifecycle events and sweeper ticks are
    ignored, and the registry stays empty until a run is registered or
    restored, whatever the pending replies do. *)
Theorem reset_empties_the_registry (st : State) :
  let st' := exec resetSubagentRegistryForTests st in
  completion resetSubagentRegistryForTests st = Normal tt /\
  st' = persisted (mkState (heap st) ∅ false false false ∅ ∅ ∅ ∅ (tasks st) (store st)) /\
  (forall runId, recordOf st' runId = None) /\
  (forall env evt, step env (AgentEvent evt) st' = (Normal tt, st')) /\
  (forall env, step env SweepTick st' = (Normal tt, st')) /\
  (forall trace,
     forallb (fun ee : Env * Event => negb (adds ee.2)) trace = true ->
     subagentRuns (run trace st') = ∅).
Proof.
  cbv zeta. unfold completion, exec. rewrite resetSubagentRegistryForTests_run.
  cbn [fst snd].
  set (st' := persisted (mkState (heap st) ∅ false false false ∅ ∅ ∅ ∅ (tasks st) (store st))).
  assert (Hr : subagentRuns st' = ∅) by reflexivity.
  split; [reflexivity|]. split; [reflexivity|]. split; [|split; [|split]].
  - intros runId. unfold recordOf, getRun. rewrite Hr, lookup_empty. reflexivity.
  - intros env evt. apply step_event_unsubscribed. reflexivity.
  - intros env. apply step_tick_unarmed. reflexivity.
  - intros trace Hadd.
    destruct (kept_run false false trace st') as [_ Hg]; [discriminate|auto|].
    specialize (Hg eq_refl). rewrite Hr in Hg.
    apply map_eq. intros r. rewrite lookup_empty.
    destruct (subagentRuns (run trace st') !! r) as [l|] eqn:Hl; [|reflexivity].
    pose proof (lookup_weaken _ _ _ _ Hl Hg) as H0. rewrite lookup_empty in H0. discriminate.
Qed.

(** ** Resuming after a restart *)

(** X21: [resumeSubagentRun] does nothing for an empty run id, for a run
    that was resumed before, that is not registered or whose cleanup is
    complete.  For a run that has ended ([endedAt > 0]) it begins cleanup and
    starts the announce, and marks the run as resumed; but when the record
    is already marked [cleanupHandled] it does nothing at all, not even mark
    the run.  For a run that has not ended it starts one [agent.wait] with
    the default timeout (at least 1 ms), leaves the record as it is and marks
    the run as resumed. *)
Theorem resumeSubagentRun_cases (env : Env) (st : State) (runId : string) :
  let resume := resumeSubagentRun env runId in
  let hasEnded (e : SubagentRunRecord) :=
    match endedAt e with Some t => 0 <? t | None => false end in
  ((runId = "" \/ runId ∈ resumedRuns st \/ getRun st runId = None \/
    (exists l e, getRun st runId = Some (l, e) /\ completed e = true)) ->
   resume st = (Normal tt, st)) /\
  (forall l e,
     runId <> "" -> runId ∉ resumedRuns st ->
     getRun st runId = Some (l, e) -> completed e = false ->
     if hasEnded e then
       if truthyBool (cleanupHandled e) then resume st = (Normal tt, st)
       else
         resume st
         = (Normal tt,
            with_resumedRuns ({[runId]} ∪ resumedRuns st)
              (with_tasks
                 (tasks st ++ [TAnnounce runId l
                                 (announceParams (set_cleanupHandled (Some true) e))])
                 (persisted
                    (with_heap (alter (set_cleanupHandled (Some true)) l (heap st)) st))))
     else
       resume st
       = (Normal tt,
          with_resumedRuns ({[runId]} ∪ resumedRuns st)
            (with_tasks
               (tasks st ++ [TWait runId
                               (Z.max 1 (resolveAgentTimeoutMs env (loadConfig env) None))])
               st))).
Proof.
  cbv zeta. split.
  - intros Hcase. unfold resumeSubagentRun, bind, gets.
    destruct runId as [|c r] eqn:Hid; [reflexivity|]. rewrite <- Hid in *.
    assert (Ht : truthyStr runId = true) by (rewrite Hid; reflexivity). rewrite Ht.
    destruct (bool_decide (runId ∈ resumedRuns st)) eqn:Hres; [reflexivity|].
    cbv beta. cbn [negb orb].
    destruct Hcase as [Hc|[Hc|[Hc|(l & e & Hrun & Hc)]]].
    + congruence.
    + apply bool_decide_eq_false in Hres. contradiction.
    + rewrite Hc. reflexivity.
    + rewrite Hrun. unfold completed in Hc. rewrite Hc. reflexivity.
  - intros l e Hne Hnot Hrun Hc.
    pose proof (proj1 (getRun_Some _ _ _ _) Hrun) as [Hr He].
    assert (Ht : truthyStr runId = true) by (destruct runId; [congruence|reflexivity]).
    unfold completed in Hc.
    unfold resumeSubagentRun, bind, gets. rewrite Ht, (bool_decide_eq_false_2 _ Hnot).
    cbv beta. cbn [negb orb]. rewrite Hrun, Hc.
    destruct (match endedAt e with Some t => 0 <? t | None => false end).
    + unfold beginSubagentCleanup, bind, gets. rewrite Hrun, Hc.
      destruct (truthyBool (cleanupHandled e)); [reflexivity|].
      unfold mutate, modify. cbn [fst snd]. rewrite persist_run. cbn [ret negb].
      unfold startAnnounce, withEntry, withEntryOr.
      cbn [heap persisted with_store with_heap]. rewrite list_lookup_alter_eq, He.
      reflexivity.
    + unfold waitForSubagentCompletion, resolveSubagentWaitTimeoutMs, spawn, modify.
      reflexivity.
Qed.

(** ** Restoring the registry *)

Lemma grownG_heap st0 S h : grownG st0 S -> grownG st0 (with_heap h S).
Proof. exact id. Qed.

Lemma grownG_store st0 S s : grownG st0 S -> grownG st0 (with_store s S).
Proof. exact id. Qed.

Lemma grown_refl st : framed anyR grownG st st.
Proof.
  split; [|split; reflexivity]. intros l e He. exists e. split; [exact He|exact I].
Qed.

Ltac grown_side :=
  first [ exact grownG_heap | exact grownG_store | intros ? ? _ _; exact I ].

Create HintDb grownops discriminated.

Ltac grown_call H :=
  eapply wp_mono; [solve [eauto 3 with grownops] | clear H; intros ? ? H; cbv beta in H].

Ltac wpr H := wpf H grown_side ltac:(grown_call).

Lemma grown_beginSubagentCleanup st0 st runId :
  framed anyR grownG st0 st ->
  wp (beginSubagentCleanup runId) (fun _ st' => framed anyR grownG st0 st') st.
Proof. intros H. unfold beginSubagentCleanup. wpr H. Qed.

Lemma grown_startAnnounce st0 st runId l :
  framed anyR grownG st0 st ->
  wp (startAnnounce runId l) (fun _ st' => framed anyR grownG st0 st') st.
Proof. intros H. unfold startAnnounce. wpr H. Qed.

Lemma grown_waitForSubagentCompletion st0 st runId t :
  framed anyR grownG st0 st ->
  wp (waitForSubagentCompletion runId t) (fun _ st' => framed anyR grownG st0 st') st.
Proof. intros H. unfold waitForSubagentCompletion. wpr H. Qed.

Lemma grown_ensureListener st0 st :
  framed anyR grownG st0 st ->
  wp ensureListener (fun _ st' => framed anyR grownG st0 st') st.
Proof. intros H. unfold ensureListener. wpr H. Qed.

Lemma grown_startSweeper st0 st :
  framed anyR grownG st0 st ->
  wp startSweeper (fun _ st' => framed anyR grownG st0 st') st.
Proof. intros H. unfold startSweeper. wpr H. Qed.

#[local] Hint Resolve grown_beginSubagentCleanup grown_startAnnounce
  grown_waitForSubagentCompletion grown_ensureListener grown_startSweeper : grownops.

Lemma grown_resumeSubagentRun st0 st env runId :
  framed anyR grownG st0 st ->
  wp (resumeSubagentRun env runId) (fun _ st' => framed anyR grownG st0 st') st.
Proof. intros H. unfold resumeSubagentRun. wpr H. Qed.

Lemma restoreEntry_grows kv S :
  wp (restoreEntry kv)
    (fun _ S' =>
       subagentRuns S ⊆ subagentRuns S' /\ restoreAttempted S' = restoreAttempted S /\
       (truthyStr kv.1 = true -> is_Some (subagentRuns S' !! kv.1))) S.
Proof.
  unfold restoreEntry. apply wp_bind, wp_gets. cbv beta.
  destruct (truthyStr kv.1) eqn:Ht; cbn [negb orb].
  - destruct (bool_decide (is_Some (subagentRuns S !! kv.1))) eqn:Hp.
    + apply bool_decide_eq_true in Hp. repeat split; [reflexivity|]. intros _. exact Hp.
    + apply bool_decide_eq_false in Hp. rewrite <- eq_None_not_Some in Hp.
      apply wp_bind, wp_alloc, wp_modify. cbn [subagentRuns restoreAttempted with_heap
        with_subagentRuns].
      split; [apply insert_subseteq, Hp|]. split; [reflexivity|].
      intros _. rewrite lookup_insert_eq. eauto.
  - repeat split; [reflexivity|discriminate].
Qed.

Lemma restoreEntries_grow entries :
  forall S,
    wp (forEach entries restoreEntry)
      (fun _ S' =>
         subagentRuns S ⊆ subagentRuns S' /\ restoreAttempted S' = restoreAttempted S /\
         forall kv, kv ∈ entries -> truthyStr kv.1 = true ->
                    is_Some (subagentRuns S' !! kv.1)) S.
Proof.
  induction entries as [|x xs IH]; intros S.
  - repeat split; [reflexivity|]. intros kv Hin. inversion Hin.
  - cbn [forEach]. apply wp_bind.
    eapply wp_mono; [apply restoreEntry_grows|]. intros a S1 (Hsub & Hra & Hx). cbv beta.
    eapply wp_mono; [apply IH|]. intros a' S2 (Hsub' & Hra' & Hxs). cbv beta.
    split; [etrans; eassumption|]. split; [congruence|].
    intros kv Hin Ht. apply elem_of_cons in Hin as [->|Hin]; [|exact (Hxs kv Hin Ht)].
    destruct (Hx Ht) as [l Hl]. exists l. exact (lookup_weaken _ _ _ _ Hl Hsub').
Qed.

Lemma restoreSubagentRunsOnce_unfold env restored :
  restoreSubagentRunsOnce env restored
  = (let* attempted := gets restoreAttempted in
     if attempted then ret tt
     else
       modify (with_restoreAttempted true);;
       match restored with
       | None => ret tt
       | Some [] => ret tt
       | Some entries =>
           forEach entries restoreEntry;;
           ensureListener;;
           let* archived := gets (fun st =>
             existsb (fun kv : string * loc =>
                        match heap st !! kv.2 with
                        | Some entry => truthyNum (archiveAtMs entry)
                        | None => false
                        end)
                     (map_to_list (subagentRuns st))) in
           when archived startSweeper;;
           let* keys := gets (fun st => (map_to_list (subagentRuns st)).*1) in
           forEach keys (resumeSubagentRun env)
       end)%M.
Proof. reflexivity. Qed.

Lemma restoreSubagentRunsOnce_grows env restored st :
  restoreAttempted st = false ->
  wp (restoreSubagentRunsOnce env restored)
    (fun _ st' =>
       subagentRuns st ⊆ subagentRuns st' /\ restoreAttempted st' = true /\
       forall entries kv, restored = Some entries -> kv ∈ entries -> truthyStr kv.1 = true ->
                          is_Some (subagentRuns st' !! kv.1)) st.
Proof.
  intros Hra. rewrite restoreSubagentRunsOnce_unfold.
  apply wp_bind, wp_gets. cbv beta. rewrite Hra.
  apply wp_bind, wp_modify. cbv beta.
  destruct restored as [[|x xs]|].
  - repeat split; [reflexivity|]. intros entries kv [= <-] Hin. inversion Hin.
  - apply wp_bind. eapply wp_mono; [apply restoreEntries_grow|].
    intros a S1 (Hsub & Hra1 & Hkeys). cbv beta.
    pose proof (grown_refl S1) as H.
    assert (Hend : wp (ensureListener;;
                       let* archived := gets (fun st =>
                         existsb (fun kv : string * loc =>
                                    match heap st !! kv.2 with
                                    | Some entry => truthyNum (archiveAtMs entry)
                                    | None => false
                                    end)
                                 (map_to_list (subagentRuns st))) in
                       when archived startSweeper;;
                       let* keys := gets (fun st => (map_to_list (subagentRuns st)).*1) in
                       forEach keys (resumeSubagentRun env))%M
                   (fun _ S2 => framed anyR grownG S1 S2) S1).
    { wpr H.
      all: eapply wp_mono;
        [ apply (wp_forEach (fun S' => framed anyR grownG S1 S')); 
          [exact H|intros y S' _ H'; apply grown_resumeSubagentRun, H']
        | intros ? ? H'; exact H' ]. }
    eapply wp_mono; [exact Hend|]. intros a' S2 [_ [Hsub2 Hra2]]. cbv beta.
    cbn [subagentRuns restoreAttempted with_restoreAttempted] in Hsub, Hra1.
    split; [etrans; eassumption|]. split; [congruence|].
    intros entries kv [= <-] Hin Ht. destruct (Hkeys kv Hin Ht) as [l Hl].
    exists l. exact (lookup_weaken _ _ _ _ Hl Hsub2).
  - repeat split; [reflexivity|]. intros entries kv Hd. discriminate Hd.
Qed.

(** X22: the restore runs once.  The first call sets [restoreAttempted];
    when the load fails or the loaded snapshot is empty it does nothing else.
    Otherwise every loaded run id that is not empty is registered afterwards,
    and the runs that were in memory keep their record objects: an entry
    already in memory wins over the loaded one.  Every later call leaves the
    state as it is, whatever the disk holds by then. *)
Theorem restore_runs_once (env : Env) (restored : option (list (string * SubagentRunRecord)))
    (st : State) :
  let st' := exec (restoreSubagentRunsOnce env restored) st in
  completion (restoreSubagentRunsOnce env restored) st = Normal tt /\
  restoreAttempted st' = true /\
  subagentRuns st ⊆ subagentRuns st' /\
  (restoreAttempted st = true -> st' = st) /\
  (restoreAttempted st = false -> restored = None \/ restored = Some [] ->
   st' = with_restoreAttempted true st) /\
  (restoreAttempted st = false ->
   forall entries runId entry,
     restored = Some entries -> (runId, entry) ∈ entries -> runId <> "" ->
     is_Some (subagentRuns st' !! runId)) /\
  (forall restored', restoreSubagentRunsOnce env restored' st' = (Normal tt, st')).
Proof.
  cbv zeta.
  assert (Hagain : forall r s, restoreAttempted s = true ->
                     restoreSubagentRunsOnce env r s = (Normal tt, s)).
  { intros r s Hs. unfold restoreSubagentRunsOnce, bind, gets. rewrite Hs. reflexivity. }
  destruct (restoreAttempted st) eqn:Hra.
  - unfold completion, exec. rewrite (Hagain restored st Hra). cbn [fst snd].
    split; [reflexivity|]. split; [exact Hra|]. split; [reflexivity|].
    split; [reflexivity|]. split; [discriminate|]. split; [discriminate|].
    intros r. apply Hagain, Hra.
  - destruct (wp_run _ _ _ (restoreSubagentRunsOnce_grows env restored st Hra))
      as ([] & Hc & Hsub & Hra' & Hkeys).
    split; [exact Hc|]. split; [exact Hra'|]. split; [exact Hsub|].
    split; [discriminate|]. split; [|split].
    + intros _ [-> | ->]; unfold exec, restoreSubagentRunsOnce, bind, gets, modify;
        rewrite Hra; reflexivity.
    + intros _ entries runId entry Hr Hin Hne.
      apply (Hkeys entries (runId, entry) Hr Hin).
      destruct runId; [congruence|reflexivity].
    + intros r. apply Hagain, Hra'.
Qed.

(** ** The sweeper *)

Lemma sweepSubagentRuns_effect env st :
  let kept := filter (fun kv : string * loc => sweepKeeps (heap st) (now env) kv.2 = true)
                (subagentRuns st) in
  wp (sweepSubagentRuns env)
    (fun _ S =>
       heap S = heap st /\ subagentRuns S = kept /\ tasks S = tasks st /\
       (kept = subagentRuns st -> store S = store st) /\
       sweeper S = (if Nat.eqb (size kept) 0 then false else sweeper st)) st.
Proof.
  intros kept. unfold sweepSubagentRuns, stopSweeper.
  apply wp_bind, wp_gets. cbv beta. apply wp_bind, wp_gets. cbv beta zeta. fold kept.
  destruct (bool_decide (kept = subagentRuns st)) eqn:Hm,
    (Nat.eqb (size kept) 0) eqn:Hz, (sweeper st) eqn:Hs.
  all: repeat first [progress known | wpx_step].
  all: rewrite ?Hz, ?Hs; repeat split; try reflexivity.
  all: intros Heq; apply bool_decide_eq_false in Hm; destruct (Hm Heq).
Qed.

(** X23: a sweep, with the gateway calls that delete the child sessions
    taken to answer within the turn, removes from the registry exactly the
    runs that are due, those whose [archiveAtMs] is set, not 0 and not after
    the current time; it never removes a run that is not due and touches no
    record object and no pending wait, timer or announce.  When no run is
    due it triggers no save.  It stops the sweeper exactly when the registry
    is empty afterwards. *)
Theorem sweep_removes_due_runs (env : Env) (st : State) :
  let st' := exec (sweepSubagentRuns env) st in
  let due (e : SubagentRunRecord) :=
    (truthyNum (archiveAtMs e) && (archiveAtMs e ?? 0 <=? now env))%bool in
  completion (sweepSubagentRuns env) st = Normal tt /\
  (forall runId l e,
     getRun st runId = Some (l, e) ->
     getRun st' runId = if due e then None else Some (l, e)) /\
  (forall runId, getRun st runId = None -> recordOf st' runId = None) /\
  heap st' = heap st /\ tasks st' = tasks st /\
  ((forall runId l e, getRun st runId = Some (l, e) -> due e = false) ->
   subagentRuns st' = subagentRuns st /\ store st' = store st) /\
  sweeper st' = (if Nat.eqb (size (subagentRuns st')) 0 then false else sweeper st).
Proof.
  cbv zeta.
  destruct (wp_run _ _ _ (sweepSubagentRuns_effect env st))
    as ([] & Hc & Hh & Hr & Ht & Hst & Hsw).
  set (kept := filter (fun kv : string * loc => sweepKeeps (heap st) (now env) kv.2 = true)
                 (subagentRuns st)) in *.
  assert (Hkeep : forall l e, heap st !! l = Some e ->
            sweepKeeps (heap st) (now env) l
            = negb (truthyNum (archiveAtMs e) && (archiveAtMs e ?? 0 <=? now env))).
  { intros l e He. unfold sweepKeeps. rewrite He.
    rewrite negb_andb, Z.leb_antisym, negb_involutive. reflexivity. }
  split; [exact Hc|]. split; [|split; [|split; [exact Hh|split; [exact Ht|split]]]].
  - intros runId l e Hrun. apply getRun_Some in Hrun as [Hl He].
    unfold getRun. rewrite Hr, Hh. subst kept.
    destruct (truthyNum (archiveAtMs e) && (archiveAtMs e ?? 0 <=? now env))%bool eqn:Hd.
    + assert (Hf : filter (fun kv : string * loc =>
                             sweepKeeps (heap st) (now env) kv.2 = true)
                     (subagentRuns st) !! runId = None).
      { apply map_lookup_filter_None. right. intros l' Hl'.
        assert (l' = l) as -> by congruence. cbn [snd].
        rewrite (Hkeep l e He), Hd. discriminate. }
      rewrite Hf. reflexivity.
    + assert (Hf : filter (fun kv : string * loc =>
                             sweepKeeps (heap st) (now env) kv.2 = true)
                     (subagentRuns st) !! runId = Some l).
      { apply map_lookup_filter_Some. split; [exact Hl|]. cbn [snd].
        rewrite (Hkeep l e He), Hd. reflexivity. }
      rewrite Hf, He. reflexivity.
  - intros runId Hrun. unfold recordOf, getRun. rewrite Hr, Hh. subst kept.
    destruct (filter _ (subagentRuns st) !! runId) as [l|] eqn:Hl; [|reflexivity].
    apply map_lookup_filter_Some in Hl as [Hl _].
    unfold getRun in Hrun. rewrite Hl in Hrun.
    destruct (heap st !! l); [discriminate|reflexivity].
  - intros Hnone.
    assert (Hsame : kept = subagentRuns st).
    { subst kept. apply map_filter_id. intros r l Hl. cbn [snd].
      destruct (heap st !! l) as [e|] eqn:He.
      - rewrite (Hkeep l e He), (Hnone r l e (proj2 (getRun_Some _ _ _ _) (conj Hl He))).
        reflexivity.
      - unfold sweepKeeps. rewrite He. reflexivity. }
    split; [congruence|exact (Hst Hsame)].
  - rewrite Hsw, Hr. reflexivity.
Qed.

(** ** Adding a record directly *)

(** X24: [addSubagentRunForTests] stores the given record under its own
    [runId], replacing what was registered under it, and triggers a save;
    other runs are left alone.  Unlike [registerSubagentRun] it arms no wait
    prober, does not subscribe the listener and does not arm the sweeper: as
    long as the listener is not subscribed, lifecycle events for the run are
    not seen.  The record is listed for its requester. *)
Theorem addSubagentRunForTests_stores_the_record (st : State) (entry : SubagentRunRecord) :
  let st' := exec (addSubagentRunForTests entry) st in
  completion (addSubagentRunForTests entry) st = Normal tt /\
  getRun st' (runId entry) = Some (length (heap st), entry) /\
  (forall r, r <> runId entry -> getRun st r <> None -> getRun st' r = getRun st r) /\
  tasks st' = tasks st /\
  listenerStarted st' = listenerStarted st /\
  sweeper st' = sweeper st /\
  (listenerStarted st = false ->
   forall env evt, step env (AgentEvent evt) st' = (Normal tt, st')) /\
  (forall key, trim key = requesterSessionKey entry -> requesterSessionKey entry <> "" ->
               entry ∈ listSubagentRunsForRequester st' key).
Proof.
  cbv zeta.
  assert (Hst : addSubagentRunForTests entry st
                = (Normal tt,
                   persisted (with_subagentRuns
                                (<[runId entry := length (heap st)]> (subagentRuns st))
                                (with_heap (heap st ++ [entry]) st)))).
  { unfold addSubagentRunForTests, bind, alloc, modify. rewrite persist_run. reflexivity. }
  unfold completion, exec. rewrite Hst. cbn [fst snd].
  set (st' := persisted _).
  assert (Hrun : getRun st' (runId entry) = Some (length (heap st), entry)).
  { unfold getRun, st'. cbn [subagentRuns heap persisted with_store with_subagentRuns with_heap].
    rewrite lookup_insert_eq, lookup_snoc_length. reflexivity. }
  split; [reflexivity|]. split; [exact Hrun|]. split; [|split; [|split; [|split; [|split]]]].
  - intros r Hne Hsome. unfold getRun in *. unfold st'.
    cbn [subagentRuns heap persisted with_store with_subagentRuns with_heap].
    rewrite lookup_insert_ne by congruence.
    destruct (subagentRuns st !! r) as [l|]; [|reflexivity].
    destruct (heap st !! l) as [e|] eqn:He; [|congruence].
    rewrite lookup_app_l by (eapply lookup_lt_Some; eauto). rewrite He. reflexivity.
  - reflexivity.
  - reflexivity.
  - reflexivity.
  - intros Hl env evt. apply step_event_unsubscribed. exact Hl.
  - intros key Hk Hne. apply listSubagentRunsForRequester_spec.
    split; [congruence|]. split; [symmetry; exact Hk|].
    exists (runId entry). unfold recordOf. rewrite Hrun. reflexivity.
Qed.

(** ** A pending retry is a retry in flight *)

Lemma retryKeys_app ts ts' : retryKeys (ts ++ ts') = (retryKeys ts ++ retryKeys ts')%list.
Proof. apply omap_app. Qed.

Lemma retryKeys_delete ts i t k :
  ts !! i = Some t -> k ∈ retryKeys ts -> k ∈ retryKeys (delete i ts) \/ retryKey t = Some k.
Proof.
  intros Hi Hk. unfold retryKeys in *. apply list_elem_of_omap in Hk as (t' & Hin & Hkey).
  apply list_elem_of_lookup in Hin as [j Hj].
  destruct (decide (j = i)) as [->|Hne]; [right; congruence|left].
  apply list_elem_of_omap. exists t'. split; [|exact Hkey].
  destruct (decide (j < i)%nat) as [Hlt|Hge].
  - apply (list_elem_of_lookup_2 _ j). rewrite list_lookup_delete_lt by exact Hlt. exact Hj.
  - apply (list_elem_of_lookup_2 _ (pred j)).
    rewrite list_lookup_delete_ge by lia. replace (S (pred j)) with j by lia. exact Hj.
Qed.

Section Covered.
Variable except : option string.

Lemma coveredG_heap st0 S h : coveredG except st0 S -> coveredG except st0 (with_heap h S).
Proof. exact id. Qed.

Lemma coveredG_store st0 S s : coveredG except st0 S -> coveredG except st0 (with_store s S).
Proof. exact id. Qed.

Lemma coveredG_spawn st0 S t :
  coveredG except st0 S -> coveredG except st0 (with_tasks (tasks S ++ [t]) S).
Proof.
  intros H k Hk. destruct (H k Hk) as [He|Hin]; [left; exact He|right].
  cbn [tasks with_tasks]. rewrite retryKeys_app. apply elem_of_app. left. exact Hin.
Qed.

Lemma coveredG_unmark st0 S k :
  coveredG except st0 S ->
  coveredG except st0 (with_pendingRetries (pendingRetries S ∖ {[k]}) S).
Proof.
  intros H k' Hk'. cbn [pendingRetries with_pendingRetries] in Hk'.
  apply elem_of_difference in Hk' as [Hk' _]. exact (H k' Hk').
Qed.

Lemma coveredG_clear st0 S : coveredG except st0 (with_pendingRetries ∅ S).
Proof. intros k Hk. cbn [pendingRetries with_pendingRetries] in Hk. set_solver. Qed.

Ltac covered_side :=
  first
    [ exact coveredG_heap
    | exact coveredG_store
    | intros ? ? _ _; exact I
    | match goal with
      | H : framed _ _ _ _ |- _ =>
          first [ apply coveredG_spawn, (proj2 H)
                | apply coveredG_unmark, (proj2 H)
                | apply coveredG_clear ]
      end ].

Create HintDb coveredops discriminated.

Ltac covered_call H :=
  eapply wp_mono; [solve [eauto 3 with coveredops] | clear H; intros ? ? H; cbv beta in H].

Ltac wpv H := wpf H covered_side ltac:(covered_call).

Local Abbreviation keeps m :=
  (forall st0 st, framed anyR (coveredG except) st0 st ->
     wp m (fun _ st' => framed anyR (coveredG except) st0 st') st).

Lemma covered_beginSubagentCleanup runId : keeps (beginSubagentCleanup runId).
Proof. intros st0 st H. unfold beginSubagentCleanup. wpv H. Qed.

Lemma covered_startAnnounce runId l : keeps (startAnnounce runId l).
Proof. intros st0 st H. unfold startAnnounce. wpv H. Qed.

#[local] Hint Resolve covered_beginSubagentCleanup covered_startAnnounce : coveredops.

Lemma covered_proceedWithCleanup runId l : keeps (proceedWithCleanup runId l).
Proof. intros st0 st H. unfold proceedWithCleanup. wpv H. Qed.

Lemma covered_waitForSubagentCompletion runId t : keeps (waitForSubagentCompletion runId t).
Proof. intros st0 st H. unfold waitForSubagentCompletion. wpv H. Qed.

#[local] Hint Resolve covered_proceedWithCleanup covered_waitForSubagentCompletion
  : coveredops.

Lemma covered_waitForSubagentCompletion_reply env runId wait :
  keeps (waitForSubagentCompletion_reply env runId wait).
Proof. intros st0 st H. unfold waitForSubagentCompletion_reply. wpv H. Qed.

Lemma covered_scheduleTaskRetry env l config key :
  keeps (scheduleTaskRetry env l config key).
Proof. intros st0 st H. unfold scheduleTaskRetry. wpv H. Qed.

Lemma covered_verifyTaskCompletion l config : keeps (verifyTaskCompletion l config).
Proof. intros st0 st H. unfold verifyTaskCompletion. wpv H. Qed.

Lemma covered_taskCompletionHandled runId l : keeps (taskCompletionHandled runId l).
Proof. intros st0 st H. unfold taskCompletionHandled. wpv H. Qed.

Lemma covered_finalizeSubagentCleanup env runId cleanup didAnnounce :
  keeps (finalizeSubagentCleanup env runId cleanup didAnnounce).
Proof. intros st0 st H. unfold finalizeSubagentCleanup. wpv H. Qed.

#[local] Hint Resolve covered_verifyTaskCompletion covered_taskCompletionHandled
  covered_finalizeSubagentCleanup : coveredops.

Lemma covered_announceSettled env runId l didAnnounce :
  keeps (announceSettled env runId l didAnnounce).
Proof. intros st0 st H. unfold announceSettled. wpv H. Qed.

Lemma covered_ensureListener : keeps ensureListener.
Proof. intros st0 st H. unfold ensureListener. wpv H. Qed.

Lemma covered_startSweeper : keeps startSweeper.
Proof. intros st0 st H. unfold startSweeper. wpv H. Qed.

Lemma covered_stopSweeper : keeps stopSweeper.
Proof. intros st0 st H. unfold stopSweeper. wpv H. Qed.

#[local] Hint Resolve covered_ensureListener covered_startSweeper covered_stopSweeper
  : coveredops.

Lemma covered_sweepSubagentRuns env : keeps (sweepSubagentRuns env).
Proof. intros st0 st H. unfold sweepSubagentRuns. wpv H. Qed.

Lemma covered_releaseSubagentRun runId : keeps (releaseSubagentRun runId).
Proof. intros st0 st H. unfold releaseSubagentRun. wpv H. Qed.

Lemma covered_resetSubagentRegistryForTests : keeps resetSubagentRegistryForTests.
Proof. intros st0 st H. unfold resetSubagentRegistryForTests. wpv H. Qed.

Lemma covered_registerVerificationHook name hook : keeps (registerVerificationHook name hook).
Proof. intros st0 st H. unfold registerVerificationHook. wpv H. Qed.

Lemma covered_unregisterVerificationHook name : keeps (unregisterVerificationHook name).
Proof. intros st0 st H. unfold unregisterVerificationHook. wpv H. Qed.

Lemma covered_resumeSubagentRun env runId : keeps (resumeSubagentRun env runId).
Proof. intros st0 st H. unfold resumeSubagentRun. wpv H. Qed.

Lemma covered_registerSubagentRun env params : keeps (registerSubagentRun env params).
Proof.
  intros st0 st H. unfold registerSubagentRun.
  apply wp_bind. eapply wpf_alloc; [exact coveredG_heap|exact H|].
  clear H. intros l S H. wpv H.
Qed.

Lemma covered_restoreSubagentRunsOnce env restored :
  keeps (restoreSubagentRunsOnce env restored).
Proof.
  intros st0 st H. rewrite restoreSubagentRunsOnce_unfold.
  apply wp_bind, wp_gets. cbv beta. destruct (restoreAttempted st); [exact H|].
  apply wp_bind, wp_modify. cbv beta.
  destruct restored as [[|kv entries]|]; [exact H| |exact H].
  apply wp_bind.
  eapply wp_mono;
    [apply (wp_forEach (fun S => framed anyR (coveredG except) st0 S))|].
  - exact H.
  - clear H. intros x S _ H. unfold restoreEntry. apply wp_bind, wp_gets. cbv beta.
    destruct (negb (truthyStr x.1) || bool_decide (is_Some (subagentRuns S !! x.1)))%bool;
      [exact H|].
    apply wp_bind. eapply wpf_alloc; [exact coveredG_heap|exact H|].
    clear H. intros l S' H. wpv H.
  - clear H. intros a S H. cbv beta in H. wpv H.
    all: eapply wp_mono;
      [ apply (wp_forEach (fun S' => framed anyR (coveredG except) st0 S'));
        [exact H|intros x S' _ H'; apply covered_resumeSubagentRun, H']
      | intros ? ? H'; exact H' ].
Qed.
End Covered.

Lemma covered_mark st0 S k :
  framed anyR (coveredG None) st0 S ->
  framed anyR (coveredG (Some k)) st0
    (with_pendingRetries ({[k]} ∪ pendingRetries S) S).
Proof.
  intros [Hh Hg]. split; [exact Hh|]. intros k' Hk'.
  cbn [pendingRetries with_pendingRetries] in Hk'.
  apply elem_of_union in Hk' as [Hk'|Hk'].
  - left. apply elem_of_singleton in Hk'. congruence.
  - destruct (Hg k' Hk') as [Hd|Hin]; [discriminate|right; exact Hin].
Qed.

Lemma covered_close st0 S k t :
  framed anyR (coveredG (Some k)) st0 S -> retryKey t = Some k ->
  framed anyR (coveredG None) st0 (with_tasks (tasks S ++ [t]) S).
Proof.
  intros [Hh Hg] Ht. split; [exact Hh|]. intros k' Hk'. right.
  cbn [tasks with_tasks]. rewrite retryKeys_app. apply elem_of_app.
  destruct (Hg k' Hk') as [[= ->]|Hin]; [right|left; exact Hin].
  unfold retryKeys. cbn. rewrite Ht. apply list_elem_of_here.
Qed.

Lemma covered_unmark st0 S k :
  framed anyR (coveredG (Some k)) st0 S ->
  framed anyR (coveredG None) st0 (with_pendingRetries (pendingRetries S ∖ {[k]}) S).
Proof.
  intros [Hh Hg]. split; [exact Hh|]. intros k' Hk'.
  cbn [pendingRetries with_pendingRetries] in Hk'.
  apply elem_of_difference in Hk' as [Hk' Hne]. right.
  destruct (Hg k' Hk') as [[= ->]|Hin]; [|exact Hin].
  destruct Hne. apply elem_of_singleton. reflexivity.
Qed.

Lemma covered_open st0 S i t :
  framed anyR (coveredG None) st0 S -> tasks S !! i = Some t ->
  framed anyR (coveredG (retryKey t)) st0 (with_tasks (delete i (tasks S)) S).
Proof.
  intros [Hh Hg] Hi. split; [exact Hh|]. intros k Hk.
  destruct (Hg k Hk) as [Hd|Hin]; [discriminate|].
  destruct (retryKeys_delete _ _ _ _ Hi Hin) as [Hin'|Hkey]; [right; exact Hin'|left].
  congruence.
Qed.

Lemma covered_weaken st0 S k :
  framed anyR (coveredG None) st0 S -> framed anyR (coveredG (Some k)) st0 S.
Proof.
  intros [Hh Hg]. split; [exact Hh|]. intros k' Hk'.
  destruct (Hg k' Hk') as [Hd|Hin]; [discriminate|right; exact Hin].
Qed.

(** The mark is set just before the retry is scheduled. *)
Lemma covered_scheduleTaskRetry_marked env l config k st0 S :
  framed anyR (coveredG (Some k)) st0 S -> is_Some (heap S !! l) ->
  wp (scheduleTaskRetry env l config k)
    (fun _ S' => framed anyR (coveredG None) st0 S') S.
Proof.
  intros H [e He]. unfold scheduleTaskRetry.
  eapply wp_withEntryOr_known; [exact He|]. cbv zeta.
  apply wp_bind. eapply wpf_mutate; [exact (coveredG_heap (Some k))|exact H|intros ? ? _ _; exact I|].
  clear H. intros S1 H.
  apply wp_bind. eapply wpf_mutate; [exact (coveredG_heap (Some k))|exact H|intros ? ? _ _; exact I|].
  clear H. intros S2 H.
  apply wp_bind. eapply wpf_persist; [exact (coveredG_store (Some k))|exact H|].
  clear H. intros S3 H. apply wp_spawn. apply (covered_close _ _ k); [exact H|reflexivity].
Qed.

Lemma covered_mark_and_schedule env l config k st0 S :
  framed anyR (coveredG None) st0 S -> is_Some (heap S !! l) ->
  wp (scheduleTaskRetry env l config k)
    (fun _ S' => framed anyR (coveredG None) st0 S')
    (with_pendingRetries ({[k]} ∪ pendingRetries S) S).
Proof.
  intros H He. apply covered_scheduleTaskRetry_marked; [apply covered_mark, H|exact He].
Qed.

Create HintDb covered0 discriminated.

#[local] Hint Resolve covered_beginSubagentCleanup covered_startAnnounce
  covered_proceedWithCleanup covered_waitForSubagentCompletion
  covered_verifyTaskCompletion covered_taskCompletionHandled : covered0.

Ltac covered0_side :=
  first
    [ exact (coveredG_heap None)
    | exact (coveredG_store None)
    | intros ? ? _ _; exact I
    | match goal with
      | H : framed _ _ _ _ |- _ =>
          first [ apply coveredG_spawn, (proj2 H) | apply coveredG_unmark, (proj2 H) ]
      end ].

Ltac covered0_call H :=
  eapply wp_mono; [solve [eauto 3 with covered0] | clear H; intros ? ? H; cbv beta in H].

Ltac wpv0 H := wpf H covered0_side ltac:(covered0_call).

(** Finish where a mark was just set: the retry is scheduled next, for an
    object that was read in the same state. *)
Ltac covered_marked H :=
  lazymatch goal with
  | |- wp (scheduleTaskRetry _ ?l _ _) _ (with_pendingRetries _ _) =>
      apply covered_mark_and_schedule; [exact H|eauto]
  end.

Lemma covered_handleTaskCompletion_verdict st0 st env l config v :
  framed anyR (coveredG None) st0 st ->
  wp (handleTaskCompletion_verdict env l config v)
    (fun _ st' => framed anyR (coveredG None) st0 st') st.
Proof.
  intros H. unfold handleTaskCompletion_verdict. wpv0 H.
  all: covered_marked H.
Qed.

#[local] Hint Resolve covered_handleTaskCompletion_verdict : covered0.

Lemma covered_handleTaskCompletion st0 st env l config runId :
  framed anyR (coveredG None) st0 st ->
  wp (handleTaskCompletion env l config runId)
    (fun _ st' => framed anyR (coveredG None) st0 st') st.
Proof. intros H. unfold handleTaskCompletion. wpv0 H. Qed.

Lemma covered_verificationSettled st0 st env l config runId v :
  framed anyR (coveredG None) st0 st ->
  wp (verificationSettled env l config runId v)
    (fun _ st' => framed anyR (coveredG None) st0 st') st.
Proof. intros H. unfold verificationSettled. wpv0 H. Qed.

#[local] Hint Resolve covered_handleTaskCompletion : covered0.

Lemma covered_onLifecycleEvent st0 st env evt :
  framed anyR (coveredG None) st0 st ->
  wp (onLifecycleEvent env evt) (fun _ st' => framed anyR (coveredG None) st0 st') st.
Proof.
  intros H. unfold onLifecycleEvent. wpv0 H.
  all: covered_marked H.
Qed.

Lemma covered_scheduleTaskRetry_afterDelay st0 S env l n key :
  framed anyR (coveredG (Some key)) st0 S ->
  wp (scheduleTaskRetry_afterDelay env l n key)
    (fun _ S' => framed anyR (coveredG None) st0 S') S.
Proof.
  intros H. unfold scheduleTaskRetry_afterDelay, retrySettled.
  apply wp_withEntryOr; [intros entry He|intros _; apply wp_modify, covered_unmark, H].
  apply wp_bind, wp_gets. cbv beta.
  destruct (getRun S (runId entry)) as [[cl cur]|]; [|apply wp_modify, covered_unmark, H].
  destruct (truthyNum (cleanupCompletedAt cur)); [apply wp_modify, covered_unmark, H|].
  cbv zeta.
  do 5 (apply wp_bind;
        eapply wpf_mutate;
          [exact (coveredG_heap (Some key))|exact H|intros ? ? _ _; exact I|];
        clear H; intros ? H).
  apply wp_bind. eapply wpf_persist; [exact (coveredG_store (Some key))|exact H|].
  clear H. intros S6 H. apply wp_spawn. apply (covered_close _ _ key); [exact H|reflexivity].
Qed.

Lemma covered_scheduleTaskRetry_afterStart st0 S env l started key :
  framed anyR (coveredG (Some key)) st0 S ->
  wp (scheduleTaskRetry_afterStart env l started key)
    (fun _ S' => framed anyR (coveredG None) st0 S') S.
Proof.
  intros H. unfold scheduleTaskRetry_afterStart, retrySettled, when, withEntry,
    waitForSubagentCompletion.
  apply wp_bind. destruct started; [|apply wp_ret, wp_modify, covered_unmark, H].
  apply wp_withEntryOr; [intros entry He|intros _; apply wp_ret, wp_modify, covered_unmark, H].
  apply wp_spawn, wp_modify, covered_unmark.
  eapply framed_rest; [exact H|reflexivity|apply coveredG_spawn, (proj2 H)].
Qed.

Lemma covered_step env ev st :
  marksCovered None st ->
  wp (step env ev) (fun _ st' => marksCovered None st') st.
Proof.
  intros Hst.
  assert (H : framed anyR (coveredG None) st st).
  { split; [|exact Hst]. intros l e He. exists e. split; [exact He|exact I]. }
  eapply wp_mono with (Q := fun _ st' => framed anyR (coveredG None) st st');
    [|intros ? ? [_ Hg]; exact Hg].
  destruct ev as [params|restored|evt|i a| |runId| |name hook|name]; simpl.
  - apply covered_registerSubagentRun, H.
  - apply covered_restoreSubagentRunsOnce, H.
  - apply wp_bind, wp_gets. cbv beta. destruct (listenerStarted st); [|exact H].
    apply covered_onLifecycleEvent, H.
  - apply wp_bind, wp_gets. cbv beta.
    destruct (tasks st !! i) as [t|] eqn:Ht; [|exact H].
    pose proof (covered_open st st i t H Ht) as Ho.
    destruct t, a; simpl; try exact H; apply wp_bind, wp_modify; cbv beta;
      cbn [retryKey] in Ho.
    all: lazymatch goal with
         | |- wp (waitForSubagentCompletion_reply _ _ _) _ _ =>
             apply covered_waitForSubagentCompletion_reply, Ho
         | |- wp (announceSettled _ _ _ _) _ _ => apply covered_announceSettled, Ho
         | |- wp (scheduleTaskRetry_afterDelay _ _ _ _) _ _ =>
             apply covered_scheduleTaskRetry_afterDelay, Ho
         | |- wp (scheduleTaskRetry_afterStart _ _ _ _) _ _ =>
             apply covered_scheduleTaskRetry_afterStart, Ho
         | |- wp (verificationSettled _ _ _ _ _) _ _ =>
             apply covered_verificationSettled, Ho
         | |- wp (ret _) _ _ => exact Ho
         end.
  - apply wp_bind, wp_gets. cbv beta. destruct (sweeper st); [|exact H].
    apply covered_sweepSubagentRuns, H.
  - apply covered_releaseSubagentRun, H.
  - apply covered_resetSubagentRegistryForTests, H.
  - apply covered_registerVerificationHook, H.
  - apply wp_bind. eapply wp_mono; [apply covered_unregisterVerificationHook, H|].
    intros ? ? H'. exact H'.
Qed.

(** X25: a run id is marked in [pendingRetries] only while a
    [scheduleTaskRetry] for it is in flight, waiting for its back-off timer
    or for the gateway's answer to [agent.start]: this holds when the module
    is loaded and every turn preserves it.  So the mark that makes the
    listener drop further failures of a run is always removed when that
    retry settles. *)
Theorem pending_retry_has_a_retry_in_flight (diskFaults : list bool)
    (trace : list (Env * Event)) (runId : string) :
  let st := run trace (initialState diskFaults) in
  runId ∈ pendingRetries st -> runId ∈ retryKeys (tasks st).
Proof.
  intros st Hin.
  assert (Hinv : forall s, marksCovered None s -> marksCovered None (run trace s)).
  { clear. induction trace as [|[env ev] rest IH]; intros s Hs; [exact Hs|].
    simpl. apply IH. exact (wp_post _ _ _ (covered_step env ev s Hs)). }
  assert (H0 : marksCovered None (initialState diskFaults)).
  { intros k Hk. cbn [pendingRetries initialState] in Hk. set_solver. }
  destruct (Hinv _ H0 runId Hin) as [Hd|Hk]; [discriminate|exact Hk].
Qed.

Lemma pending_retry_has_a_retry_in_flight_witness :
  "run-1" ∈ retryKeys (tasks (run (firstn 3 racingSignals) (initialState []))).
Proof.
  apply (pending_retry_has_a_retry_in_flight [] (firstn 3 racingSignals) "run-1").
  vm_compute. reflexivity.
Defined.

(** ** The listener's default path *)

(** X26: a terminal lifecycle event for a registered run that calls neither
    for a retry nor for a verification records [endedAt] (the one of the
    event when it is a number, even 0, else the clock) and the outcome, and
    then, unless cleanup is complete or under way, marks the record
    [cleanupHandled] and starts one announce that carries these values;
    otherwise it starts none.  [startedAt], the retry fields and the pending
    marks are not written. *)
Theorem listener_terminal_event_begins_cleanup (env : Env) (st : State) (evt : Evt.t)
    (l : loc) (e : SubagentRunRecord) :
  getRun st (Evt.runId evt) = Some (l, e) ->
  Evt.stream evt = "lifecycle" ->
  (phaseIs "end" evt || phaseIs "error" evt)%bool = true ->
  let config := resolveOrchestrationConfig (loadConfig env) (orchestrationConfig e) in
  let ended := (Evt.data evt ≫= Evt.endedAt) ?? now env in
  let result :=
    if phaseIs "error" evt
    then {| status := StatusError; error := Evt.data evt ≫= Evt.error |}
    else {| status := StatusOk; error := None |} in
  let recorded := set_outcome (Some result) (set_endedAt (Some ended) e) in
  shouldRetryTask recorded config = false ->
  (phaseIs "end" evt && Resolved.verifyCompletion config)%bool = false ->
  let open := (negb (truthyNum (cleanupCompletedAt e))
               && negb (truthyBool (cleanupHandled e)))%bool in
  let e' := (if open then set_cleanupHandled (Some true) else id) recorded in
  let st' := exec (onLifecycleEvent env evt) st in
  completion (onLifecycleEvent env evt) st = Normal tt /\
  getRun st' (Evt.runId evt) = Some (l, e') /\
  tasks st' = (tasks st ++
    if open then [TAnnounce (Evt.runId evt) l (announceParams e')] else [])%list /\
  subagentRuns st' = subagentRuns st /\
  pendingRetries st' = pendingRetries st /\
  pendingVerifications st' = pendingVerifications st.
Proof.
  intros Hrun Hstream Hterm config ended result recorded Hretry Hverify open e' st'.
  subst st' e' open recorded result ended.
  pose proof (proj1 (getRun_Some _ _ _ _) Hrun) as [Hr He].
  by_wp. unfold onLifecycleEvent. rewrite Hstream.
  change (negb (String.eqb "lifecycle" "lifecycle")) with false. cbv iota.
  apply wp_bind, wp_gets. cbv beta. rewrite Hrun.
  assert (Hstart : phaseIs "start" evt = false).
  { destruct (phaseIs "error" evt) eqn:Herr; [apply phaseIs_error_not_start, Herr|].
    rewrite orb_false_r in Hterm. apply phaseIs_end_not_start, Hterm. }
  assert (Hnotboth : (negb (phaseIs "end" evt) && negb (phaseIs "error" evt))%bool = false).
  { rewrite <- negb_orb, Hterm. reflexivity. }
  rewrite Hstart, Hnotboth.
  unfold beginSubagentCleanup, startAnnounce, withEntry.
  destruct (phaseIs "error" evt) eqn:Herr.
  - repeat first [progress known | wpx_step]. fold config.
    change (shouldRetryTask _ config) with
      (shouldRetryTask
         (set_outcome (Some {| status := StatusError; error := Evt.data evt ≫= Evt.error |})
            (set_endedAt (Some ((Evt.data evt ≫= Evt.endedAt) ?? now env)) e)) config).
    rewrite Hretry.
    destruct (truthyNum (cleanupCompletedAt e)) eqn:Hc, (truthyBool (cleanupHandled e)) eqn:Hh.
    all: repeat first [progress known | wpx_step].
    all: rewrite ?app_nil_r; repeat split; reflexivity.
  - assert (Hend : phaseIs "end" evt = true) by (rewrite orb_false_r in Hterm; exact Hterm).
    rewrite Hend in Hverify. cbn [andb] in Hverify.
    repeat first [progress known | wpx_step]. fold config. rewrite Hverify.
    destruct (truthyNum (cleanupCompletedAt e)) eqn:Hc, (truthyBool (cleanupHandled e)) eqn:Hh.
    all: repeat first [progress known | wpx_step].
    all: rewrite ?app_nil_r; repeat split; reflexivity.
Qed.

Lemma listener_terminal_event_begins_cleanup_witness :
  completion (onLifecycleEvent (envAt 200) (lifecycle "end" None (Some 200) None))
    retryRunRegistered = Normal tt.
Proof.
  refine (proj1 (listener_terminal_event_begins_cleanup (envAt 200) retryRunRegistered
                   (lifecycle "end" None (Some 200) None) 0 registeredRecord _ _ _ _ _)).
  - vm_compute. reflexivity.
  - reflexivity.
  - reflexivity.
  - reflexivity.
  - reflexivity.
Defined.

Lemma terminal_event_is_dropped_while_pending_witness :
  completion (onLifecycleEvent (envAt 205) (lifecycle "error" None (Some 204) (Some "again")))
    failureSeenByListener = Normal tt.
Proof.
  refine (proj1 (terminal_event_is_dropped_while_pending (envAt 205) failureSeenByListener
                   (lifecycle "error" None (Some 204) (Some "again")) 0 retriedRecord
                   _ _ _)).
  - vm_compute. reflexivity.
  - reflexivity.
  - left. split; [reflexivity|]. split; vm_compute; reflexivity.
Defined.

Lemma failed_verification_rewrites_outcome_witness :
  pendingVerifications
    (exec (verificationSettled (envAt 210) 0
             (resolveOrchestrationConfig (Config.mk None None) (Some hookPolicy)) "run-1"
             {| passed := false; reason := Some "nope" |}) hookRunEnded)
  = pendingVerifications hookRunEnded ∖ {["run-1"]}.
Proof.
  refine (proj1 (proj2 (proj2
    (failed_verification_rewrites_outcome (envAt 210) hookRunEnded 0 hookRunEndedRecord
       (resolveOrchestrationConfig (Config.mk None None) (Some hookPolicy)) "run-1"
       {| passed := false; reason := Some "nope" |} _ _) _))).
  - reflexivity.
  - reflexivity.
  - reflexivity.
Defined.

(** ** A verification that passes *)

(** X27: when the verification of a run passes, [verificationResult]
    becomes [passed] and is saved, and the pending mark of the verification
    is removed.  Cleanup then proceeds as after any other completion (the
    guard decides whether an announce is started), except when the outcome of
    the record is an error by then (the wait prober may have written one in
    the meantime): in that case no cleanup is begun.  No retry is scheduled. *)
Theorem passed_verification_proceeds_to_cleanup (env : Env) (st : State) (l : loc)
    (e : SubagentRunRecord) (config : Resolved.t) (runId : string)
    (v : VerificationResult) :
  getRun st runId = Some (l, e) -> passed v = true ->
  let recorded := set_verificationResult (Some VerdictPassed) e in
  let open := (negb (outcomeIsError e) && negb (truthyNum (cleanupCompletedAt e))
               && negb (truthyBool (cleanupHandled e)))%bool in
  let e' := (if open then set_cleanupHandled (Some true) else id) recorded in
  let st' := exec (verificationSettled env l config runId v) st in
  completion (verificationSettled env l config runId v) st = Normal tt /\
  getRun st' runId = Some (l, e') /\
  tasks st' = (tasks st ++ if open then [TAnnounce runId l (announceParams e')] else [])%list /\
  pendingVerifications st' = pendingVerifications st ∖ {[runId]} /\
  pendingRetries st' = pendingRetries st /\
  subagentRuns st' = subagentRuns st.
Proof.
  intros Hrun Hp recorded open e' st'. subst st' e' open recorded.
  pose proof (proj1 (getRun_Some _ _ _ _) Hrun) as [Hr He].
  by_wp. unfold verificationSettled, handleTaskCompletion_verdict, taskCompletionHandled,
    proceedWithCleanup, beginSubagentCleanup, startAnnounce, withEntry.
  rewrite Hp.
  destruct (outcomeIsError e) eqn:Herr, (truthyNum (cleanupCompletedAt e)) eqn:Hc,
    (truthyBool (cleanupHandled e)) eqn:Hh.
  all: cbn [negb andb id].
  all: repeat first [progress known | wpx_step
                    | apply wp_bind, wp_gets; cbv beta; rewrite ?getRun_persisted;
                      erewrite getRun_alter by exact Hrun ].
  all: rewrite ?app_nil_r; repeat split; reflexivity.
Qed.

Lemma passed_verification_proceeds_to_cleanup_witness :
  completion
    (verificationSettled (envAt 210) 0
       (resolveOrchestrationConfig (Config.mk None None) (Some hookPolicy)) "run-1"
       {| passed := true; reason := None |}) hookRunEnded = Normal tt.
Proof.
  refine (proj1 (passed_verification_proceeds_to_cleanup (envAt 210) hookRunEnded 0
                   hookRunEndedRecord
                   (resolveOrchestrationConfig (Config.mk None None) (Some hookPolicy))
                   "run-1" {| passed := true; reason := None |} _ _)).
  - vm_compute. reflexivity.
  - reflexivity.
Defined.

(** ** A pending verification is a verification in flight *)

Lemma verifyKeys_app ts ts' : verifyKeys (ts ++ ts') = (verifyKeys ts ++ verifyKeys ts')%list.
Proof. apply omap_app. Qed.

Lemma verifyKeys_delete ts i t k :
  ts !! i = Some t -> k ∈ verifyKeys ts ->
  k ∈ verifyKeys (delete i ts) \/ verifyKey t = Some k.
Proof.
  intros Hi Hk. unfold verifyKeys in *. apply list_elem_of_omap in Hk as (t' & Hin & Hkey).
  apply list_elem_of_lookup in Hin as [j Hj].
  destruct (decide (j = i)) as [->|Hne]; [right; congruence|left].
  apply list_elem_of_omap. exists t'. split; [|exact Hkey].
  destruct (decide (j < i)%nat) as [Hlt|Hge].
  - apply (list_elem_of_lookup_2 _ j). rewrite list_lookup_delete_lt by exact Hlt. exact Hj.
  - apply (list_elem_of_lookup_2 _ (pred j)).
    rewrite list_lookup_delete_ge by lia. replace (S (pred j)) with j by lia. exact Hj.
Qed.

Section Checked.
Variable except : option string.

Lemma checkedG_heap st0 S h : checkedG except st0 S -> checkedG except st0 (with_heap h S).
Proof. exact id. Qed.

Lemma checkedG_store st0 S s : checkedG except st0 S -> checkedG except st0 (with_store s S).
Proof. exact id. Qed.

Lemma checkedG_spawn st0 S t :
  checkedG except st0 S -> checkedG except st0 (with_tasks (tasks S ++ [t]) S).
Proof.
  intros H k Hk. destruct (H k Hk) as [He|Hin]; [left; exact He|right].
  cbn [tasks with_tasks]. rewrite verifyKeys_app. apply elem_of_app. left. exact Hin.
Qed.

Lemma checkedG_clear st0 S : checkedG except st0 (with_pendingVerifications ∅ S).
Proof. intros k Hk. cbn [pendingVerifications with_pendingVerifications] in Hk. set_solver. Qed.

Ltac checked_side :=
  first
    [ exact checkedG_heap
    | exact checkedG_store
    | intros ? ? _ _; exact I
    | match goal with
      | H : framed _ _ _ _ |- _ =>
          first [ apply checkedG_spawn, (proj2 H) | apply checkedG_clear ]
      end ].

Create HintDb checkedops discriminated.

Ltac checked_call H :=
  eapply wp_mono; [solve [eauto 3 with checkedops] | clear H; intros ? ? H; cbv beta in H].

Ltac wph H := wpf H checked_side ltac:(checked_call).

Local Abbreviation keeps m :=
  (forall st0 st, framed anyR (checkedG except) st0 st ->
     wp m (fun _ st' => framed anyR (checkedG except) st0 st') st).

Lemma checked_beginSubagentCleanup runId : keeps (beginSubagentCleanup runId).
Proof. intros st0 st H. unfold beginSubagentCleanup. wph H. Qed.

Lemma checked_startAnnounce runId l : keeps (startAnnounce runId l).
Proof. intros st0 st H. unfold startAnnounce. wph H. Qed.

#[local] Hint Resolve checked_beginSubagentCleanup checked_startAnnounce : checkedops.

Lemma checked_proceedWithCleanup runId l : keeps (proceedWithCleanup runId l).
Proof. intros st0 st H. unfold proceedWithCleanup. wph H. Qed.

Lemma checked_waitForSubagentCompletion runId t : keeps (waitForSubagentCompletion runId t).
Proof. intros st0 st H. unfold waitForSubagentCompletion. wph H. Qed.

#[local] Hint Resolve checked_proceedWithCleanup checked_waitForSubagentCompletion
  : checkedops.

Lemma checked_waitForSubagentCompletion_reply env runId wait :
  keeps (waitForSubagentCompletion_reply env runId wait).
Proof. intros st0 st H. unfold waitForSubagentCompletion_reply. wph H. Qed.

Lemma checked_scheduleTaskRetry env l config key :
  keeps (scheduleTaskRetry env l config key).
Proof. intros st0 st H. unfold scheduleTaskRetry. wph H. Qed.

Lemma checked_scheduleTaskRetry_afterDelay env l n key :
  keeps (scheduleTaskRetry_afterDelay env l n key).
Proof. intros st0 st H. unfold scheduleTaskRetry_afterDelay, retrySettled. wph H. Qed.

Lemma checked_scheduleTaskRetry_afterStart env l started key :
  keeps (scheduleTaskRetry_afterStart env l started key).
Proof. intros st0 st H. unfold scheduleTaskRetry_afterStart, retrySettled. wph H. Qed.

Lemma checked_verifyTaskCompletion l config : keeps (verifyTaskCompletion l config).
Proof. intros st0 st H. unfold verifyTaskCompletion. wph H. Qed.

Lemma checked_finalizeSubagentCleanup env runId cleanup didAnnounce :
  keeps (finalizeSubagentCleanup env runId cleanup didAnnounce).
Proof. intros st0 st H. unfold finalizeSubagentCleanup. wph H. Qed.

#[local] Hint Resolve checked_scheduleTaskRetry checked_verifyTaskCompletion
  checked_finalizeSubagentCleanup : checkedops.

Lemma checked_handleTaskCompletion_verdict env l config v :
  keeps (handleTaskCompletion_verdict env l config v).
Proof. intros st0 st H. unfold handleTaskCompletion_verdict. wph H. Qed.

Lemma checked_announceSettled env runId l didAnnounce :
  keeps (announceSettled env runId l didAnnounce).
Proof. intros st0 st H. unfold announceSettled. wph H. Qed.

Lemma checked_ensureListener : keeps ensureListener.
Proof. intros st0 st H. unfold ensureListener. wph H. Qed.

Lemma checked_startSweeper : keeps startSweeper.
Proof. intros st0 st H. unfold startSweeper. wph H. Qed.

Lemma checked_stopSweeper : keeps stopSweeper.
Proof. intros st0 st H. unfold stopSweeper. wph H. Qed.

#[local] Hint Resolve checked_ensureListener checked_startSweeper checked_stopSweeper
  : checkedops.

Lemma checked_sweepSubagentRuns env : keeps (sweepSubagentRuns env).
Proof. intros st0 st H. unfold sweepSubagentRuns. wph H. Qed.

Lemma checked_releaseSubagentRun runId : keeps (releaseSubagentRun runId).
Proof. intros st0 st H. unfold releaseSubagentRun. wph H. Qed.

Lemma checked_resetSubagentRegistryForTests : keeps resetSubagentRegistryForTests.
Proof. intros st0 st H. unfold resetSubagentRegistryForTests. wph H. Qed.

Lemma checked_registerVerificationHook name hook : keeps (registerVerificationHook name hook).
Proof. intros st0 st H. unfold registerVerificationHook. wph H. Qed.

Lemma checked_unregisterVerificationHook name : keeps (unregisterVerificationHook name).
Proof. intros st0 st H. unfold unregisterVerificationHook. wph H. Qed.

Lemma checked_resumeSubagentRun env runId : keeps (resumeSubagentRun env runId).
Proof. intros st0 st H. unfold resumeSubagentRun. wph H. Qed.

Lemma checked_registerSubagentRun env params : keeps (registerSubagentRun env params).
Proof.
  intros st0 st H. unfold registerSubagentRun.
  apply wp_bind. eapply wpf_alloc; [exact checkedG_heap|exact H|].
  clear H. intros l S H. wph H.
Qed.

Lemma checked_restoreSubagentRunsOnce env restored :
  keeps (restoreSubagentRunsOnce env restored).
Proof.
  intros st0 st H. rewrite restoreSubagentRunsOnce_unfold.
  apply wp_bind, wp_gets. cbv beta. destruct (restoreAttempted st); [exact H|].
  apply wp_bind, wp_modify. cbv beta.
  destruct restored as [[|kv entries]|]; [exact H| |exact H].
  apply wp_bind.
  eapply wp_mono;
    [apply (wp_forEach (fun S => framed anyR (checkedG except) st0 S))|].
  - exact H.
  - clear H. intros x S _ H. unfold restoreEntry. apply wp_bind, wp_gets. cbv beta.
    destruct (negb (truthyStr x.1) || bool_decide (is_Some (subagentRuns S !! x.1)))%bool;
      [exact H|].
    apply wp_bind. eapply wpf_alloc; [exact checkedG_heap|exact H|].
    clear H. intros l S' H. wph H.
  - clear H. intros a S H. cbv beta in H. wph H.
    all: eapply wp_mono;
      [ apply (wp_forEach (fun S' => framed anyR (checkedG except) st0 S'));
        [exact H|intros x S' _ H'; apply checked_resumeSubagentRun, H']
      | intros ? ? H'; exact H' ].
Qed.
End Checked.

Lemma checked_mark st0 S k :
  framed anyR (checkedG None) st0 S ->
  framed anyR (checkedG (Some k)) st0
    (with_pendingVerifications ({[k]} ∪ pendingVerifications S) S).
Proof.
  intros [Hh Hg]. split; [exact Hh|]. intros k' Hk'.
  cbn [pendingVerifications with_pendingVerifications] in Hk'.
  apply elem_of_union in Hk' as [Hk'|Hk'].
  - left. apply elem_of_singleton in Hk'. congruence.
  - destruct (Hg k' Hk') as [Hd|Hin]; [discriminate|right; exact Hin].
Qed.

Lemma checked_close st0 S k t :
  framed anyR (checkedG (Some k)) st0 S -> verifyKey t = Some k ->
  framed anyR (checkedG None) st0 (with_tasks (tasks S ++ [t]) S).
Proof.
  intros [Hh Hg] Ht. split; [exact Hh|]. intros k' Hk'. right.
  cbn [tasks with_tasks]. rewrite verifyKeys_app. apply elem_of_app.
  destruct (Hg k' Hk') as [[= ->]|Hin]; [right|left; exact Hin].
  unfold verifyKeys. cbn. rewrite Ht. apply list_elem_of_here.
Qed.

Lemma checked_unmark st0 S k :
  framed anyR (checkedG (Some k)) st0 S ->
  framed anyR (checkedG None) st0
    (with_pendingVerifications (pendingVerifications S ∖ {[k]}) S).
Proof.
  intros [Hh Hg]. split; [exact Hh|]. intros k' Hk'.
  cbn [pendingVerifications with_pendingVerifications] in Hk'.
  apply elem_of_difference in Hk' as [Hk' Hne]. right.
  destruct (Hg k' Hk') as [[= ->]|Hin]; [|exact Hin].
  destruct Hne. apply elem_of_singleton. reflexivity.
Qed.

Lemma checked_open st0 S i t :
  framed anyR (checkedG None) st0 S -> tasks S !! i = Some t ->
  framed anyR (checkedG (verifyKey t)) st0 (with_tasks (delete i (tasks S)) S).
Proof.
  intros [Hh Hg] Hi. split; [exact Hh|]. intros k Hk.
  destruct (Hg k Hk) as [Hd|Hin]; [discriminate|].
  destruct (verifyKeys_delete _ _ _ _ Hi Hin) as [Hin'|Hkey]; [right; exact Hin'|left].
  congruence.
Qed.

(** The [.finally] of the listener removes the mark. *)
Lemma checked_taskCompletionHandled st0 S runId l :
  framed anyR (checkedG (Some runId)) st0 S ->
  wp (taskCompletionHandled runId l)
    (fun _ S' => framed anyR (checkedG None) st0 S') S.
Proof.
  intros H. unfold taskCompletionHandled, withEntry. apply wp_bind.
  eapply wp_mono with (Q := fun _ S' => framed anyR (checkedG (Some runId)) st0 S').
  - apply wp_withEntryOr; [intros e He|intros _; exact H].
    destruct (outcomeIsError e); [exact H|]. apply checked_proceedWithCleanup, H.
  - intros a S' H'. cbv beta in H'. apply wp_modify, checked_unmark, H'.
Qed.

Lemma checked_verificationSettled st0 S env l config runId v :
  framed anyR (checkedG (Some runId)) st0 S ->
  wp (verificationSettled env l config runId v)
    (fun _ S' => framed anyR (checkedG None) st0 S') S.
Proof.
  intros H. unfold verificationSettled. apply wp_bind.
  eapply wp_mono; [apply checked_handleTaskCompletion_verdict, H|].
  intros a S' H'. cbv beta in H'. apply checked_taskCompletionHandled, H'.
Qed.

Lemma checked_handleTaskCompletion st0 S env l config runId :
  framed anyR (checkedG (Some runId)) st0 S -> is_Some (heap S !! l) ->
  wp (handleTaskCompletion env l config runId)
    (fun _ S' => framed anyR (checkedG None) st0 S') S.
Proof.
  intros H [e He]. unfold handleTaskCompletion, withEntry.
  eapply wp_withEntryOr_known; [exact He|].
  assert (Hskip : forall S1, framed anyR (checkedG (Some runId)) st0 S1 ->
            wp (mutate l (set_verificationResult (Some VerdictSkipped));;
                persistSubagentRuns;; taskCompletionHandled runId l)%M
              (fun _ S' => framed anyR (checkedG None) st0 S') S1).
  { intros S1 H1. apply wp_bind.
    eapply wpf_mutate;
      [exact (checkedG_heap (Some runId))|exact H1|intros ? ? _ _; exact I|].
    intros S2 H2. apply wp_bind.
    eapply wpf_persist; [exact (checkedG_store (Some runId))|exact H2|].
    intros S3 H3. apply checked_taskCompletionHandled, H3. }
  destruct (outcomeIsError e); [apply Hskip, H|].
  destruct (Resolved.verifyCompletion config); [|apply Hskip, H].
  apply wp_bind. eapply wp_mono; [apply checked_verifyTaskCompletion, H|].
  intros v S1 H1. cbv beta in H1. destruct v as [r|h|p].
  - apply wp_bind. eapply wp_mono; [apply checked_handleTaskCompletion_verdict, H1|].
    intros a S2 H2. cbv beta in H2. apply checked_taskCompletionHandled, H2.
  - apply wp_spawn. apply (checked_close _ _ runId); [exact H1|reflexivity].
  - apply wp_spawn. apply (checked_close _ _ runId); [exact H1|reflexivity].
Qed.

Create HintDb checked0 discriminated.

#[local] Hint Resolve checked_beginSubagentCleanup checked_startAnnounce
  checked_scheduleTaskRetry : checked0.

Ltac checked0_side :=
  first
    [ exact (checkedG_heap None)
    | exact (checkedG_store None)
    | intros ? ? _ _; exact I
    | match goal with
      | H : framed _ _ _ _ |- _ => apply checkedG_spawn, (proj2 H)
      end ].

Ltac checked0_call H :=
  eapply wp_mono; [solve [eauto 3 with checked0] | clear H; intros ? ? H; cbv beta in H].

Ltac wph0 H := wpf H checked0_side ltac:(checked0_call).

Lemma checked_onLifecycleEvent st0 st env evt :
  framed anyR (checkedG None) st0 st ->
  wp (onLifecycleEvent env evt) (fun _ st' => framed anyR (checkedG None) st0 st') st.
Proof.
  intros H. unfold onLifecycleEvent. wph0 H.
  all: lazymatch goal with
       | |- wp (handleTaskCompletion _ _ _ _) _ (with_pendingVerifications _ _) =>
           apply checked_handleTaskCompletion; [apply checked_mark, H|eauto]
       end.
Qed.

Lemma checked_step env ev st :
  verificationsCovered None st ->
  wp (step env ev) (fun _ st' => verificationsCovered None st') st.
Proof.
  intros Hst.
  assert (H : framed anyR (checkedG None) st st).
  { split; [|exact Hst]. intros l e He. exists e. split; [exact He|exact I]. }
  eapply wp_mono with (Q := fun _ st' => framed anyR (checkedG None) st st');
    [|intros ? ? [_ Hg]; exact Hg].
  destruct ev as [params|restored|evt|i a| |runId| |name hook|name]; simpl.
  - apply checked_registerSubagentRun, H.
  - apply checked_restoreSubagentRunsOnce, H.
  - apply wp_bind, wp_gets. cbv beta. destruct (listenerStarted st); [|exact H].
    apply checked_onLifecycleEvent, H.
  - apply wp_bind, wp_gets. cbv beta.
    destruct (tasks st !! i) as [t|] eqn:Ht; [|exact H].
    pose proof (checked_open st st i t H Ht) as Ho.
    destruct t, a; simpl; try exact H; apply wp_bind, wp_modify; cbv beta;
      cbn [verifyKey] in Ho.
    all: lazymatch goal with
         | |- wp (waitForSubagentCompletion_reply _ _ _) _ _ =>
             apply checked_waitForSubagentCompletion_reply, Ho
         | |- wp (announceSettled _ _ _ _) _ _ => apply checked_announceSettled, Ho
         | |- wp (scheduleTaskRetry_afterDelay _ _ _ _) _ _ =>
             apply checked_scheduleTaskRetry_afterDelay, Ho
         | |- wp (scheduleTaskRetry_afterStart _ _ _ _) _ _ =>
             apply checked_scheduleTaskRetry_afterStart, Ho
         | |- wp (verificationSettled _ _ _ _ _) _ _ =>
             apply checked_verificationSettled, Ho
         | |- wp (ret _) _ _ => exact Ho
         end.
  - apply wp_bind, wp_gets. cbv beta. destruct (sweeper st); [|exact H].
    apply checked_sweepSubagentRuns, H.
  - apply checked_releaseSubagentRun, H.
  - apply checked_resetSubagentRegistryForTests, H.
  - apply checked_registerVerificationHook, H.
  - apply wp_bind. eapply wp_mono; [apply checked_unregisterVerificationHook, H|].
    intros ? ? H'. exact H'.
Qed.

(** X28: a run id is marked in [pendingVerifications] only while a
    verification for it is in flight, waiting for its hook or for the
    agent's answer: this holds when the module is loaded and every turn
    preserves it.  A verification that ends in the turn in which it starts
    leaves no mark, and the mark of one that was suspended is removed in the
    turn in which it settles. *)
Theorem pending_verification_is_in_flight (diskFaults : list bool)
    (trace : list (Env * Event)) (runId : string) :
  let st := run trace (initialState diskFaults) in
  runId ∈ pendingVerifications st -> runId ∈ verifyKeys (tasks st).
Proof.
  intros st Hin.
  assert (Hinv : forall s, verificationsCovered None s ->
                           verificationsCovered None (run trace s)).
  { clear. induction trace as [|[env ev] rest IH]; intros s Hs; [exact Hs|].
    simpl. apply IH. exact (wp_post _ _ _ (checked_step env ev s Hs)). }
  assert (H0 : verificationsCovered None (initialState diskFaults)).
  { intros k Hk. cbn [pendingVerifications initialState] in Hk. set_solver. }
  destruct (Hinv _ H0 runId Hin) as [Hd|Hk]; [discriminate|exact Hk].
Qed.

Lemma pending_verification_is_in_flight_witness :
  "run-1" ∈ verifyKeys (tasks (run hookedRun (initialState []))).
Proof.
  apply (pending_verification_is_in_flight [] hookedRun "run-1").
  vm_compute. reflexivity.
Defined.

(** ** No announce while the cleanup guard is closed *)

Lemma filter_delete_length {A : Type} (p : A -> bool) (ts : list A) (i : nat) :
  (length (List.filter p (delete i ts)) <= length (List.filter p ts))%nat.
Proof.
  revert i. induction ts as [|t ts IH]; intros [|i]; cbn; try lia.
  - destruct (p t); cbn; lia.
  - specialize (IH i). destruct (p t); cbn; [apply le_n_S|]; exact IH.
Qed.

Lemma announcesInFlight_delete st i r :
  (announcesInFlight (with_tasks (delete i (tasks st)) st) r <= announcesInFlight st r)%nat.
Proof. apply filter_delete_length. Qed.

Lemma announcesInFlight_spawn st t r :
  otherTask r t ->
  announcesInFlight (with_tasks (tasks st ++ [t]) st) r = announcesInFlight st r.
Proof.
  intros Ht. unfold announcesInFlight. cbn [tasks with_tasks].
  rewrite List.filter_app, length_app.
  replace (List.filter _ [t]) with (@nil Task); [simpl; lia|].
  destruct t as [|r' l' p| | | |]; try reflexivity. cbn [List.filter].
  destruct (String.eqb_spec r' r) as [Heq|_]; [contradiction|reflexivity].
Qed.

Section Announced.
Variable r : string.
Variable lr : loc.

Lemma announcedG_heap st0 S h : announcedG r lr st0 S -> announcedG r lr st0 (with_heap h S).
Proof. exact id. Qed.

Lemma announcedG_store st0 S s : announcedG r lr st0 S -> announcedG r lr st0 (with_store s S).
Proof. exact id. Qed.

Lemma announcedG_delete st0 S k :
  announcedG r lr st0 S ->
  announcedG r lr st0 (with_subagentRuns (delete k (subagentRuns S)) S).
Proof. intros (Hc & Hn & Hat). split; [apply closedG_delete, Hc|]. split; assumption. Qed.

Lemma announcedG_insert st0 S k l :
  k <> r -> announcedG r lr st0 S ->
  announcedG r lr st0 (with_subagentRuns (<[k := l]> (subagentRuns S)) S).
Proof.
  intros Hne (Hc & Hn & Hat). split; [apply closedG_insert; assumption|]. split; assumption.
Qed.

Lemma announcedG_filter st0 S (P : string * loc -> Prop) `{!forall kv, Decision (P kv)} :
  announcedG r lr st0 S ->
  announcedG r lr st0 (with_subagentRuns (filter P (subagentRuns S)) S).
Proof. intros (Hc & Hn & Hat). split; [apply closedG_filter, Hc|]. split; assumption. Qed.

Lemma announcedG_empty st0 S :
  announcedG r lr st0 S -> announcedG r lr st0 (with_subagentRuns ∅ S).
Proof. intros (Hc & Hn & Hat). split; [apply closedG_empty|]. split; assumption. Qed.

Lemma announcedG_spawn st0 S t :
  announcedG r lr st0 S -> otherTask r t ->
  announcedG r lr st0 (with_tasks (tasks S ++ [t]) S).
Proof.
  intros (Hc & Hn & Hat) Ht. split; [exact Hc|]. split; [|exact Hat].
  rewrite announcesInFlight_spawn by exact Ht. exact Hn.
Qed.

Lemma announcedG_remove st0 S i :
  announcedG r lr st0 S -> announcedG r lr st0 (with_tasks (delete i (tasks S)) S).
Proof.
  intros (Hc & Hn & Hat). split; [exact Hc|]. split; [|exact Hat].
  etransitivity; [apply announcesInFlight_delete|exact Hn].
Qed.

Lemma announced_refl st :
  closedAt st r lr -> framed (closedR lr) (announcedG r lr) st st.
Proof.
  intros Hat. destruct (closed_refl r lr st (fun l Hl => proj1 (Hat l Hl))) as [Hh Hg].
  split; [exact Hh|]. split; [exact Hg|]. split; [apply Nat.le_refl|exact Hat].
Qed.

(** Side conditions of this frame: those of the closed guard, and a task
    that is no announce flow for the run. *)
Ltac announced_side :=
  first
    [ exact announcedG_heap
    | exact announcedG_store
    | intros ? ? _ HR; exact HR
    | intros ? ? _ _; apply closed_handled
    | intros ? ? _ _; apply closed_completedAt; assumption
    | intros ? ? _ _ Heq; exfalso; congruence
    | match goal with
      | H : framed _ _ _ _ |- _ =>
          first [ apply announcedG_delete, (proj2 H)
                | apply announcedG_filter, (proj2 H)
                | apply announcedG_empty, (proj2 H)
                | apply announcedG_insert; [assumption|exact (proj2 H)]
                | apply announcedG_spawn; [exact (proj2 H)|exact I]
                | apply announcedG_spawn; [exact (proj2 H)|assumption] ]
      end ].

Create HintDb announcedops discriminated.

Ltac announced_call H :=
  eapply wp_mono; [solve [eauto 3 with announcedops] | clear H; intros ? ? H; cbv beta in H].

Ltac wpa H := wpf H announced_side ltac:(announced_call).

Local Abbreviation keeps m :=
  (forall st0 st, framed (closedR lr) (announcedG r lr) st0 st ->
     wp m (fun _ st' => framed (closedR lr) (announcedG r lr) st0 st') st).

(** The guard lets no cleanup begin for the run. *)
Lemma announced_beginSubagentCleanup st0 st runId :
  framed (closedR lr) (announcedG r lr) st0 st ->
  wp (beginSubagentCleanup runId)
    (fun ok st' => framed (closedR lr) (announcedG r lr) st0 st' /\
                   (ok = true -> runId <> r)) st.
Proof.
  intros H. unfold beginSubagentCleanup.
  apply wp_bind, wp_gets. cbv beta.
  destruct (getRun st runId) as [[l entry]|] eqn:Hrun;
    [|apply wp_ret; split; [exact H|discriminate]].
  destruct (truthyNum (cleanupCompletedAt entry)) eqn:Hc;
    [apply wp_ret; split; [exact H|discriminate]|].
  destruct (truthyBool (cleanupHandled entry)) eqn:Hd;
    [apply wp_ret; split; [exact H|discriminate]|].
  apply getRun_Some in Hrun as [Hr He].
  assert (Hne : runId <> r).
  { intros ->. destruct H as [Hh (Hg & _ & Hat)].
    destruct Hg as [Hg|[Hg Hg0]]; [congruence|].
    assert (l = lr) as -> by congruence.
    destruct (Hat lr Hg0) as (_ & e0 & He0 & Hc0).
    destruct (Hh lr e0 He0) as (e & He' & Hcl).
    assert (e = entry) as -> by congruence.
    specialize (Hcl eq_refl Hc0). unfold closed in Hcl. rewrite Hc, Hd in Hcl.
    discriminate. }
  wpa H. split; [exact H|]. intros _. exact Hne.
Qed.

Lemma announced_startAnnounce st0 st runId l :
  framed (closedR lr) (announcedG r lr) st0 st -> runId <> r ->
  wp (startAnnounce runId l)
    (fun _ st' => framed (closedR lr) (announcedG r lr) st0 st') st.
Proof. intros H Hne. unfold startAnnounce. wpa H. Qed.

(** The guarded announce that the call sites share. *)
Lemma announced_begin_then_announce st0 st runId l :
  framed (closedR lr) (announcedG r lr) st0 st ->
  wp (beginSubagentCleanup runId)
    (fun ok st' =>
       wp (if negb ok then ret tt else startAnnounce runId l)
         (fun _ st'' => framed (closedR lr) (announcedG r lr) st0 st'') st') st.
Proof.
  intros H. eapply wp_mono; [apply announced_beginSubagentCleanup, H|].
  intros ok S [HS Hok]. destruct ok; simpl.
  - apply announced_startAnnounce; auto.
  - exact HS.
Qed.

Lemma announced_proceedWithCleanup runId l : keeps (proceedWithCleanup runId l).
Proof. intros st0 st H. apply wp_bind, announced_begin_then_announce, H. Qed.

Lemma announced_waitForSubagentCompletion runId t :
  keeps (waitForSubagentCompletion runId t).
Proof. intros st0 st H. unfold waitForSubagentCompletion. wpa H. Qed.

#[local] Hint Resolve announced_proceedWithCleanup announced_waitForSubagentCompletion
  : announcedops.

Lemma announced_waitForSubagentCompletion_reply env runId wait :
  keeps (waitForSubagentCompletion_reply env runId wait).
Proof.
  intros st0 st H. unfold waitForSubagentCompletion_reply. wpa H.
  all: apply announced_begin_then_announce, H.
Qed.

Lemma announced_scheduleTaskRetry env l config key :
  keeps (scheduleTaskRetry env l config key).
Proof. intros st0 st H. unfold scheduleTaskRetry. wpa H. Qed.

Lemma announced_verifyTaskCompletion l config : keeps (verifyTaskCompletion l config).
Proof. intros st0 st H. unfold verifyTaskCompletion. wpa H. Qed.

Lemma announced_taskCompletionHandled runId l : keeps (taskCompletionHandled runId l).
Proof. intros st0 st H. unfold taskCompletionHandled. wpa H. Qed.

#[local] Hint Resolve announced_scheduleTaskRetry announced_verifyTaskCompletion
  announced_taskCompletionHandled : announcedops.

Lemma announced_handleTaskCompletion_verdict env l config v :
  keeps (handleTaskCompletion_verdict env l config v).
Proof. intros st0 st H. unfold handleTaskCompletion_verdict. wpa H. Qed.

#[local] Hint Resolve announced_handleTaskCompletion_verdict : announcedops.

Lemma announced_handleTaskCompletion env l config runId :
  keeps (handleTaskCompletion env l config runId).
Proof. intros st0 st H. unfold handleTaskCompletion. wpa H. Qed.

Lemma announced_verificationSettled env l config runId v :
  keeps (verificationSettled env l config runId v).
Proof. intros st0 st H. unfold verificationSettled. wpa H. Qed.

#[local] Hint Resolve announced_handleTaskCompletion announced_verificationSettled
  : announcedops.

Lemma announced_onLifecycleEvent env evt : keeps (onLifecycleEvent env evt).
Proof.
  intros st0 st H. unfold onLifecycleEvent. wpa H.
  all: apply announced_begin_then_announce, H.
Qed.

Lemma announced_scheduleTaskRetry_afterStart env l started key :
  keeps (scheduleTaskRetry_afterStart env l started key).
Proof. intros st0 st H. unfold scheduleTaskRetry_afterStart, retrySettled. wpa H. Qed.

Lemma announced_finalizeSubagentCleanup env runId cleanup didAnnounce st0 st :
  now env <> 0 ->
  (didAnnounce = false -> subagentRuns st !! runId <> Some lr) ->
  framed (closedR lr) (announcedG r lr) st0 st ->
  wp (finalizeSubagentCleanup env runId cleanup didAnnounce)
    (fun _ st' => framed (closedR lr) (announcedG r lr) st0 st') st.
Proof.
  intros Hnow Hother H. unfold finalizeSubagentCleanup.
  apply wp_bind, wp_gets. cbv beta.
  destruct (getRun st runId) as [[l e]|] eqn:Hrun; [|exact H].
  apply getRun_Some in Hrun as [Hr _].
  destruct cleanup; [wpa H|].
  destruct didAnnounce; simpl; [wpa H|].
  assert (Hl : l <> lr) by (intros ->; apply Hother; [reflexivity|exact Hr]).
  wpa H.
Qed.

Lemma announced_announceSettled env runId l didAnnounce st0 st :
  now env <> 0 ->
  (didAnnounce = false -> subagentRuns st !! runId <> Some lr) ->
  framed (closedR lr) (announcedG r lr) st0 st ->
  wp (announceSettled env runId l didAnnounce)
    (fun _ st' => framed (closedR lr) (announcedG r lr) st0 st') st.
Proof.
  intros Hnow Hother H. unfold announceSettled, withEntry.
  apply wp_withEntryOr; [intros e _|intros _; exact H].
  apply announced_finalizeSubagentCleanup; assumption.
Qed.

Lemma announced_scheduleTaskRetry_afterDelay env l retryCount key st0 st :
  (forall e, heap st !! l = Some e -> subagentRuns st !! runId e <> Some lr) ->
  framed (closedR lr) (announcedG r lr) st0 st ->
  wp (scheduleTaskRetry_afterDelay env l retryCount key)
    (fun _ st' => framed (closedR lr) (announcedG r lr) st0 st') st.
Proof.
  intros Hother H. unfold scheduleTaskRetry_afterDelay, retrySettled.
  apply wp_withEntryOr; [intros e He|intros _; wpa H].
  apply wp_bind, wp_gets. cbv beta.
  destruct (getRun st (runId e)) as [[cl cur]|] eqn:Hrun; [|wpa H].
  apply getRun_Some in Hrun as [Hr _].
  assert (Hl : cl <> lr) by (intros ->; exact (Hother e He Hr)).
  wpa H.
Qed.

Lemma announced_ensureListener : keeps ensureListener.
Proof. intros st0 st H. unfold ensureListener. wpa H. Qed.

Lemma announced_startSweeper : keeps startSweeper.
Proof. intros st0 st H. unfold startSweeper. wpa H. Qed.

Lemma announced_stopSweeper : keeps stopSweeper.
Proof. intros st0 st H. unfold stopSweeper. wpa H. Qed.

#[local] Hint Resolve announced_ensureListener announced_startSweeper announced_stopSweeper
  : announcedops.

Lemma announced_sweepSubagentRuns env : keeps (sweepSubagentRuns env).
Proof. intros st0 st H. unfold sweepSubagentRuns. wpa H. Qed.

Lemma announced_releaseSubagentRun runId : keeps (releaseSubagentRun runId).
Proof. intros st0 st H. unfold releaseSubagentRun. wpa H. Qed.

Lemma announced_resetSubagentRegistryForTests : keeps resetSubagentRegistryForTests.
Proof. intros st0 st H. unfold resetSubagentRegistryForTests. wpa H. Qed.

Lemma announced_registerVerificationHook name hook :
  keeps (registerVerificationHook name hook).
Proof. intros st0 st H. unfold registerVerificationHook. wpa H. Qed.

Lemma announced_unregisterVerificationHook name :
  keeps (unregisterVerificationHook name).
Proof. intros st0 st H. unfold unregisterVerificationHook. wpa H. Qed.

Lemma announced_registerSubagentRun env params st0 st :
  Params.runId params <> r ->
  framed (closedR lr) (announcedG r lr) st0 st ->
  wp (registerSubagentRun env params)
    (fun _ st' => framed (closedR lr) (announcedG r lr) st0 st') st.
Proof.
  intros Hne H. unfold registerSubagentRun.
  apply wp_bind. eapply wpf_alloc; [exact announcedG_heap|exact H|].
  clear H. intros l S H. wpa H.
Qed.

Lemma announced_resumeSubagentRun env runId : keeps (resumeSubagentRun env runId).
Proof.
  intros st0 st H. unfold resumeSubagentRun. wpa H.
  all: eapply wp_mono; [apply announced_beginSubagentCleanup, H|].
  all: clear H; intros ok S [H Hok]; destruct ok; simpl; [|exact H].
  all: apply wp_bind; eapply wp_mono;
    [apply (announced_startAnnounce st0); [exact H|exact (Hok eq_refl)]|].
  all: clear H; intros ? ? H; cbv beta in H; wpa H.
Qed.

(** The restore keeps the entries that the registry holds. *)
Lemma announced_restoreSubagentRunsOnce env restored st0 st :
  subagentRuns st !! r = Some lr ->
  framed (closedR lr) (announcedG r lr) st0 st ->
  wp (restoreSubagentRunsOnce env restored)
    (fun _ st' => framed (closedR lr) (announcedG r lr) st0 st') st.
Proof.
  intros Hr H. rewrite restoreSubagentRunsOnce_unfold.
  apply wp_bind, wp_gets. cbv beta. destruct (restoreAttempted st); [exact H|].
  apply wp_bind, wp_modify. cbv beta.
  destruct restored as [[|kv entries]|]; [exact H| |exact H].
  apply wp_bind.
  eapply wp_mono;
    [apply (wp_forEach (fun S => framed (closedR lr) (announcedG r lr) st0 S /\
                                 subagentRuns S !! r = Some lr))|].
  - split; [exact H|exact Hr].
  - clear H Hr. intros x S _ [H Hr]. unfold restoreEntry. apply wp_bind, wp_gets. cbv beta.
    destruct (truthyStr x.1); simpl; [|split; assumption].
    destruct (bool_decide (is_Some (subagentRuns S !! x.1))) eqn:Hp; [split; assumption|].
    assert (Hne : x.1 <> r).
    { intros Heq. apply bool_decide_eq_false in Hp. apply Hp. rewrite Heq, Hr. eauto. }
    assert (H' : wp (alloc x.2)
                   (fun _ S' => framed (closedR lr) (announcedG r lr) st0 S') S)
      by (eapply wpf_alloc; [exact announcedG_heap|exact H|intros ? ? h; exact h]).
    change (framed (closedR lr) (announcedG r lr) st0 (with_heap (heap S ++ [x.2]) S)) in H'.
    apply wp_bind, wp_alloc, wp_modify. split.
    + eapply framed_rest; [exact H'|reflexivity|].
      apply announcedG_insert; [exact Hne|exact (proj2 H')].
    + simpl. rewrite lookup_insert_ne by exact Hne. exact Hr.
  - clear H Hr. intros a S [H _]. cbv beta. wpa H.
    all: eapply wp_mono;
      [ apply (wp_forEach (fun S' => framed (closedR lr) (announcedG r lr) st0 S'));
        [exact H|intros x S' _ H'; apply announced_resumeSubagentRun, H']
      | intros ? ? H'; exact H' ].
Qed.

(** A turn that is none of the reopening ones starts no announce flow for
    the run. *)
Lemma announced_step env ev st :
  closedAt st r lr -> now env <> 0 -> reopens st ev r lr = false ->
  wp (step env ev) (fun _ st' => framed (closedR lr) (announcedG r lr) st st') st.
Proof.
  intros Hat Hnow Hre. pose proof (announced_refl st Hat) as H.
  destruct ev as [params|restored|evt|i a| |runId| |name hook|name]; simpl in Hre |- *.
  - apply announced_registerSubagentRun; [|exact H].
    intros Heq. rewrite Heq, String.eqb_refl in Hre. discriminate.
  - apply announced_restoreSubagentRunsOnce; [|exact H].
    apply bool_decide_eq_false in Hre.
    destruct (subagentRuns st !! r) as [l|] eqn:Hl; [|contradiction].
    rewrite (proj1 (Hat l Hl)). reflexivity.
  - apply wp_bind, wp_gets. cbv beta. destruct (listenerStarted st); [|exact H].
    apply announced_onLifecycleEvent, H.
  - apply wp_bind, wp_gets. cbv beta.
    destruct (tasks st !! i) as [t|] eqn:Ht; [|exact H].
    assert (Ho : framed (closedR lr) (announcedG r lr) st
                   (with_tasks (delete i (tasks st)) st))
      by (eapply framed_rest; [exact H|reflexivity|apply announcedG_remove, (proj2 H)]).
    destruct t, a; simpl; try exact H; apply wp_bind, wp_modify; cbv beta.
    all: lazymatch goal with
         | |- wp (waitForSubagentCompletion_reply _ _ _) _ _ =>
             apply announced_waitForSubagentCompletion_reply, Ho
         | |- wp (announceSettled _ _ _ _) _ _ =>
             apply announced_announceSettled; [exact Hnow| |exact Ho];
             intros ->; apply bool_decide_eq_false in Hre; exact Hre
         | |- wp (scheduleTaskRetry_afterDelay _ _ _ _) _ _ =>
             apply announced_scheduleTaskRetry_afterDelay; [|exact Ho];
             intros e' He'; simpl in He'; rewrite He' in Hre;
             apply bool_decide_eq_false in Hre; exact Hre
         | |- wp (scheduleTaskRetry_afterStart _ _ _ _) _ _ =>
             apply announced_scheduleTaskRetry_afterStart, Ho
         | |- wp (verificationSettled _ _ _ _ _) _ _ =>
             apply announced_verificationSettled, Ho
         | |- wp (ret _) _ _ => exact Ho
         end.
  - apply wp_bind, wp_gets. cbv beta. destruct (sweeper st); [|exact H].
    apply announced_sweepSubagentRuns, H.
  - apply announced_releaseSubagentRun, H.
  - apply announced_resetSubagentRegistryForTests, H.
  - apply announced_registerVerificationHook, H.
  - apply wp_bind. eapply wp_mono; [apply announced_unregisterVerificationHook, H|].
    intros ? ? H'. exact H'.
Qed.
End Announced.

(** X29: while the cleanup guard of a registered run is closed
    ([cleanupHandled] set or [cleanupCompletedAt] non-zero), no turn starts
    an announce flow for it, whatever reaches the registry (lifecycle
    events, the prober's reply, verdicts, sweeps, releases, other runs),
    until a turn that can open the guard again: a new registration of the
    run, a restore while it is not registered, the finalisation of a failed
    announce for it, or the end of the back-off delay of a retry for it.
    The announce flows in flight for the run can only settle. *)
Theorem closed_guard_starts_no_announce (st : State) (r : string) (l : loc)
    (e : SubagentRunRecord) (trace : list (Env * Event)) :
  getRun st r = Some (l, e) -> closed e = true -> noReopening trace st r l = true ->
  (announcesInFlight (run trace st) r <= announcesInFlight st r)%nat.
Proof.
  intros Hrun Hc Hq.
  assert (Hat : closedAt st r l).
  { apply getRun_Some in Hrun as [Hr He]. intros l' Hl'. split; [congruence|eauto]. }
  clear e Hrun Hc. revert st Hat Hq.
  induction trace as [|[env ev] rest IH]; intros st Hat Hq; [apply Nat.le_refl|].
  simpl in Hq. apply andb_prop in Hq as [Hq Hrest]. apply andb_prop in Hq as [Hnow Hre].
  apply negb_true_iff in Hnow, Hre. apply Z.eqb_neq in Hnow.
  destruct (wp_exec _ _ _ (announced_step r l env ev st Hat Hnow Hre))
    as (a & _ & _ & _ & Hn & _).
  etransitivity; [|exact Hn].
  exact (IH _ (closedAt_step env ev st r l Hat Hnow Hre) Hrest).
Qed.

Lemma closed_guard_starts_no_announce_witness :
  (announcesInFlight (run quietTurns announceStarted) "run-1"
   <= announcesInFlight announceStarted "run-1")%nat.
Proof.
  eapply (closed_guard_starts_no_announce announceStarted "run-1").
  - vm_compute. reflexivity.
  - vm_compute. reflexivity.
  - vm_compute. reflexivity.
Defined.
